(** * Cleanflight input acquisition: timer capture dispatcher and receiver
      channel pipeline

    A shallow embedding of [src/main/drivers/timer.c] and [src/main/rx/rx.c],
    and of the feature mask and the stored-image checks of
    [src/main/config/config.c]. C integers are [Z] with the conversions of
    their C type written out, C arrays are lists read and updated by index,
    the file-scope and function-scope statics are record fields threaded
    through every call, and calls that leave the files (failsafe vtable,
    driver read, registered callbacks, interrupt enabling) are recorded in a
    trace of events. *)

From Stdlib Require Import ZArith Lia Bool Ascii String SpecFloat.
From stdpp Require Import base list.

Open Scope Z_scope.

(** ** Fixed-width integers *)

Module CInt.

(** Conversion to an unsigned type of [w] bits: reduction modulo [2^w]. *)
Definition to_unsigned (w z : Z) : Z := z mod 2 ^ w.

(** Conversion to a signed type of [w] bits (two's complement, as on the
    ARM targets of the firmware). *)
Definition to_signed (w z : Z) : Z :=
  let u := z mod 2 ^ w in
  if u <? 2 ^ (w - 1) then u else u - 2 ^ w.

Definition to_uint8 : Z -> Z := to_unsigned 8.
Definition to_uint16 : Z -> Z := to_unsigned 16.
Definition to_uint32 : Z -> Z := to_unsigned 32.
Definition to_int16 : Z -> Z := to_signed 16.
Definition to_int32 : Z -> Z := to_signed 32.

End CInt.

Import CInt.

(** Array read at a C index; the default is only met outside the array,
    where the C program has no defined behaviour. *)
Definition zget (l : list Z) (i : Z) : Z := default 0 (l !! Z.to_nat i).

(** Array write at a C index. *)
Definition zset (l : list Z) (i v : Z) : list Z := <[Z.to_nat i := v]> l.

(** The indices [0, 1, ..., n-1] of a counting [for] loop. *)
Definition upto (n : Z) : list Z := map Z.of_nat (seq 0 (Z.to_nat n)).

(** ** Single-precision arithmetic

    rx.c scales with [float] constants ([1000.0f], [1023.0f], [100.0f]).
    The operations are those of IEEE 754 binary32 with rounding to nearest
    even, taken from the specification of floating-point arithmetic of the
    standard library at precision 24 and maximal exponent 128. *)

Module Float32.

Definition prec : Z := 24.
Definition emax : Z := 128.

(** Conversion of an integer operand to [float]. *)
Definition of_Z (z : Z) : spec_float := binary_normalize prec emax z 0 false.

Definition div : spec_float -> spec_float -> spec_float := SFdiv prec emax.
Definition mul : spec_float -> spec_float -> spec_float := SFmul prec emax.

(** Conversion of a [float] to an integer type: the fractional part is
    discarded. Infinities and NaN have no defined conversion in C; they do
    not arise from the operands of rx.c and are sent to 0 here. *)
Definition trunc (f : spec_float) : Z :=
  match f with
  | S754_finite s m e =>
      let a := if 0 <=? e then Z.pos m * 2 ^ e else Z.pos m / 2 ^ (- e) in
      if s then - a else a
  | _ => 0
  end.

End Float32.

(** ** Feature mask and stored configuration: config.c *)

Module Config.

(** [feature]: [masterConfig.enabledFeatures & mask], a [uint32_t],
    returned as a [bool]. *)
Definition feature (enabledFeatures mask : Z) : bool :=
  negb (Z.land enabledFeatures mask =? 0).

(** [featureSet]: [masterConfig.enabledFeatures |= mask]. *)
Definition featureSet (mask enabledFeatures : Z) : Z :=
  Z.lor enabledFeatures mask.

(** [featureClear]: [masterConfig.enabledFeatures &= ~(mask)], the
    complement being that of a [uint32_t]. *)
Definition featureClear (mask enabledFeatures : Z) : Z :=
  Z.land enabledFeatures (to_uint32 (Z.lnot mask)).

Definition featureClearAll (enabledFeatures : Z) : Z := 0.

Definition featureMask (enabledFeatures : Z) : Z := enabledFeatures.

(** The feature constants of config.h that config.c names, and the target
    macros that select code in [resetConf] and [validateAndFixConfig]. *)
Class ConfigBuild := {
  FEATURE_RX_PPM : Z;
  FEATURE_VBAT : Z;
  FEATURE_RX_SERIAL : Z;
  FEATURE_SOFTSERIAL : Z;
  FEATURE_SONAR : Z;
  FEATURE_CURRENT_METER : Z;
  FEATURE_RX_PARALLEL_PWM : Z;
  FEATURE_RX_MSP : Z;
  FEATURE_RSSI_ADC : Z;
  FEATURE_LED_STRIP : Z;
  STM32F10X_MD : bool;
  CHEBUZZ : bool;
  STM32F3DISCOVERY : bool;
  SONAR : bool;
  CJMCU : bool
}.

Section Features.
Context `{ConfigBuild}.

(** The feature mask that [resetConf] leaves. *)
Definition resetConf_enabledFeatures (enabledFeatures : Z) : Z :=
  let f0 := featureClearAll enabledFeatures in
  let f1 := if CJMCU then featureSet FEATURE_RX_PPM f0 else f0 in
  featureSet FEATURE_VBAT f1.

(** [validateAndFixConfig], its effect on the feature mask. The calls that
    end the function ([useRxConfig], [applySerialConfigToPortFunctions],
    [isSerialConfigValid], [resetSerialConfig]) follow the last statement
    on the mask. *)
Definition validateAndFixConfig (enabledFeatures : Z) : Z :=
  let f0 := enabledFeatures in
  let f1 :=
    if negb (feature f0 FEATURE_RX_PARALLEL_PWM || feature f0 FEATURE_RX_PPM
             || feature f0 FEATURE_RX_SERIAL || feature f0 FEATURE_RX_MSP)
    then featureSet FEATURE_RX_PARALLEL_PWM f0
    else f0 in
  let f2 :=
    if feature f1 FEATURE_RX_PPM
    then featureClear FEATURE_RX_PARALLEL_PWM f1
    else f1 in
  let f3 :=
    if feature f2 FEATURE_RX_MSP
    then featureClear FEATURE_RX_PPM
           (featureClear FEATURE_RX_PARALLEL_PWM
              (featureClear FEATURE_RX_SERIAL f2))
    else f2 in
  let f4 :=
    if feature f3 FEATURE_RX_SERIAL
    then featureClear FEATURE_RX_PPM (featureClear FEATURE_RX_PARALLEL_PWM f3)
    else f3 in
  let f5 :=
    if feature f4 FEATURE_RX_PARALLEL_PWM then
      let g1 :=
        if STM32F10X_MD then
          let h := featureClear FEATURE_CURRENT_METER
                     (featureClear FEATURE_RSSI_ADC f4) in
          if SONAR then featureClear FEATURE_SONAR h else h
        else f4 in
      let g2 :=
        if STM32F10X_MD || CHEBUZZ || STM32F3DISCOVERY
        then featureClear FEATURE_LED_STRIP g1
        else g1 in
      featureClear FEATURE_SOFTSERIAL g2
    else f4 in
  if STM32F10X_MD then
    if feature f5 FEATURE_SOFTSERIAL
    then featureClear FEATURE_LED_STRIP f5
    else f5
  else f5.

(** The first four statements of [validateAndFixConfig], which settle the
    receiver feature. *)
Definition select_receiver (f0 : Z) : Z :=
  let f1 :=
    if negb (feature f0 FEATURE_RX_PARALLEL_PWM || feature f0 FEATURE_RX_PPM
             || feature f0 FEATURE_RX_SERIAL || feature f0 FEATURE_RX_MSP)
    then featureSet FEATURE_RX_PARALLEL_PWM f0
    else f0 in
  let f2 :=
    if feature f1 FEATURE_RX_PPM
    then featureClear FEATURE_RX_PARALLEL_PWM f1
    else f1 in
  let f3 :=
    if feature f2 FEATURE_RX_MSP
    then featureClear FEATURE_RX_PPM
           (featureClear FEATURE_RX_PARALLEL_PWM
              (featureClear FEATURE_RX_SERIAL f2))
    else f2 in
  if feature f3 FEATURE_RX_SERIAL
  then featureClear FEATURE_RX_PPM (featureClear FEATURE_RX_PARALLEL_PWM f3)
  else f3.

(** The statements of [validateAndFixConfig] that follow: the features
    that need the ports or the timer of another one are cleared. *)
Definition free_ports (f4 : Z) : Z :=
  let f5 :=
    if feature f4 FEATURE_RX_PARALLEL_PWM then
      let g1 :=
        if STM32F10X_MD then
          let h := featureClear FEATURE_CURRENT_METER
                     (featureClear FEATURE_RSSI_ADC f4) in
          if SONAR then featureClear FEATURE_SONAR h else h
        else f4 in
      let g2 :=
        if STM32F10X_MD || CHEBUZZ || STM32F3DISCOVERY
        then featureClear FEATURE_LED_STRIP g1
        else g1 in
      featureClear FEATURE_SOFTSERIAL g2
    else f4 in
  if STM32F10X_MD then
    if feature f5 FEATURE_SOFTSERIAL
    then featureClear FEATURE_LED_STRIP f5
    else f5
  else f5.

(** The four receiver features, in the order in which
    [validateAndFixConfig] lets one win over the others. *)
Definition receiver_features : list Z :=
  [FEATURE_RX_MSP; FEATURE_RX_SERIAL; FEATURE_RX_PPM; FEATURE_RX_PARALLEL_PWM].

(** The features that [validateAndFixConfig] clears for the sake of
    parallel PWM or soft serial. *)
Definition port_features : list Z :=
  [FEATURE_RSSI_ADC; FEATURE_CURRENT_METER; FEATURE_SONAR; FEATURE_LED_STRIP;
   FEATURE_SOFTSERIAL].

End Features.

Definition EEPROM_CONF_VERSION : Z := 75.

(** [calculateChecksum]: the bytes [data[0 .. length-1]] folded with
    exclusive or into a [uint8_t]. *)
Definition calculateChecksum (data : list Z) (length : Z) : Z :=
  fold_left
    (fun checksum byteOffset => to_uint8 (Z.lxor checksum (zget data byteOffset)))
    (upto length) 0.

(** config_master.h is not among the sources: the size of [master_t] and
    the offsets of the members that config.c names are parameters. The
    stored image is the sequence of bytes of a [master_t]. *)
Class MasterLayout := {
  sizeof_master_t : Z;
  offsetof_version : Z;
  offsetof_size : Z;
  offsetof_magic_be : Z;
  offsetof_magic_ef : Z;
  offsetof_chk : Z
}.

(** A [uint16_t] member read from, and written to, its two bytes; the
    targets are little-endian. *)
Definition get_uint16 (image : list Z) (offset : Z) : Z :=
  zget image offset + 256 * zget image (offset + 1).

Definition set_uint16 (image : list Z) (offset v : Z) : list Z :=
  zset (zset image offset (v mod 256)) (offset + 1) (v / 256).

Section Eeprom.
Context `{MasterLayout}.

(** [isEEPROMContentValid] on the bytes found at [flashWriteAddress]. *)
Definition isEEPROMContentValid (flash : list Z) : bool :=
  if negb (EEPROM_CONF_VERSION =? zget flash offsetof_version) then false
  else if negb (get_uint16 flash offsetof_size =? sizeof_master_t)
          || negb (zget flash offsetof_magic_be =? 0xBE)
          || negb (zget flash offsetof_magic_ef =? 0xEF)
  then false
  else if negb (calculateChecksum flash sizeof_master_t =? 0) then false
  else true.

(** [writeEEPROM], its effect on [masterConfig]: version, size, magic
    numbers and checksum are set before the image is handed, word by word,
    to the flash programming functions of the peripheral library. *)
Definition writeEEPROM_masterConfig (masterConfig : list Z) : list Z :=
  let m1 := zset masterConfig offsetof_version EEPROM_CONF_VERSION in
  let m2 := set_uint16 m1 offsetof_size (to_uint16 sizeof_master_t) in
  let m3 := zset m2 offsetof_magic_be 0xBE in
  let m4 := zset m3 offsetof_magic_ef 0xEF in
  let m5 := zset m4 offsetof_chk 0 in
  zset m5 offsetof_chk (calculateChecksum m5 sizeof_master_t).

(** The members named by config.c lie inside the image and do not overlap;
    the image has the size of [master_t], which fits the flash reserved for
    it ([BUILD_BUG_ON] in [writeEEPROM]), and holds bytes. *)
Definition layout_ok : Prop :=
  0 < sizeof_master_t <= 0x800
  /\ Forall (fun o => 0 <= o < sizeof_master_t)
       [offsetof_version; offsetof_size; offsetof_size + 1; offsetof_magic_be;
        offsetof_magic_ef; offsetof_chk]
  /\ NoDup [offsetof_version; offsetof_size; offsetof_size + 1;
            offsetof_magic_be; offsetof_magic_ef; offsetof_chk].

Definition is_image (image : list Z) : Prop :=
  Z.of_nat (length image) = sizeof_master_t
  /\ Forall (fun b => 0 <= b < 256) image.

End Eeprom.

(** The exclusive or of all the bytes of a list. *)
Definition xor_all (l : list Z) : Z := fold_right Z.lxor 0 l.

(** A layout to evaluate the model: twelve bytes, the header members first,
    the checksum last. *)
Definition small_layout : MasterLayout :=
  {| sizeof_master_t := 12;
     offsetof_version := 0;
     offsetof_size := 2;
     offsetof_magic_be := 4;
     offsetof_magic_ef := 10;
     offsetof_chk := 11 |}.

(** Masks that share no bit. *)
Definition disjoint_masks (a b : Z) : bool := Z.land a b =? 0.

(** A [uint32_t] mask with at least one bit. *)
Definition is_mask (m : Z) : bool := (0 <? m) && (m <? 2 ^ 32).

(** The feature masks are as an enumeration of single bits makes them:
    the receiver masks are non-empty 32-bit masks that share no bit with
    each other or with the port features. *)
Definition masks_ok `{ConfigBuild} : bool :=
  forallb is_mask receiver_features
  && forallb (fun m => forallb (disjoint_masks m) port_features)
       receiver_features
  && disjoint_masks FEATURE_RX_MSP FEATURE_RX_SERIAL
  && disjoint_masks FEATURE_RX_MSP FEATURE_RX_PPM
  && disjoint_masks FEATURE_RX_MSP FEATURE_RX_PARALLEL_PWM
  && disjoint_masks FEATURE_RX_SERIAL FEATURE_RX_PPM
  && disjoint_masks FEATURE_RX_SERIAL FEATURE_RX_PARALLEL_PWM
  && disjoint_masks FEATURE_RX_PPM FEATURE_RX_PARALLEL_PWM.

(** A concrete choice of the constants: single bits, an STM32F10X_MD
    target with sonar. *)
Definition naze_config : ConfigBuild :=
  {| FEATURE_RX_PPM := 1;
     FEATURE_VBAT := 2;
     FEATURE_RX_SERIAL := 8;
     FEATURE_SOFTSERIAL := 64;
     FEATURE_SONAR := 512;
     FEATURE_CURRENT_METER := 2048;
     FEATURE_RX_PARALLEL_PWM := 8192;
     FEATURE_RX_MSP := 16384;
     FEATURE_RSSI_ADC := 32768;
     FEATURE_LED_STRIP := 65536;
     STM32F10X_MD := true;
     CHEBUZZ := false;
     STM32F3DISCOVERY := false;
     SONAR := true;
     CJMCU := false |}.

End Config.

(** ** Receiver channel pipeline: rx.c *)

Module Rx.

(** Constants that rx.c takes from headers (config.h, rx.h). *)
Class RxBuild := {
  FEATURE_RX_PPM : Z;
  FEATURE_RX_SERIAL : Z;
  FEATURE_FAILSAFE : Z;
  FEATURE_RX_PARALLEL_PWM : Z;
  FEATURE_RX_MSP : Z;
  FEATURE_RSSI_ADC : Z;
  SERIALRX_SPEKTRUM1024 : Z;
  SERIALRX_SPEKTRUM2048 : Z;
  SERIALRX_SBUS : Z;
  SERIALRX_SUMD : Z;
  REMAPPABLE_CHANNEL_COUNT : Z;
  MAX_SUPPORTED_RC_CHANNEL_COUNT : Z;
  MAX_SUPPORTED_RX_PARALLEL_PWM_OR_PPM_CHANNEL_COUNT : Z
}.

Definition PPM_AND_PWM_SAMPLE_COUNT : Z := 4.
Definition PULSE_MIN : Z := 750.
Definition PULSE_MAX : Z := 2250.
Definition DELAY_50_HZ : Z := Z.quot 1000000 50.
Definition RSSI_ADC_SAMPLE_COUNT : Z := 16.

Definition rcChannelLetters : string := "AERT1234".

(** The part of [rxConfig_t] that rx.c reads or writes. [rcmap] is an
    array of [uint8_t], [midrc] a [uint16_t]. *)
Record rxConfig_t := {
  rcmap : list Z;
  midrc : Z;
  rssi_channel : Z;
  serialrx_provider : Z
}.

(** Statics of [calculateNonDataDrivenChannel]. *)
Record smoothing_t := {
  rcSamples : list (list Z);
  rcDataMean : list Z;
  rxSamplesCollected : bool
}.

(** Statics of [updateRSSIADC]. *)
Record adc_t := {
  adcRssiSamples : list Z;
  adcRssiSampleIndex : Z;
  rssiUpdateAt : Z
}.

(** File-scope variables of rx.c, with the function statics nested. *)
Record rx_state := {
  rssi : Z;
  rcData : list Z;
  rcDataReceived : bool;
  rxUpdateAt : Z;
  rcSampleIndex : Z;
  smoothing : smoothing_t;
  adc : adc_t
}.

Definition set_rssi (v : Z) (st : rx_state) : rx_state :=
  {| rssi := v; rcData := rcData st; rcDataReceived := rcDataReceived st;
     rxUpdateAt := rxUpdateAt st; rcSampleIndex := rcSampleIndex st;
     smoothing := smoothing st; adc := adc st |}.

Definition set_rcData (v : list Z) (st : rx_state) : rx_state :=
  {| rssi := rssi st; rcData := v; rcDataReceived := rcDataReceived st;
     rxUpdateAt := rxUpdateAt st; rcSampleIndex := rcSampleIndex st;
     smoothing := smoothing st; adc := adc st |}.

Definition set_rcDataReceived (v : bool) (st : rx_state) : rx_state :=
  {| rssi := rssi st; rcData := rcData st; rcDataReceived := v;
     rxUpdateAt := rxUpdateAt st; rcSampleIndex := rcSampleIndex st;
     smoothing := smoothing st; adc := adc st |}.

Definition set_rxUpdateAt (v : Z) (st : rx_state) : rx_state :=
  {| rssi := rssi st; rcData := rcData st; rcDataReceived := rcDataReceived st;
     rxUpdateAt := v; rcSampleIndex := rcSampleIndex st;
     smoothing := smoothing st; adc := adc st |}.

Definition set_rcSampleIndex (v : Z) (st : rx_state) : rx_state :=
  {| rssi := rssi st; rcData := rcData st; rcDataReceived := rcDataReceived st;
     rxUpdateAt := rxUpdateAt st; rcSampleIndex := v;
     smoothing := smoothing st; adc := adc st |}.

Definition set_smoothing (v : smoothing_t) (st : rx_state) : rx_state :=
  {| rssi := rssi st; rcData := rcData st; rcDataReceived := rcDataReceived st;
     rxUpdateAt := rxUpdateAt st; rcSampleIndex := rcSampleIndex st;
     smoothing := v; adc := adc st |}.

Definition set_adc (v : adc_t) (st : rx_state) : rx_state :=
  {| rssi := rssi st; rcData := rcData st; rcDataReceived := rcDataReceived st;
     rxUpdateAt := rxUpdateAt st; rcSampleIndex := rcSampleIndex st;
     smoothing := smoothing st; adc := v |}.

(** What one call of the pipeline sees of the rest of the firmware: the
    feature mask of config.c, the active configuration, the runtime
    configuration negotiated at init, and the answers of the drivers. The
    driver buffer is taken as fixed for the duration of one call. *)
Record rx_env := {
  enabledFeatures : Z;
  rxConfig : rxConfig_t;
  channelCount : Z;
  rcReadRawFunc : option (Z -> Z);
  isPPMDataBeingReceived : bool;
  spektrumFrameComplete : bool;
  sbusFrameComplete : bool;
  sumdFrameComplete : bool;
  rxMspFrameComplete : bool;
  adcGetChannel_RSSI : Z
}.

(** Calls that leave rx.c, in the order they are made. *)
Inductive event :=
  | FailsafeReset
  | FailsafeIncrementCounter
  | FailsafeCheckPulse (channel sample : Z)
  | ResetPPMDataReceivedState
  | ReadRaw (rawChannel : Z).

(** [feature] of config.c: [masterConfig.enabledFeatures & mask] as a bool. *)
Definition feature (env : rx_env) (mask : Z) : bool :=
  negb (Z.land (enabledFeatures env) mask =? 0).

(** [(int32_t)(currentTime - deadline)] on [uint32_t] operands. *)
Definition elapsed32 (currentTime deadline : Z) : Z :=
  to_int32 (to_uint32 (currentTime - deadline)).

(** The test [(int32_t)(currentTime - deadline) >= 0]. *)
Definition due32 (currentTime deadline : Z) : bool :=
  0 <=? elapsed32 currentTime deadline.

Definition shouldProcessRx (currentTime : Z) (st : rx_state) : bool :=
  rcDataReceived st || due32 currentTime (rxUpdateAt st).

(** [calculateChannelRemapping]: the table is a pointer and an entry count. *)
Definition calculateChannelRemapping
    (channelMap : list Z) (channelMapEntryCount channelToRemap : Z) : Z :=
  if channelToRemap <? channelMapEntryCount
  then zget channelMap channelToRemap
  else channelToRemap.

Section Pipeline.
Context `{RxBuild}.

Definition isSerialRxFrameComplete (env : rx_env) : bool :=
  let p := serialrx_provider (rxConfig env) in
  if (p =? SERIALRX_SPEKTRUM1024) || (p =? SERIALRX_SPEKTRUM2048)
  then spektrumFrameComplete env
  else if p =? SERIALRX_SBUS then sbusFrameComplete env
  else if p =? SERIALRX_SUMD then sumdFrameComplete env
  else false.

Definition updateRx (env : rx_env) (st : rx_state) : rx_state * list event :=
  let r0 := false in
  let r1 := if feature env FEATURE_RX_SERIAL
            then isSerialRxFrameComplete env else r0 in
  let r2 := if feature env FEATURE_RX_MSP
            then rxMspFrameComplete env else r1 in
  (set_rcDataReceived r2 st,
   if r2 && feature env FEATURE_FAILSAFE then [FailsafeReset] else []).

Definition isRxDataDriven (env : rx_env) : bool :=
  negb (feature env (Z.lor FEATURE_RX_PARALLEL_PWM FEATURE_RX_PPM)).

(** [rcSamples[chan][idx] = v] *)
Definition store_sample (chan idx v : Z) (sm : smoothing_t) : smoothing_t :=
  {| rcSamples :=
       <[Z.to_nat chan := zset (default [] (rcSamples sm !! Z.to_nat chan)) idx v]>
         (rcSamples sm);
     rcDataMean := rcDataMean sm;
     rxSamplesCollected := rxSamplesCollected sm |}.

(** [rcSamples[chan][idx]] *)
Definition load_sample (chan idx : Z) (sm : smoothing_t) : Z :=
  zget (default [] (rcSamples sm !! Z.to_nat chan)) idx.

Definition set_rcDataMean (chan v : Z) (sm : smoothing_t) : smoothing_t :=
  {| rcSamples := rcSamples sm;
     rcDataMean := zset (rcDataMean sm) chan v;
     rxSamplesCollected := rxSamplesCollected sm |}.

Definition set_rxSamplesCollected (b : bool) (sm : smoothing_t) : smoothing_t :=
  {| rcSamples := rcSamples sm;
     rcDataMean := rcDataMean sm;
     rxSamplesCollected := b |}.

(** One round of [rcDataMean[chan] += rcSamples[chan][sampleIndex]], the
    sum being stored back into an [int16_t]. *)
Definition accumulate (chan : Z) (sm : smoothing_t) (sampleIndex : Z)
    : smoothing_t :=
  set_rcDataMean chan
    (to_int16 (zget (rcDataMean sm) chan + load_sample chan sampleIndex sm)) sm.

(** [calculateNonDataDrivenChannel]: [sample] is a [uint16_t], the window
    holds [int16_t]; the quotient is that of C, rounded toward zero. *)
Definition calculateNonDataDrivenChannel
    (chan sample : Z) (rcSampleIndex : Z) (sm : smoothing_t)
    : Z * smoothing_t :=
  let currentSampleIndex := rcSampleIndex mod PPM_AND_PWM_SAMPLE_COUNT in
  let sm1 := store_sample chan currentSampleIndex (to_int16 sample) sm in
  let average (sm2 : smoothing_t) :=
    let sm3 := set_rcDataMean chan 0 sm2 in
    let sm4 := fold_left (accumulate chan) (upto PPM_AND_PWM_SAMPLE_COUNT) sm3 in
    (to_uint16 (Z.quot (zget (rcDataMean sm4) chan) PPM_AND_PWM_SAMPLE_COUNT),
     sm4) in
  if negb (rxSamplesCollected sm1) then
    if rcSampleIndex <? PPM_AND_PWM_SAMPLE_COUNT
    then (sample, sm1)
    else average (set_rxSamplesCollected true sm1)
  else average sm1.

(** The range check of [processRxChannels]. *)
Definition validate (env : rx_env) (sample : Z) : Z :=
  if (sample <? PULSE_MIN) || (PULSE_MAX <? sample)
  then midrc (rxConfig env) else sample.

(** The raw sample of logical channel [chan], read through the remap
    table. *)
Definition raw_sample (env : rx_env) (read : Z -> Z) (chan : Z) : Z :=
  to_uint16
    (read (to_uint8 (calculateChannelRemapping (rcmap (rxConfig env))
                       REMAPPABLE_CHANNEL_COUNT chan))).

(** The raw sample of logical channel [chan] after the range check. *)
Definition checked_sample (env : rx_env) (read : Z -> Z) (chan : Z) : Z :=
  validate env (raw_sample env read chan).

(** The body of the channel loop of [processRxChannels]. *)
Definition processChannel (env : rx_env) (shouldCheckPulse : bool)
    (acc : rx_state * list event) (chan : Z) : rx_state * list event :=
  let '(st, tr) := acc in
  match rcReadRawFunc env with
  | None =>
      (set_rcData (zset (rcData st) chan (to_int16 (midrc (rxConfig env)))) st, tr)
  | Some read =>
      let rawChannel :=
        to_uint8 (calculateChannelRemapping (rcmap (rxConfig env))
                    REMAPPABLE_CHANNEL_COUNT chan) in
      let sample := to_uint16 (read rawChannel) in
      let tr1 := tr ++ [ReadRaw rawChannel] in
      let tr2 := if feature env FEATURE_FAILSAFE && shouldCheckPulse
                 then tr1 ++ [FailsafeCheckPulse rawChannel sample] else tr1 in
      let sample' := validate env sample in
      if isRxDataDriven env
      then (set_rcData (zset (rcData st) chan (to_int16 sample')) st, tr2)
      else
        let '(v, sm) :=
          calculateNonDataDrivenChannel chan sample' (rcSampleIndex st)
            (smoothing st) in
        let st1 := set_smoothing sm st in
        (set_rcData (zset (rcData st1) chan (to_int16 v)) st1, tr2)
  end.

Definition processRxChannels (env : rx_env) (st : rx_state)
    : rx_state * list event :=
  let '(shouldCheckPulse, tr0) :=
    if feature env (Z.lor FEATURE_FAILSAFE FEATURE_RX_PPM)
    then (isPPMDataBeingReceived env, [ResetPPMDataReceivedState])
    else (true, []) in
  fold_left (processChannel env shouldCheckPulse)
    (upto (channelCount env)) (st, tr0).

Definition processDataDrivenRx (env : rx_env) (st : rx_state)
    : rx_state * list event :=
  if negb (rcDataReceived st) then (st, [])
  else
    let '(st1, tr) := processRxChannels env st in
    (set_rcDataReceived false st1, FailsafeReset :: tr).

Definition processNonDataDrivenRx (env : rx_env) (st : rx_state)
    : rx_state * list event :=
  processRxChannels env
    (set_rcSampleIndex (to_uint8 (rcSampleIndex st + 1)) st).

Definition calculateRxChannelsAndUpdateFailsafe
    (currentTime : Z) (env : rx_env) (st : rx_state) : rx_state * list event :=
  let st1 := set_rxUpdateAt (to_uint32 (currentTime + DELAY_50_HZ)) st in
  let tr0 := if feature env FEATURE_FAILSAFE
             then [FailsafeIncrementCounter] else [] in
  let '(st2, tr) :=
    if isRxDataDriven env
    then processDataDrivenRx env st1
    else processNonDataDrivenRx env st1 in
  (st2, tr0 ++ tr).

(** [strchr] of the C library on a string without embedded NUL: the
    offset of the first occurrence of [c], the terminating NUL counting as
    part of the string; [None] is the null pointer. *)
Fixpoint strchr (s : string) (c : ascii) : option Z :=
  match s with
  | EmptyString => if Ascii.eqb c zero then Some 0 else None
  | String a rest =>
      if Ascii.eqb a c then Some 0
      else option_map Z.succ (strchr rest c)
  end.

(** The loop of [parseRcChannels] from the character at [offset] on; the
    loop ends at the first NUL. The difference [c - input] is stored into
    a [uint8_t]. *)
Fixpoint parseRcChannels_from (input : string) (offset : Z) (map : list Z)
    : list Z :=
  match input with
  | EmptyString => map
  | String c rest =>
      if Ascii.eqb c zero then map
      else
        let map' :=
          match strchr rcChannelLetters c with
          | Some s => zset map s (to_uint8 offset)
          | None => map
          end in
        parseRcChannels_from rest (offset + 1) map'
  end.

Definition parseRcChannels (input : string) (cfg : rxConfig_t) : rxConfig_t :=
  {| rcmap := parseRcChannels_from input 0 (rcmap cfg);
     midrc := midrc cfg;
     rssi_channel := rssi_channel cfg;
     serialrx_provider := serialrx_provider cfg |}.

(** Modelled from the spec: [constrain] of common/maths is not among the
    sources; the spec describes the rescaled channel value as clamped into
    its range. *)
Definition constrain (amt low high : Z) : Z :=
  if amt <? low then low else if high <? amt then high else amt.

(** [(uint16_t)((x / d) * 1023.0f)] for an integer [x] and a [float]
    constant [d]: the rescaling shared by both RSSI sources. *)
Definition rescale_1023 (x d : Z) : Z :=
  to_uint16
    (Float32.trunc
       (Float32.mul (Float32.div (Float32.of_Z x) (Float32.of_Z d))
          (Float32.of_Z 1023))).

Definition updateRSSIPWM (env : rx_env) (st : rx_state) : rx_state :=
  let pwmRssi := to_int16 (zget (rcData st) (rssi_channel (rxConfig env) - 1)) in
  set_rssi (rescale_1023 (constrain (pwmRssi - 1000) 0 1000) 1000) st.

(** [RSSI_SCALE], the constant [(0xFFF / 100.0f)]. *)
Definition RSSI_SCALE : spec_float :=
  Float32.div (Float32.of_Z 4095) (Float32.of_Z 100).

(** [uint8_t rssiPercentage = adcRssiSample / RSSI_SCALE] *)
Definition rssiPercentage_of (adcRssiSample : Z) : Z :=
  to_uint8 (Float32.trunc (Float32.div (Float32.of_Z adcRssiSample) RSSI_SCALE)).

Definition updateRSSIADC (currentTime : Z) (env : rx_env) (st : rx_state)
    : rx_state :=
  let a := adc st in
  if elapsed32 currentTime (rssiUpdateAt a) <? 0 then st
  else
    let rssiUpdateAt' := to_uint32 (currentTime + DELAY_50_HZ) in
    let adcRssiSample := to_uint16 (adcGetChannel_RSSI env) in
    let rssiPercentage := rssiPercentage_of adcRssiSample in
    let adcRssiSampleIndex' :=
      to_uint8 ((adcRssiSampleIndex a + 1) mod RSSI_ADC_SAMPLE_COUNT) in
    let adcRssiSamples' :=
      zset (adcRssiSamples a) adcRssiSampleIndex' rssiPercentage in
    let adcRssiMean :=
      fold_left (fun mean sampleIndex =>
                   to_int16 (mean + zget adcRssiSamples' sampleIndex))
        (upto RSSI_ADC_SAMPLE_COUNT) 0 in
    let adcRssiMean' := to_int16 (Z.quot adcRssiMean RSSI_ADC_SAMPLE_COUNT) in
    set_rssi (rescale_1023 (constrain adcRssiMean' 0 100) 100)
      (set_adc {| adcRssiSamples := adcRssiSamples';
                  adcRssiSampleIndex := adcRssiSampleIndex';
                  rssiUpdateAt := rssiUpdateAt' |} st).

Definition updateRSSI (currentTime : Z) (env : rx_env) (st : rx_state)
    : rx_state :=
  if 0 <? rssi_channel (rxConfig env) then updateRSSIPWM env st
  else if feature env FEATURE_RSSI_ADC then updateRSSIADC currentTime env st
  else st.

(** What the drivers answer during one tick: the time of the tick, the
    contents of the driver buffer and whether PPM pulses have arrived. *)
Record tick := {
  tk_time : Z;
  tk_read : Z -> Z;
  tk_ppm : bool
}.

(** The environment of a tick: the setup of [env] with the answers of [k]. *)
Definition with_driver (k : tick) (env : rx_env) : rx_env :=
  {| enabledFeatures := enabledFeatures env;
     rxConfig := rxConfig env;
     channelCount := channelCount env;
     rcReadRawFunc := Some (tk_read k);
     isPPMDataBeingReceived := tk_ppm k;
     spektrumFrameComplete := spektrumFrameComplete env;
     sbusFrameComplete := sbusFrameComplete env;
     sumdFrameComplete := sumdFrameComplete env;
     rxMspFrameComplete := rxMspFrameComplete env;
     adcGetChannel_RSSI := adcGetChannel_RSSI env |}.

(** One scheduled tick: [calculateRxChannelsAndUpdateFailsafe] at the time
    of [k], the drivers answering as [k] says. *)
Definition run_tick (env : rx_env) (k : tick) (st : rx_state) : rx_state :=
  fst (calculateRxChannelsAndUpdateFailsafe (tk_time k) (with_driver k env) st).

(** The environment of a call in which the ADC reads [sample]. *)
Definition with_adc (sample : Z) (env : rx_env) : rx_env :=
  {| enabledFeatures := enabledFeatures env;
     rxConfig := rxConfig env;
     channelCount := channelCount env;
     rcReadRawFunc := rcReadRawFunc env;
     isPPMDataBeingReceived := isPPMDataBeingReceived env;
     spektrumFrameComplete := spektrumFrameComplete env;
     sbusFrameComplete := sbusFrameComplete env;
     sumdFrameComplete := sumdFrameComplete env;
     rxMspFrameComplete := rxMspFrameComplete env;
     adcGetChannel_RSSI := sample |}.

(** Successive calls of [updateRSSIADC], each at its time and with the ADC
    reading it finds. *)
Fixpoint updateRSSIADC_seq (times samples : list Z) (env : rx_env)
    (st : rx_state) : rx_state :=
  match times, samples with
  | t :: times', s :: samples' =>
      updateRSSIADC_seq times' samples' env (updateRSSIADC t (with_adc s env) st)
  | _, _ => st
  end.

(** Every call of the sequence finds its gate open. The gate only depends
    on the times: each accepted call moves the deadline 20000 past its
    own time. *)
Fixpoint all_accepted (times : list Z) (deadline : Z) : bool :=
  match times with
  | [] => true
  | t :: times' =>
      due32 t deadline && all_accepted times' (to_uint32 (t + DELAY_50_HZ))
  end.

End Pipeline.

(** The round-robin write of [updateRSSIADC]: the index moves on by one
    modulo 16 and the percentage [p] lands there. *)
Definition adc_push (a : list Z * Z) (p : Z) : list Z * Z :=
  let adcRssiSampleIndex' :=
    to_uint8 ((snd a + 1) mod RSSI_ADC_SAMPLE_COUNT) in
  (zset (fst a) adcRssiSampleIndex' p, adcRssiSampleIndex').

(** What the summing loop of [updateRSSIADC] leaves in [adcRssiMean]. *)
Definition adc_window_sum (window : list Z) : Z :=
  fold_left (fun mean sampleIndex => to_int16 (mean + zget window sampleIndex))
    (upto RSSI_ADC_SAMPLE_COUNT) 0.

(** The RSSI that [updateRSSIADC] publishes for a window. *)
Definition adc_rssi (window : list Z) : Z :=
  rescale_1023
    (constrain (to_int16 (Z.quot (adc_window_sum window) RSSI_ADC_SAMPLE_COUNT))
       0 100) 100.

(** The sum of a list of integers. *)
Definition sum_Z (l : list Z) : Z := fold_right Z.add 0 l.

(** The offset, counted from [offset] at the head of [input], of the last
    occurrence of [c] in the C string [input], which ends at its first
    NUL. *)
Fixpoint last_offset_from (input : string) (offset : Z) (c : ascii)
    : option Z :=
  match input with
  | EmptyString => None
  | String a rest =>
      if Ascii.eqb a zero then None
      else
        match last_offset_from rest (offset + 1) c with
        | Some o => Some o
        | None => if Ascii.eqb a c then Some offset else None
        end
  end.

(** [n] copies of [c] in front of [tail]. *)
Fixpoint pad (n : nat) (c : ascii) (tail : string) : string :=
  match n with
  | O => tail
  | S n' => String c (pad n' c tail)
  end.

(** What the averaging loop of [calculateNonDataDrivenChannel] leaves in
    [rcDataMean[chan]] when the window of the channel is [row]: the four
    slots added up in an [int16_t], starting from 0. *)
Definition window_sum (row : list Z) : Z :=
  fold_left (fun mean sampleIndex => to_int16 (mean + zget row sampleIndex))
    (upto PPM_AND_PWM_SAMPLE_COUNT) 0.

(** Whether [calculateNonDataDrivenChannel] averages: [rxSamplesCollected]
    is set, or the call at hand will set it. *)
Definition averaging (st : rx_state) : bool :=
  rxSamplesCollected (smoothing st) || (PPM_AND_PWM_SAMPLE_COUNT <=? rcSampleIndex st).

(** The arrays are as large as the channel loop needs them: the loop stays
    inside [rcData] and, when it smooths, inside [rcSamples] and
    [rcDataMean], where every window has its four slots. *)
Definition arrays_fit `{RxBuild} (env : rx_env) (st : rx_state) : Prop :=
  0 <= channelCount env < 256
  /\ channelCount env <= Z.of_nat (length (rcData st))
  /\ (isRxDataDriven env = false ->
      channelCount env <= Z.of_nat (length (rcSamples (smoothing st)))
      /\ channelCount env <= Z.of_nat (length (rcDataMean (smoothing st)))
      /\ Forall (fun row => length row = 4%nat) (rcSamples (smoothing st))).

(** A concrete choice of the header constants, to evaluate the model. *)
Definition firmware_build : RxBuild :=
  {| FEATURE_RX_PPM := 1;
     FEATURE_RX_SERIAL := 8;
     FEATURE_FAILSAFE := 256;
     FEATURE_RX_PARALLEL_PWM := 8192;
     FEATURE_RX_MSP := 16384;
     FEATURE_RSSI_ADC := 32768;
     SERIALRX_SPEKTRUM1024 := 0;
     SERIALRX_SPEKTRUM2048 := 1;
     SERIALRX_SBUS := 2;
     SERIALRX_SUMD := 3;
     REMAPPABLE_CHANNEL_COUNT := 8;
     MAX_SUPPORTED_RC_CHANNEL_COUNT := 18;
     MAX_SUPPORTED_RX_PARALLEL_PWM_OR_PPM_CHANNEL_COUNT := 12 |}.

(** The receiver configuration that [resetConf] of config.c builds. *)
Definition resetConf_rxConfig : rxConfig_t :=
  parseRcChannels "AETR1234"
    {| rcmap := replicate 8 0; midrc := 1500; rssi_channel := 0;
       serialrx_provider := 0 |}.

(** The variables of rx.c after [rxInit]: the statics still hold their
    zero initialisers, [rcData] holds [midrc] everywhere. *)
Definition rxInit_state `{RxBuild} (cfg : rxConfig_t) : rx_state :=
  {| rssi := 0;
     rcData := replicate (Z.to_nat MAX_SUPPORTED_RC_CHANNEL_COUNT)
                 (to_int16 (midrc cfg));
     rcDataReceived := false;
     rxUpdateAt := 0;
     rcSampleIndex := 0;
     smoothing :=
       {| rcSamples :=
            replicate (Z.to_nat MAX_SUPPORTED_RX_PARALLEL_PWM_OR_PPM_CHANNEL_COUNT)
              (replicate 4 0);
          rcDataMean :=
            replicate (Z.to_nat MAX_SUPPORTED_RX_PARALLEL_PWM_OR_PPM_CHANNEL_COUNT) 0;
          rxSamplesCollected := false |};
     adc := {| adcRssiSamples := replicate 16 0;
               adcRssiSampleIndex := 0;
               rssiUpdateAt := 0 |} |}.

(** An environment with [features] enabled, the default configuration,
    [count] channels, a driver whose buffer is [frame], and [complete]
    telling whether the serial and MSP drivers have a frame ready. *)
Definition env_of (features count : Z) (frame : list Z) (complete : bool)
    : rx_env :=
  {| enabledFeatures := features;
     rxConfig := resetConf_rxConfig;
     channelCount := count;
     rcReadRawFunc := Some (zget frame);
     isPPMDataBeingReceived := true;
     spektrumFrameComplete := complete;
     sbusFrameComplete := complete;
     sumdFrameComplete := complete;
     rxMspFrameComplete := complete;
     adcGetChannel_RSSI := 0 |}.

(** A tick at time [t] on which the driver buffer holds [frame]. *)
Definition tick_of (t : Z) (frame : list Z) : tick :=
  {| tk_time := t; tk_read := zget frame; tk_ppm := true |}.

(** A POLL-mode setup: PPM enabled, eight channels. *)
Definition ppm_env : rx_env := env_of 1 8 [] false.

(** A PUSH-mode setup: a serial receiver with eight channels whose frame
    [frame] is complete. *)
Definition serial_env (frame : list Z) : rx_env := env_of 8 8 frame true.

(** A setup in which channel 5 carries the RSSI. *)
Definition rssi_channel_env : rx_env :=
  {| enabledFeatures := 1;
     rxConfig := {| rcmap := rcmap resetConf_rxConfig; midrc := 1500;
                    rssi_channel := 5; serialrx_provider := 0 |};
     channelCount := 8;
     rcReadRawFunc := None;
     isPPMDataBeingReceived := false;
     spektrumFrameComplete := false;
     sbusFrameComplete := false;
     sumdFrameComplete := false;
     rxMspFrameComplete := false;
     adcGetChannel_RSSI := 0 |}.

(** A configuration whose remap table is still cleared. *)
Definition cleared_rxConfig : rxConfig_t :=
  {| rcmap := replicate 8 0; midrc := 1500; rssi_channel := 0;
     serialrx_provider := 0 |}.

(** *** Start-up *)

(** What [rxInit] hands to the init function of a driver through
    pointers: [rxRuntimeConfig] and [rcReadRawFunc]. *)
Record rx_runtime := {
  rt_channelCount : Z;
  rt_rcReadRawFunc : option (Z -> Z)
}.

(** The init functions of the receiver drivers, which are outside rx.c.
    Each is taken to read the configuration it is given and to write
    [rxRuntimeConfig] and [rcReadRawFunc], the two objects it receives a
    pointer to for that; the serial ones and the MSP one return a [bool]. *)
Record rx_drivers := {
  spektrumInit : rxConfig_t -> rx_runtime -> rx_runtime * bool;
  sbusInit : rxConfig_t -> rx_runtime -> rx_runtime * bool;
  sumdInit : rxConfig_t -> rx_runtime -> rx_runtime * bool;
  rxMspInit : rxConfig_t -> rx_runtime -> rx_runtime * bool;
  rxPwmInit : rx_runtime -> rx_runtime
}.

Definition runtime_of (env : rx_env) : rx_runtime :=
  {| rt_channelCount := channelCount env;
     rt_rcReadRawFunc := rcReadRawFunc env |}.

Definition with_runtime (rt : rx_runtime) (env : rx_env) : rx_env :=
  {| enabledFeatures := enabledFeatures env;
     rxConfig := rxConfig env;
     channelCount := rt_channelCount rt;
     rcReadRawFunc := rt_rcReadRawFunc rt;
     isPPMDataBeingReceived := isPPMDataBeingReceived env;
     spektrumFrameComplete := spektrumFrameComplete env;
     sbusFrameComplete := sbusFrameComplete env;
     sumdFrameComplete := sumdFrameComplete env;
     rxMspFrameComplete := rxMspFrameComplete env;
     adcGetChannel_RSSI := adcGetChannel_RSSI env |}.

Definition with_enabledFeatures (features : Z) (env : rx_env) : rx_env :=
  {| enabledFeatures := features;
     rxConfig := rxConfig env;
     channelCount := channelCount env;
     rcReadRawFunc := rcReadRawFunc env;
     isPPMDataBeingReceived := isPPMDataBeingReceived env;
     spektrumFrameComplete := spektrumFrameComplete env;
     sbusFrameComplete := sbusFrameComplete env;
     sumdFrameComplete := sumdFrameComplete env;
     rxMspFrameComplete := rxMspFrameComplete env;
     adcGetChannel_RSSI := adcGetChannel_RSSI env |}.

(** [useRxConfig] *)
Definition useRxConfig (rxConfigToUse : rxConfig_t) (env : rx_env) : rx_env :=
  {| enabledFeatures := enabledFeatures env;
     rxConfig := rxConfigToUse;
     channelCount := channelCount env;
     rcReadRawFunc := rcReadRawFunc env;
     isPPMDataBeingReceived := isPPMDataBeingReceived env;
     spektrumFrameComplete := spektrumFrameComplete env;
     sbusFrameComplete := sbusFrameComplete env;
     sumdFrameComplete := sumdFrameComplete env;
     rxMspFrameComplete := rxMspFrameComplete env;
     adcGetChannel_RSSI := adcGetChannel_RSSI env |}.

Section Init.
Context `{RxBuild}.

(** The [switch] of [serialRxInit]: the init function of the configured
    provider, or nothing for a provider that has no case. *)
Definition serialRxInit_switch (drv : rx_drivers) (cfg : rxConfig_t)
    (rt : rx_runtime) : rx_runtime * bool :=
  let p := serialrx_provider cfg in
  if (p =? SERIALRX_SPEKTRUM1024) || (p =? SERIALRX_SPEKTRUM2048)
  then spektrumInit drv cfg rt
  else if p =? SERIALRX_SBUS then sbusInit drv cfg rt
  else if p =? SERIALRX_SUMD then sumdInit drv cfg rt
  else (rt, false).

Definition serialRxInit (drv : rx_drivers) (cfg : rxConfig_t) (env : rx_env)
    : rx_env :=
  let '(rt, enabled) := serialRxInit_switch drv cfg (runtime_of env) in
  let env1 := with_runtime rt env in
  if negb enabled then
    with_runtime {| rt_channelCount := rt_channelCount rt;
                    rt_rcReadRawFunc := None |}
      (with_enabledFeatures
         (Config.featureClear FEATURE_RX_SERIAL (enabledFeatures env1)) env1)
  else env1.

(** [rxInit], with [SERIAL_RX] defined. The failsafe pointer it stores is
    only used to reach the calls recorded as events. *)
Definition rxInit (drv : rx_drivers) (cfg : rxConfig_t) (env : rx_env)
    (st : rx_state) : rx_env * rx_state :=
  let env0 := useRxConfig cfg env in
  let st1 :=
    set_rcData
      (fold_left (fun data i => zset data i (to_int16 (midrc cfg)))
         (upto MAX_SUPPORTED_RC_CHANNEL_COUNT) (rcData st)) st in
  let env1 :=
    if feature env0 FEATURE_RX_SERIAL then serialRxInit drv cfg env0 else env0 in
  let env2 :=
    if feature env1 FEATURE_RX_MSP
    then with_runtime (fst (rxMspInit drv cfg (runtime_of env1))) env1
    else env1 in
  let env3 :=
    if feature env2 FEATURE_RX_PPM || feature env2 FEATURE_RX_PARALLEL_PWM
    then with_runtime (rxPwmInit drv (runtime_of env2)) env2
    else env2 in
  (env3, st1).

(** Successive scheduled ticks. *)
Definition run_ticks (env : rx_env) (ticks : list tick) (st : rx_state)
    : rx_state :=
  fold_left (fun st k => run_tick env k st) ticks st.

(** One pass of the main loop over the receiver: [updateRx], then the
    channel computation. *)
Definition rx_pass (currentTime : Z) (env : rx_env) (st : rx_state)
    : rx_state :=
  fst (calculateRxChannelsAndUpdateFailsafe currentTime env
         (fst (updateRx env st))).

End Init.

(** A pulse width that [processRxChannels] takes as valid. *)
Definition in_window (v : Z) : Prop := PULSE_MIN <= v <= PULSE_MAX.

(** What the windows hold while [calculateNonDataDrivenChannel] is fed
    valid pulses: once [rxSamplesCollected] is set every slot of every
    channel in use holds one; before, the slots 1 to [rcSampleIndex] do. *)
Definition windows_valid (env : rx_env) (st : rx_state) : Prop :=
  0 <= rcSampleIndex st < 256
  /\ forall chan row,
       0 <= chan < channelCount env ->
       rcSamples (smoothing st) !! Z.to_nat chan = Some row ->
       if rxSamplesCollected (smoothing st)
       then Forall in_window row
       else rcSampleIndex st < PPM_AND_PWM_SAMPLE_COUNT
            /\ forall j, 1 <= j <= rcSampleIndex st -> in_window (zget row j).


(** Whether [c] occurs in the C string [input], which ends at its first
    NUL. *)
Fixpoint mentions (input : string) (c : ascii) : bool :=
  match input with
  | EmptyString => false
  | String a rest =>
      if Ascii.eqb a zero then false
      else Ascii.eqb a c || mentions rest c
  end.

(** Drivers whose init functions all fail or do nothing. *)
Definition absent_drivers : rx_drivers :=
  {| spektrumInit := fun _ rt => (rt, false);
     sbusInit := fun _ rt => (rt, false);
     sumdInit := fun _ rt => (rt, false);
     rxMspInit := fun _ rt => (rt, false);
     rxPwmInit := fun rt => rt |}.

End Rx.

(** ** Timer capture dispatcher: timer.c *)

Module Timer.

(** The per-target part of timer.c: the table [timers] of peripheral
    addresses (its length is [MAX_TIMERS]) and the four channel constants
    of the peripheral library. *)
Class TimerBuild := {
  timers : list Z;
  TIM_Channel_1 : Z;
  TIM_Channel_2 : Z;
  TIM_Channel_3 : Z;
  TIM_Channel_4 : Z
}.

(** Outcome of a piece of code that reads arrays through unchecked
    indices: a value, a read past the end of an array, or a loop that
    never exits. *)
Inductive res (A : Type) : Type :=
  | Ret (a : A)
  | OutOfBounds
  | Diverges.
Arguments Ret {A} a.
Arguments OutOfBounds {A}.
Arguments Diverges {A}.

Definition bind {A B : Type} (m : res A) (k : A -> res B) : res B :=
  match m with
  | Ret a => k a
  | OutOfBounds => OutOfBounds
  | Diverges => Diverges
  end.

Notation "'do' x <- m ; k" := (bind m (fun x => k))
  (at level 10, x name, m at level 100, k at level 200).

(** [while (table[index] != x) index++;] with a [uint8_t] index. The index
    takes 256 values, so a search that has not ended after 256 rounds is
    back at an index it has already tried and never ends. *)
Fixpoint lookup_loop (fuel : nat) (table : list Z) (x index : Z) : res Z :=
  match fuel with
  | O => Diverges
  | S fuel' =>
      match table !! Z.to_nat index with
      | None => OutOfBounds
      | Some v =>
          if v =? x then Ret index
          else lookup_loop fuel' table x (to_uint8 (index + 1))
      end
  end.

Definition CC_CHANNELS_PER_TIMER : Z := 4.

(** [timerConfig_t]; callbacks are function pointers, 0 is [NULL]. *)
Record timerConfig_t := {
  tim : Z;
  channel : Z;
  edgeCallback : Z;
  overflowCallback : Z;
  reference : Z
}.

(** Interrupt sources of one peripheral that the handler tests. *)
Inductive it_source :=
  TIM_IT_Update | TIM_IT_CC1 | TIM_IT_CC2 | TIM_IT_CC3 | TIM_IT_CC4.

(** The registers of one timer peripheral that the handler touches:
    pending interrupt sources, auto-reload and the four capture registers. *)
Record tim_regs := {
  it_Update : bool;
  it_CC1 : bool;
  it_CC2 : bool;
  it_CC3 : bool;
  it_CC4 : bool;
  ARR : Z;
  CCR1 : Z;
  CCR2 : Z;
  CCR3 : Z;
  CCR4 : Z
}.

(** Modelled from the spec: [TIM_GetITStatus] of the peripheral library is
    not among the sources; the handler "checks whether that channel's
    capture-compare interrupt flag is set". *)
Definition TIM_GetITStatus (r : tim_regs) (src : it_source) : bool :=
  match src with
  | TIM_IT_Update => it_Update r
  | TIM_IT_CC1 => it_CC1 r
  | TIM_IT_CC2 => it_CC2 r
  | TIM_IT_CC3 => it_CC3 r
  | TIM_IT_CC4 => it_CC4 r
  end.

(** Modelled from the spec: [TIM_ClearITPendingBit] of the peripheral
    library; "if so, clears the flag". *)
Definition TIM_ClearITPendingBit (r : tim_regs) (src : it_source) : tim_regs :=
  {| it_Update := match src with TIM_IT_Update => false | _ => it_Update r end;
     it_CC1 := match src with TIM_IT_CC1 => false | _ => it_CC1 r end;
     it_CC2 := match src with TIM_IT_CC2 => false | _ => it_CC2 r end;
     it_CC3 := match src with TIM_IT_CC3 => false | _ => it_CC3 r end;
     it_CC4 := match src with TIM_IT_CC4 => false | _ => it_CC4 r end;
     ARR := ARR r; CCR1 := CCR1 r; CCR2 := CCR2 r; CCR3 := CCR3 r;
     CCR4 := CCR4 r |}.

(** A call through a registered function pointer:
    [callback(reference, capture)]. *)
Record call := Call {
  call_fn : Z;
  call_reference : Z;
  call_capture : Z
}.

Section Dispatcher.
Context `{TimerBuild}.

Definition MAX_TIMERS : Z := Z.of_nat (length timers).

Definition channels : list Z :=
  [TIM_Channel_1; TIM_Channel_2; TIM_Channel_3; TIM_Channel_4].

Definition lookupTimerIndex (tim : Z) : res Z :=
  lookup_loop 256 timers tim 0.

Definition lookupChannelIndex (channel : Z) : res Z :=
  lookup_loop 256 channels channel 0.

Definition lookupTimerConfigIndex (tim channel : Z) : res Z :=
  do timerIndex <- lookupTimerIndex tim ;
  do channelIndex <- lookupChannelIndex channel ;
  Ret (to_uint8 (timerIndex + MAX_TIMERS * channelIndex)).

(** [configureTimerChannelCallbacks]; [channel] and [reference] are
    [uint8_t] parameters. [assert_param] expands to nothing in the
    firmware build. *)
Definition configureTimerChannelCallbacks
    (tim channel reference edgeCallback overflowCallback : Z)
    (timerConfig : list timerConfig_t) : res (list timerConfig_t) :=
  do timerConfigIndex <- lookupTimerConfigIndex tim (to_uint8 channel) ;
  if MAX_TIMERS * CC_CHANNELS_PER_TIMER <=? timerConfigIndex
  then Ret timerConfig
  else
    match timerConfig !! Z.to_nat timerConfigIndex with
    | None => OutOfBounds
    | Some old =>
        Ret (<[Z.to_nat timerConfigIndex :=
                 {| tim := Timer.tim old;
                    channel := to_uint8 channel;
                    edgeCallback := edgeCallback;
                    overflowCallback := overflowCallback;
                    reference := to_uint8 reference |}]> timerConfig)
    end.

Definition configureTimerChannelCallback
    (tim channel reference edgeCallback : Z) (timerConfig : list timerConfig_t)
    : res (list timerConfig_t) :=
  configureTimerChannelCallbacks tim channel reference edgeCallback 0 timerConfig.

(** [findTimerConfig] followed by the reads through the returned pointer. *)
Definition findTimerConfig (tim channel : Z) (timerConfig : list timerConfig_t)
    : res timerConfig_t :=
  do timerConfigIndex <- lookupTimerConfigIndex tim channel ;
  match timerConfig !! Z.to_nat timerConfigIndex with
  | None => OutOfBounds
  | Some c => Ret c
  end.

(** The body of the overflow loop of [timCCxHandler]; the local [channel]
    is a [uint8_t], the array [channels] holds [uint16_t]. *)
Definition overflow_step (tim capture : Z) (timerConfig : list timerConfig_t)
    (acc : res (list call)) (channelIndex : Z) : res (list call) :=
  do tr <- acc ;
  match channels !! Z.to_nat channelIndex with
  | None => OutOfBounds
  | Some channels_channelIndex =>
      let channel := to_uint8 channels_channelIndex in
      do cfg <- findTimerConfig tim channel timerConfig ;
      if overflowCallback cfg =? 0 then Ret tr
      else Ret (tr ++ [Call (overflowCallback cfg) (reference cfg) capture])
  end.

(** The tail of the edge loop: the call through [edgeCallback], if set. *)
Definition edge_call (tim channel capture : Z) (timerConfig : list timerConfig_t)
    (regs : tim_regs) (tr : list call) : res (tim_regs * list call) :=
  do cfg <- findTimerConfig tim channel timerConfig ;
  if edgeCallback cfg =? 0 then Ret (regs, tr)
  else Ret (regs, tr ++ [Call (edgeCallback cfg) (reference cfg) capture]).

(** The body of the edge loop of [timCCxHandler]. *)
Definition edge_step (tim : Z) (timerConfig : list timerConfig_t)
    (acc : res (tim_regs * list call)) (channelIndex : Z)
    : res (tim_regs * list call) :=
  do a <- acc ;
  let '(regs, tr) := a in
  match channels !! Z.to_nat channelIndex with
  | None => OutOfBounds
  | Some channels_channelIndex =>
      let channel := to_uint8 channels_channelIndex in
      if (channel =? TIM_Channel_1) && TIM_GetITStatus regs TIM_IT_CC1 then
        let regs' := TIM_ClearITPendingBit regs TIM_IT_CC1 in
        edge_call tim TIM_Channel_1 (CCR1 regs') timerConfig regs' tr
      else if (channel =? TIM_Channel_2) && TIM_GetITStatus regs TIM_IT_CC2 then
        let regs' := TIM_ClearITPendingBit regs TIM_IT_CC2 in
        edge_call tim TIM_Channel_2 (CCR2 regs') timerConfig regs' tr
      else if (channel =? TIM_Channel_3) && TIM_GetITStatus regs TIM_IT_CC3 then
        let regs' := TIM_ClearITPendingBit regs TIM_IT_CC3 in
        edge_call tim TIM_Channel_3 (CCR3 regs') timerConfig regs' tr
      else if (channel =? TIM_Channel_4) && TIM_GetITStatus regs TIM_IT_CC4 then
        let regs' := TIM_ClearITPendingBit regs TIM_IT_CC4 in
        edge_call tim TIM_Channel_4 (CCR4 regs') timerConfig regs' tr
      else Ret (regs, tr)
  end.

(** [timCCxHandler]: the new register state and the calls made, in order. *)
Definition timCCxHandler (tim : Z) (regs : tim_regs)
    (timerConfig : list timerConfig_t) : res (tim_regs * list call) :=
  do a <- (if TIM_GetITStatus regs TIM_IT_Update then
          let regs' := TIM_ClearITPendingBit regs TIM_IT_Update in
          do tr <- fold_left (overflow_step tim (ARR regs') timerConfig)
                     (upto CC_CHANNELS_PER_TIMER) (Ret []) ;
          Ret (regs', tr)
        else Ret (regs, [])) ;
  fold_left (edge_step tim timerConfig) (upto CC_CHANNELS_PER_TIMER) (Ret a).

(** The table after [memset(timerConfig, 0, sizeof (timerConfig))]. *)
Definition timerInit : list timerConfig_t :=
  replicate (Z.to_nat (MAX_TIMERS * CC_CHANNELS_PER_TIMER))
    {| tim := 0; channel := 0; edgeCallback := 0; overflowCallback := 0;
       reference := 0 |}.

(** One call of [configureTimerChannelCallbacks], as its arguments. *)
Record registration := {
  reg_tim : Z;
  reg_channel : Z;
  reg_reference : Z;
  reg_edge : Z;
  reg_overflow : Z
}.

(** The registration calls of start-up, made one after the other. *)
Definition register_all (regs : list registration)
    (timerConfig : list timerConfig_t) : res (list timerConfig_t) :=
  fold_left
    (fun acc r =>
       do t <- acc ;
       configureTimerChannelCallbacks (reg_tim r) (reg_channel r)
         (reg_reference r) (reg_edge r) (reg_overflow r) t)
    regs (Ret timerConfig).

(** The registration most recently made for the pair [(tim, channel)]. *)
Fixpoint last_registration (regs : list registration) (tim channel : Z)
    : option registration :=
  match regs with
  | [] => None
  | r :: rest =>
      match last_registration rest tim channel with
      | Some r' => Some r'
      | None =>
          if (reg_tim r =? tim) && (reg_channel r =? channel)
          then Some r else None
      end
  end.

(** A registration names a timer of the table and one of the four
    channels, and its reference fits the [uint8_t] parameter. *)
Definition valid_registration (r : registration) : Prop :=
  reg_tim r ∈ timers /\ reg_channel r ∈ channels
  /\ 0 <= reg_reference r < 256.

(** What the target must provide: four distinct channel constants that fit
    the [uint8_t] parameter, and a timer table whose configuration index
    fits the [uint8_t] it is computed in. *)
Definition build_ok : Prop :=
  NoDup channels
  /\ Forall (fun c => 0 <= c < 256) channels
  /\ MAX_TIMERS * CC_CHANNELS_PER_TIMER <= 256.

(** Modelled from the spec: [TIM_GetCapture1] .. [TIM_GetCapture4] of the
    peripheral library; the handler "reads the hardware capture register
    for that specific channel". *)
Definition TIM_GetCapture (r : tim_regs) (src : it_source) : Z :=
  match src with
  | TIM_IT_Update => ARR r
  | TIM_IT_CC1 => CCR1 r
  | TIM_IT_CC2 => CCR2 r
  | TIM_IT_CC3 => CCR3 r
  | TIM_IT_CC4 => CCR4 r
  end.

(** The channel constants with their capture-compare interrupt sources. *)
Definition channel_sources : list (Z * it_source) :=
  [(TIM_Channel_1, TIM_IT_CC1); (TIM_Channel_2, TIM_IT_CC2);
   (TIM_Channel_3, TIM_IT_CC3); (TIM_Channel_4, TIM_IT_CC4)].

(** The overflow calls the registrations [regs] ask for on timer [tim]. *)
Definition expected_overflow_calls (regs : list registration) (tim : Z)
    (hw : tim_regs) : list call :=
  if TIM_GetITStatus hw TIM_IT_Update then
    flat_map
      (fun cs : Z * it_source =>
         match last_registration regs tim (fst cs) with
         | Some r =>
             if reg_overflow r =? 0 then []
             else [Call (reg_overflow r) (reg_reference r) (ARR hw)]
         | None => []
         end)
      channel_sources
  else [].

(** The edge calls the registrations [regs] ask for on timer [tim]: for
    each channel with a pending capture, the edge callback last registered
    for that very pair, with its reference and the capture of the channel. *)
Definition expected_edge_calls (regs : list registration) (tim : Z)
    (hw : tim_regs) : list call :=
  flat_map
    (fun cs : Z * it_source =>
       if TIM_GetITStatus hw (snd cs) then
         match last_registration regs tim (fst cs) with
         | Some r =>
             if reg_edge r =? 0 then []
             else [Call (reg_edge r) (reg_reference r)
                     (TIM_GetCapture hw (snd cs))]
         | None => []
         end
       else [])
    channel_sources.

(** The registers once every pending source has been acknowledged. *)
Definition acknowledged (hw : tim_regs) : tim_regs :=
  {| it_Update := false; it_CC1 := false; it_CC2 := false; it_CC3 := false;
     it_CC4 := false; ARR := ARR hw; CCR1 := CCR1 hw; CCR2 := CCR2 hw;
     CCR3 := CCR3 hw; CCR4 := CCR4 hw |}.

End Dispatcher.

(** The STM32F10x target (NAZE): TIM1..TIM4 and the channel constants of
    its peripheral library. *)
Definition TIM1 : Z := 0x40012C00.
Definition TIM2 : Z := 0x40000000.
Definition TIM3 : Z := 0x40000400.
Definition TIM4 : Z := 0x40000800.
Definition TIM8 : Z := 0x40013400.

Definition naze_build : TimerBuild :=
  {| timers := [TIM1; TIM2; TIM3; TIM4];
     TIM_Channel_1 := 0;
     TIM_Channel_2 := 4;
     TIM_Channel_3 := 8;
     TIM_Channel_4 := 12 |}.

(** *** Interrupt enabling, time base and the hardware tables *)

(** [TIM_ITConfig (tim, source, ENABLE)] of the peripheral library, recorded
    as an event. *)
Record it_enable := ITEnable {
  ie_tim : Z;
  ie_source : it_source
}.

(** The members of [timerHardware_t] that the dispatcher functions read. *)
Record timerHardware_t := TimerHardware {
  th_tim : Z;
  th_channel : Z
}.

Section Hardware.
Context `{TimerBuild}.

(** [configureTimerInputCaptureCompareChannel]; [channel] is a
    [uint8_t], and a value that is no [case] of the [switch] enables
    nothing. *)
Definition configureTimerInputCaptureCompareChannel (tim channel : Z)
    : list it_enable :=
  let channel := to_uint8 channel in
  if channel =? TIM_Channel_1 then [ITEnable tim TIM_IT_CC1]
  else if channel =? TIM_Channel_2 then [ITEnable tim TIM_IT_CC2]
  else if channel =? TIM_Channel_3 then [ITEnable tim TIM_IT_CC3]
  else if channel =? TIM_Channel_4 then [ITEnable tim TIM_IT_CC4]
  else [].

(** [configureTimerCaptureCompareInterrupt]: the new table and the
    interrupt sources enabled, in order. *)
Definition configureTimerCaptureCompareInterrupt (timerHardwarePtr : timerHardware_t)
    (reference edgeCallback overflowCallback : Z)
    (timerConfig : list timerConfig_t)
    : res (list timerConfig_t * list it_enable) :=
  do timerConfig' <-
    configureTimerChannelCallbacks (th_tim timerHardwarePtr)
      (th_channel timerHardwarePtr) reference edgeCallback overflowCallback
      timerConfig ;
  let enabled :=
    configureTimerInputCaptureCompareChannel (th_tim timerHardwarePtr)
      (th_channel timerHardwarePtr) in
  Ret (timerConfig',
       enabled ++ (if overflowCallback =? 0 then []
                   else [ITEnable (th_tim timerHardwarePtr) TIM_IT_Update])).

(** An entry of a hardware table that names a timer of [timers] and one
    of the four channels. *)
Definition valid_hardware (e : timerHardware_t) : Prop :=
  th_tim e ∈ timers /\ th_channel e ∈ channels.

End Hardware.

(** Whether any of the sources that [timCCxHandler] tests is pending. *)
Definition pending (hw : tim_regs) : bool :=
  it_Update hw || it_CC1 hw || it_CC2 hw || it_CC3 hw || it_CC4 hw.

(** [configTimeBase]: the value of the expression assigned to
    [TIM_Prescaler], computed in [uint32_t]; a division by zero has no
    value. [SystemCoreClock] is a variable of the start-up code. *)
Definition configTimeBase_TIM_Prescaler (SystemCoreClock mhz : Z) : option Z :=
  let divisor := to_uint32 (to_uint8 mhz * 1000000) in
  if divisor =? 0 then None
  else Some (to_uint32 (to_uint32 SystemCoreClock / divisor - 1)).

(** The timers of the STM32F30x targets. *)
Definition TIM15 : Z := 0x40014000.
Definition TIM16 : Z := 0x40014400.
Definition TIM17 : Z := 0x40014800.

Definition stm32f3discovery_build : TimerBuild :=
  {| timers := [TIM1; TIM2; TIM3; TIM4; TIM8; TIM16; TIM17];
     TIM_Channel_1 := 0;
     TIM_Channel_2 := 4;
     TIM_Channel_3 := 8;
     TIM_Channel_4 := 12 |}.

Definition chebuzzf3_build : TimerBuild :=
  {| timers := [TIM1; TIM2; TIM3; TIM4; TIM8; TIM15; TIM16; TIM17];
     TIM_Channel_1 := 0;
     TIM_Channel_2 := 4;
     TIM_Channel_3 := 8;
     TIM_Channel_4 := 12 |}.

Definition naze32pro_build : TimerBuild :=
  {| timers := [TIM1; TIM2; TIM3; TIM4; TIM15; TIM16; TIM17];
     TIM_Channel_1 := 0;
     TIM_Channel_2 := 4;
     TIM_Channel_3 := 8;
     TIM_Channel_4 := 12 |}.

(** The interrupt entry points. The last four are compiled for the
    STM32F30x targets. *)
Section Handlers.
Context `{TimerBuild}.

Definition TIM1_CC_IRQHandler := timCCxHandler TIM1.
Definition TIM2_IRQHandler := timCCxHandler TIM2.
Definition TIM3_IRQHandler := timCCxHandler TIM3.
Definition TIM4_IRQHandler := timCCxHandler TIM4.
Definition TIM8_CC_IRQHandler := timCCxHandler TIM8.
Definition TIM1_UP_TIM16_IRQHandler := timCCxHandler TIM16.
Definition TIM1_TRG_COM_TIM17_IRQHandler := timCCxHandler TIM17.

End Handlers.

(** The [timerHardware] tables, entry by entry: timer and channel. *)
Section Tables.
Context `{TimerBuild}.

Definition naze_timerHardware : list timerHardware_t :=
  [ TimerHardware TIM2 TIM_Channel_1; TimerHardware TIM2 TIM_Channel_2;
    TimerHardware TIM2 TIM_Channel_3; TimerHardware TIM2 TIM_Channel_4;
    TimerHardware TIM3 TIM_Channel_1; TimerHardware TIM3 TIM_Channel_2;
    TimerHardware TIM3 TIM_Channel_3; TimerHardware TIM3 TIM_Channel_4;
    TimerHardware TIM1 TIM_Channel_1; TimerHardware TIM1 TIM_Channel_4;
    TimerHardware TIM4 TIM_Channel_1; TimerHardware TIM4 TIM_Channel_2;
    TimerHardware TIM4 TIM_Channel_3; TimerHardware TIM4 TIM_Channel_4 ].

Definition cc3d_timerHardware : list timerHardware_t :=
  [ TimerHardware TIM4 TIM_Channel_1; TimerHardware TIM3 TIM_Channel_2;
    TimerHardware TIM3 TIM_Channel_3; TimerHardware TIM3 TIM_Channel_4;
    TimerHardware TIM2 TIM_Channel_1; TimerHardware TIM2 TIM_Channel_2;
    TimerHardware TIM4 TIM_Channel_4; TimerHardware TIM4 TIM_Channel_3;
    TimerHardware TIM4 TIM_Channel_2; TimerHardware TIM1 TIM_Channel_1;
    TimerHardware TIM3 TIM_Channel_1; TimerHardware TIM2 TIM_Channel_3 ].

Definition stm32f3discovery_timerHardware : list timerHardware_t :=
  [ TimerHardware TIM1 TIM_Channel_1; TimerHardware TIM16 TIM_Channel_1;
    TimerHardware TIM17 TIM_Channel_1; TimerHardware TIM8 TIM_Channel_1;
    TimerHardware TIM8 TIM_Channel_2; TimerHardware TIM8 TIM_Channel_3;
    TimerHardware TIM3 TIM_Channel_4; TimerHardware TIM3 TIM_Channel_2;
    TimerHardware TIM4 TIM_Channel_1; TimerHardware TIM4 TIM_Channel_2;
    TimerHardware TIM4 TIM_Channel_3; TimerHardware TIM4 TIM_Channel_4;
    TimerHardware TIM2 TIM_Channel_2; TimerHardware TIM2 TIM_Channel_3 ].

Definition chebuzzf3_timerHardware : list timerHardware_t :=
  [ TimerHardware TIM1 TIM_Channel_1; TimerHardware TIM16 TIM_Channel_1;
    TimerHardware TIM17 TIM_Channel_1; TimerHardware TIM8 TIM_Channel_1;
    TimerHardware TIM8 TIM_Channel_2; TimerHardware TIM8 TIM_Channel_3;
    TimerHardware TIM15 TIM_Channel_1; TimerHardware TIM15 TIM_Channel_2;
    TimerHardware TIM4 TIM_Channel_1; TimerHardware TIM4 TIM_Channel_2;
    TimerHardware TIM4 TIM_Channel_3; TimerHardware TIM4 TIM_Channel_4;
    TimerHardware TIM2 TIM_Channel_2; TimerHardware TIM2 TIM_Channel_3;
    TimerHardware TIM2 TIM_Channel_4; TimerHardware TIM3 TIM_Channel_3;
    TimerHardware TIM3 TIM_Channel_4; TimerHardware TIM3 TIM_Channel_2 ].

Definition naze32pro_timerHardware : list timerHardware_t :=
  [ TimerHardware TIM1 TIM_Channel_1; TimerHardware TIM1 TIM_Channel_2;
    TimerHardware TIM1 TIM_Channel_3; TimerHardware TIM3 TIM_Channel_1;
    TimerHardware TIM4 TIM_Channel_1; TimerHardware TIM4 TIM_Channel_2;
    TimerHardware TIM4 TIM_Channel_3; TimerHardware TIM4 TIM_Channel_4;
    TimerHardware TIM2 TIM_Channel_1; TimerHardware TIM2 TIM_Channel_2;
    TimerHardware TIM15 TIM_Channel_1; TimerHardware TIM15 TIM_Channel_2;
    TimerHardware TIM16 TIM_Channel_1; TimerHardware TIM17 TIM_Channel_1 ].

End Tables.

(** The five target configurations of timer.c: the table [timers] with
    the table [timerHardware] compiled with it. *)
Definition targets : list (TimerBuild * list timerHardware_t) :=
  [ (naze_build, @naze_timerHardware naze_build);
    (naze_build, @cc3d_timerHardware naze_build);
    (stm32f3discovery_build,
     @stm32f3discovery_timerHardware stm32f3discovery_build);
    (chebuzzf3_build, @chebuzzf3_timerHardware chebuzzf3_build);
    (naze32pro_build, @naze32pro_timerHardware naze32pro_build) ].

(** Whether every entry of a hardware table names a timer of [timers] and
    one of the four channels. *)
Definition hardware_in_table (b : TimerBuild) (table : list timerHardware_t)
    : bool :=
  forallb (fun e => existsb (Z.eqb (th_tim e)) (@timers b)
                    && existsb (Z.eqb (th_channel e)) (@channels b)) table.

End Timer.

(** * Properties *)

(** ** Facts about the integer conversions and array accesses *)

Module CIntFacts.

Lemma to_uint8_small z : 0 <= z < 256 -> to_uint8 z = z.
Proof. intros Hz. unfold to_uint8, to_unsigned. apply Z.mod_small. lia. Qed.

Lemma to_uint16_small z : 0 <= z < 65536 -> to_uint16 z = z.
Proof. intros Hz. unfold to_uint16, to_unsigned. apply Z.mod_small. lia. Qed.

Lemma to_uint8_range z : 0 <= to_uint8 z < 256.
Proof. unfold to_uint8, to_unsigned. apply Z.mod_pos_bound. lia. Qed.

Lemma to_uint16_range z : 0 <= to_uint16 z < 65536.
Proof. unfold to_uint16, to_unsigned. apply Z.mod_pos_bound. lia. Qed.

Lemma to_signed_unsigned w z :
  0 < w ->
  to_signed w (to_unsigned w z) =
  if to_unsigned w z <? 2 ^ (w - 1)
  then to_unsigned w z else to_unsigned w z - 2 ^ w.
Proof.
  intros Hw. unfold to_signed, to_unsigned.
  rewrite Z.mod_mod by (apply Z.pow_nonzero; lia). reflexivity.
Qed.

Lemma to_int16_small z : -32768 <= z < 32768 -> to_int16 z = z.
Proof.
  intros Hz. unfold to_int16, to_signed.
  change (2 ^ 16) with 65536. change (2 ^ (16 - 1)) with 32768.
  destruct (Z_lt_le_dec z 0) as [Hneg | Hpos].
  - replace (z mod 65536) with (z + 65536).
    + destruct (Z.ltb_spec (z + 65536) 32768); lia.
    + apply Z.mod_unique with (q := -1); lia.
  - rewrite Z.mod_small by lia.
    destruct (Z.ltb_spec z 32768); lia.
Qed.

Lemma zget_zset_eq l i v :
  0 <= i < Z.of_nat (length l) -> zget (zset l i v) i = v.
Proof.
  intros Hi. unfold zget, zset.
  rewrite list_lookup_insert_eq by lia. reflexivity.
Qed.

Lemma zget_zset_ne l i j v :
  0 <= i -> 0 <= j -> i <> j -> zget (zset l i v) j = zget l j.
Proof.
  intros Hi Hj Hne. unfold zget, zset.
  rewrite list_lookup_insert_ne by lia. reflexivity.
Qed.

Lemma length_zset l i v : length (zset l i v) = length l.
Proof. apply length_insert. Qed.

Lemma upto_succ n : 0 <= n -> upto (n + 1) = upto n ++ [n].
Proof.
  intros Hn. unfold upto.
  replace (Z.to_nat (n + 1)) with (S (Z.to_nat n)) by lia.
  rewrite seq_S, map_app. simpl. rewrite Z2Nat.id by lia. reflexivity.
Qed.

Lemma elem_of_upto n i : i ∈ upto n <-> 0 <= i < n.
Proof.
  unfold upto. rewrite list_elem_of_fmap. split.
  - intros (k & -> & Hk). apply elem_of_seq in Hk. lia.
  - intros Hi. exists (Z.to_nat i). split; [lia |]. apply elem_of_seq. lia.
Qed.

End CIntFacts.

(** ** The receiver channel pipeline *)

Module RxFacts.
Import Rx CIntFacts.

(** *** Scheduling gate *)

Lemma due32_iff now deadline :
  due32 now deadline = true <-> (now - deadline) mod 2 ^ 32 < 2 ^ 31.
Proof.
  unfold due32, elapsed32, to_int32, to_uint32.
  rewrite to_signed_unsigned by lia. unfold to_unsigned.
  change (32 - 1) with 31.
  pose proof (Z.mod_pos_bound (now - deadline) (2 ^ 32) ltac:(lia)) as Hb.
  destruct (Z.ltb_spec ((now - deadline) mod 2 ^ 32) (2 ^ 31));
    rewrite Z.leb_le; lia.
Qed.

(** C5. For 32-bit unsigned [now] and [deadline], the due test
    [(int32_t)(now - deadline) >= 0] holds exactly when the elapsed time
    [now - deadline] taken modulo 2^32 is below 2^31; [shouldProcessRx]
    without pending data is this test against [rxUpdateAt]; and when [now]
    has wrapped around while [deadline] has not (so that numerically
    [deadline - now] exceeds 2^31) the test still reports due. *)
Theorem due_test_wraparound (now deadline : Z) :
  0 <= now < 2 ^ 32 ->
  0 <= deadline < 2 ^ 32 ->
  (due32 now deadline = true <-> (now - deadline) mod 2 ^ 32 < 2 ^ 31)
  /\ (forall st, rcDataReceived st = false -> rxUpdateAt st = deadline ->
        shouldProcessRx now st = due32 now deadline)
  /\ (2 ^ 31 < deadline - now -> due32 now deadline = true).
Proof.
  intros Hnow Hdl. split; [apply due32_iff |]. split.
  - intros st Hrecv Hat. unfold shouldProcessRx. rewrite Hrecv, Hat. reflexivity.
  - intros Hwrap. apply due32_iff.
    replace ((now - deadline) mod 2 ^ 32) with (now - deadline + 2 ^ 32); [lia |].
    apply Z.mod_unique with (q := -1); lia.
Qed.

(** [now = 5] just after the wrap, [deadline = 2^32 - 10] just before. *)
Lemma due_test_wraparound_witness :
  due32 5 (2 ^ 32 - 10) = true /\ (5 - (2 ^ 32 - 10)) mod 2 ^ 32 = 15.
Proof.
  split; [| reflexivity].
  apply (due_test_wraparound 5 (2 ^ 32 - 10)); lia.
Defined.

(** *** Channel remapping *)

(** C6. For every table, entry count and logical index [k]:
    [calculateChannelRemapping] returns the table entry at [k] when [k] is
    below the entry count, and [k] itself otherwise. *)
Theorem calculateChannelRemapping_spec
    (channelMap : list Z) (channelMapEntryCount k : Z) :
  (k < channelMapEntryCount ->
   forall v, channelMap !! Z.to_nat k = Some v ->
     calculateChannelRemapping channelMap channelMapEntryCount k = v)
  /\ (channelMapEntryCount <= k ->
      calculateChannelRemapping channelMap channelMapEntryCount k = k).
Proof.
  unfold calculateChannelRemapping. split.
  - intros Hlt v Hv.
    destruct (Z.ltb_spec k channelMapEntryCount); [| lia].
    unfold zget. rewrite Hv. reflexivity.
  - intros Hge.
    destruct (Z.ltb_spec k channelMapEntryCount); [lia | reflexivity].
Qed.

Lemma calculateChannelRemapping_spec_witness :
  calculateChannelRemapping [0; 1; 3; 2; 4; 5; 6; 7] 8 2 = 3
  /\ calculateChannelRemapping [0; 1; 3; 2; 4; 5; 6; 7] 8 11 = 11.
Proof.
  destruct (calculateChannelRemapping_spec [0; 1; 3; 2; 4; 5; 6; 7] 8 2)
    as [Hin _].
  destruct (calculateChannelRemapping_spec [0; 1; 3; 2; 4; 5; 6; 7] 8 11)
    as [_ Hout].
  split; [apply Hin; [lia | reflexivity] | apply Hout; lia].
Defined.

(** *** The channel loop *)

Lemma NoDup_upto n : NoDup (upto n).
Proof.
  unfold upto. apply NoDup_fmap_2; [apply Nat2Z.inj' | apply NoDup_seq].
Qed.

(** A channel below the count is met exactly once by the loop. *)
Lemma upto_split n chan :
  0 <= chan < n ->
  exists before after,
    upto n = before ++ chan :: after
    /\ (chan ∉ before) /\ (chan ∉ after)
    /\ (forall c, c ∈ before ++ after -> 0 <= c < n).
Proof.
  intros Hchan.
  assert (Hin : chan ∈ upto n) by (apply elem_of_upto; exact Hchan).
  destruct (list_elem_of_split _ _ Hin) as (before & after & Heq).
  exists before, after. split; [exact Heq |].
  pose proof (NoDup_upto n) as Hnd. rewrite Heq in Hnd.
  apply NoDup_app in Hnd as (_ & Hdisj & Hnd2).
  apply NoDup_cons in Hnd2 as (Hnotin & _).
  split; [| split; [exact Hnotin |]].
  - intros Hb. apply (Hdisj chan Hb). left.
  - intros c Hc. apply elem_of_upto. rewrite Heq.
    apply elem_of_app in Hc as [Hc | Hc]; apply elem_of_app;
      [left | right; right]; exact Hc.
Qed.

(** The averaging loop touches [rcDataMean[chan]] only. *)
Lemma fold_accumulate_frame chan l :
  forall sm,
    rcSamples (fold_left (accumulate chan) l sm) = rcSamples sm
    /\ rxSamplesCollected (fold_left (accumulate chan) l sm)
       = rxSamplesCollected sm
    /\ length (rcDataMean (fold_left (accumulate chan) l sm))
       = length (rcDataMean sm).
Proof.
  induction l as [| i l IH]; intros sm; [repeat split |].
  cbn [fold_left]. destruct (IH (accumulate chan sm i)) as (H1 & H2 & H3).
  rewrite H1, H2, H3. cbn. rewrite length_zset. repeat split.
Qed.

(** What the averaging loop leaves in [rcDataMean[chan]]. *)
Lemma fold_accumulate_value chan row l :
  forall sm,
    0 <= chan < Z.of_nat (length (rcDataMean sm)) ->
    rcSamples sm !! Z.to_nat chan = Some row ->
    zget (rcDataMean (fold_left (accumulate chan) l sm)) chan
    = fold_left (fun mean sampleIndex => to_int16 (mean + zget row sampleIndex))
        l (zget (rcDataMean sm) chan).
Proof.
  induction l as [| i l IH]; intros sm Hchan Hrow; [reflexivity |].
  cbn [fold_left]. rewrite IH.
  - f_equal. cbn. rewrite zget_zset_eq by exact Hchan.
    unfold load_sample. rewrite Hrow. reflexivity.
  - cbn. rewrite length_zset. exact Hchan.
  - cbn. exact Hrow.
Qed.

(** [calculateNonDataDrivenChannel] on a channel whose window is [row]. *)
Lemma calculateNonDataDrivenChannel_spec chan sample idx sm row :
  0 <= chan < Z.of_nat (length (rcDataMean sm)) ->
  rcSamples sm !! Z.to_nat chan = Some row ->
  let row' := zset row (idx mod PPM_AND_PWM_SAMPLE_COUNT) (to_int16 sample) in
  let avg := rxSamplesCollected sm || (PPM_AND_PWM_SAMPLE_COUNT <=? idx) in
  let r := calculateNonDataDrivenChannel chan sample idx sm in
  fst r = (if avg
           then to_uint16 (Z.quot (window_sum row') PPM_AND_PWM_SAMPLE_COUNT)
           else sample)
  /\ rcSamples (snd r) = <[Z.to_nat chan := row']> (rcSamples sm)
  /\ rxSamplesCollected (snd r) = avg
  /\ length (rcDataMean (snd r)) = length (rcDataMean sm).
Proof.
  intros Hchan Hrow row' avg r.
  assert (Hstore : rcSamples (store_sample chan (idx mod PPM_AND_PWM_SAMPLE_COUNT)
                                (to_int16 sample) sm)
                   = <[Z.to_nat chan := row']> (rcSamples sm)).
  { cbn. rewrite Hrow. reflexivity. }
  assert (Hrow' : (<[Z.to_nat chan := row']> (rcSamples sm)) !! Z.to_nat chan
                  = Some row').
  { apply list_lookup_insert_eq. apply lookup_lt_Some in Hrow. exact Hrow. }
  assert (Havg : forall sm2,
            rcSamples sm2 = <[Z.to_nat chan := row']> (rcSamples sm) ->
            length (rcDataMean sm2) = length (rcDataMean sm) ->
            let sm4 := fold_left (accumulate chan) (upto PPM_AND_PWM_SAMPLE_COUNT)
                         (set_rcDataMean chan 0 sm2) in
            zget (rcDataMean sm4) chan = window_sum row'
            /\ rcSamples sm4 = <[Z.to_nat chan := row']> (rcSamples sm)
            /\ rxSamplesCollected sm4 = rxSamplesCollected sm2
            /\ length (rcDataMean sm4) = length (rcDataMean sm)).
  { intros sm2 Hs Hl sm4.
    destruct (fold_accumulate_frame chan (upto PPM_AND_PWM_SAMPLE_COUNT)
                (set_rcDataMean chan 0 sm2)) as (F1 & F2 & F3).
    split; [| split; [| split]].
    - unfold sm4. rewrite (fold_accumulate_value chan row').
      + cbn [set_rcDataMean rcDataMean].
        rewrite zget_zset_eq by (rewrite Hl; exact Hchan).
        unfold window_sum. reflexivity.
      + cbn. rewrite length_zset, Hl. exact Hchan.
      + cbn. rewrite Hs. exact Hrow'.
    - unfold sm4. rewrite F1. cbn. exact Hs.
    - unfold sm4. rewrite F2. reflexivity.
    - unfold sm4. rewrite F3. cbn. rewrite length_zset. exact Hl. }
  unfold r, calculateNonDataDrivenChannel.
  cbn [rxSamplesCollected store_sample].
  destruct (rxSamplesCollected sm) eqn:Hcol; cbn [negb].
  - subst avg. cbn [orb].
    destruct (Havg _ Hstore eq_refl) as (A1 & A2 & A3 & A4).
    cbn [fst snd]. rewrite A1, A2, A3, A4. cbn. rewrite Hcol. repeat split.
  - subst avg. cbn [orb].
    destruct (Z.ltb_spec idx PPM_AND_PWM_SAMPLE_COUNT) as [Hlt | Hge].
    + destruct (Z.leb_spec PPM_AND_PWM_SAMPLE_COUNT idx); [lia |].
      cbn [fst snd]. rewrite Hstore. cbn. rewrite Hcol. repeat split.
    + destruct (Z.leb_spec PPM_AND_PWM_SAMPLE_COUNT idx); [| lia].
      destruct (Havg (set_rxSamplesCollected true
                        (store_sample chan (idx mod PPM_AND_PWM_SAMPLE_COUNT)
                           (to_int16 sample) sm)) Hstore eq_refl)
        as (A1 & A2 & A3 & A4).
      cbn [fst snd]. rewrite A1, A2, A3, A4. repeat split.
Qed.

(** Projections of updated states. *)
Ltac state_simpl :=
  cbn [fst snd rssi rcData rcDataReceived rxUpdateAt rcSampleIndex smoothing adc
       set_rssi set_rcData set_rcDataReceived set_rxUpdateAt set_rcSampleIndex
       set_smoothing set_adc rcSamples rcDataMean rxSamplesCollected] in *.

Section ChannelLoop.
Context `{RxBuild}.

(** One round of the channel loop: what it keeps. *)
Lemma processChannel_frame env scp st tr c :
  arrays_fit env st ->
  0 <= c < channelCount env ->
  let st' := fst (processChannel env scp (st, tr) c) in
  arrays_fit env st'
  /\ rcSampleIndex st' = rcSampleIndex st
  /\ averaging st' = averaging st
  /\ rcDataReceived st' = rcDataReceived st
  /\ (forall chan, 0 <= chan -> chan <> c ->
        rcData st' !! Z.to_nat chan = rcData st !! Z.to_nat chan
        /\ rcSamples (smoothing st') !! Z.to_nat chan
           = rcSamples (smoothing st) !! Z.to_nat chan).
Proof.
  intros (Hcount & Hdata & Hsm) Hc. unfold processChannel, arrays_fit, averaging.
  destruct (rcReadRawFunc env) as [read |].
  2:{ state_simpl. rewrite length_zset.
      split; [exact (conj Hcount (conj Hdata Hsm)) |].
      do 3 (split; [reflexivity |]).
      intros chan Hpos Hne. split; [| reflexivity].
      unfold zset. apply list_lookup_insert_ne. lia. }
  destruct (isRxDataDriven env) eqn:Hmode.
  { state_simpl. rewrite length_zset.
    split; [exact (conj Hcount (conj Hdata Hsm)) |].
    do 3 (split; [reflexivity |]).
    intros chan Hpos Hne. split; [| reflexivity].
    unfold zset. apply list_lookup_insert_ne. lia. }
  destruct (Hsm eq_refl) as (Hrows & Hmean & Hall).
  destruct (lookup_lt_is_Some_2 (rcSamples (smoothing st)) (Z.to_nat c)
              ltac:(lia)) as [row Hrow].
  pose proof (calculateNonDataDrivenChannel_spec c (validate env
    (to_uint16 (read (to_uint8 (calculateChannelRemapping (rcmap (rxConfig env))
       REMAPPABLE_CHANNEL_COUNT c))))) (rcSampleIndex st) (smoothing st) row
    ltac:(lia) Hrow) as Hspec.
  cbv zeta in Hspec.
  destruct (calculateNonDataDrivenChannel c _ (rcSampleIndex st) (smoothing st))
    as [v sm].
  state_simpl. destruct Hspec as (_ & Hs & Hcol & Hlen).
  rewrite length_zset, Hs, Hlen, Hcol, length_insert.
  split; [| split; [reflexivity | split; [| split; [reflexivity |]]]].
  - split; [exact Hcount |]. split; [exact Hdata |]. intros _.
    split; [exact Hrows |]. split; [exact Hmean |].
    apply Forall_insert; [exact Hall |]. rewrite length_zset.
    exact (proj1 (Forall_lookup _ _) Hall _ _ Hrow).
  - destruct (rxSamplesCollected (smoothing st)),
      (PPM_AND_PWM_SAMPLE_COUNT <=? rcSampleIndex st); reflexivity.
  - intros chan Hpos Hne. split.
    + unfold zset. apply list_lookup_insert_ne. lia.
    + apply list_lookup_insert_ne. lia.
Qed.

(** One round of the channel loop: what it publishes for its channel. *)
Lemma processChannel_same env scp st tr c read row :
  rcReadRawFunc env = Some read ->
  arrays_fit env st ->
  0 <= c < channelCount env ->
  (isRxDataDriven env = false ->
   rcSamples (smoothing st) !! Z.to_nat c = Some row) ->
  let st' := fst (processChannel env scp (st, tr) c) in
  let row' := zset row (rcSampleIndex st mod PPM_AND_PWM_SAMPLE_COUNT)
                (to_int16 (checked_sample env read c)) in
  rcData st' !! Z.to_nat c
  = Some (to_int16
            (if isRxDataDriven env then checked_sample env read c
             else if averaging st
                  then to_uint16 (Z.quot (window_sum row') PPM_AND_PWM_SAMPLE_COUNT)
                  else checked_sample env read c))
  /\ (isRxDataDriven env = false ->
      rcSamples (smoothing st') !! Z.to_nat c = Some row')
  /\ (isRxDataDriven env = true -> smoothing st' = smoothing st).
Proof.
  intros Hread (Hcount & Hdata & Hsm) Hc Hrow.
  unfold processChannel, checked_sample, raw_sample, averaging.
  rewrite Hread.
  destruct (isRxDataDriven env) eqn:Hmode.
  { state_simpl. split; [| split; [discriminate | reflexivity]].
    unfold zset. apply list_lookup_insert_eq. lia. }
  destruct (Hsm eq_refl) as (Hrows & Hmean & Hall). specialize (Hrow eq_refl).
  pose proof (calculateNonDataDrivenChannel_spec c (validate env
    (to_uint16 (read (to_uint8 (calculateChannelRemapping (rcmap (rxConfig env))
       REMAPPABLE_CHANNEL_COUNT c))))) (rcSampleIndex st) (smoothing st) row
    ltac:(lia) Hrow) as Hspec.
  cbv zeta in Hspec.
  destruct (calculateNonDataDrivenChannel c _ (rcSampleIndex st) (smoothing st))
    as [v sm].
  state_simpl. destruct Hspec as (Hv & Hs & _ & _).
  split; [| split; [| discriminate]].
  - rewrite Hv. unfold zset. apply list_lookup_insert_eq. lia.
  - intros _. rewrite Hs. apply list_lookup_insert_eq.
    apply lookup_lt_Some in Hrow. exact Hrow.
Qed.

(** The loop over a list of channels that does not contain [chan]. *)
Lemma fold_processChannel_frame env scp l :
  forall st tr,
    arrays_fit env st ->
    (forall c, c ∈ l -> 0 <= c < channelCount env) ->
    let st' := fst (fold_left (processChannel env scp) l (st, tr)) in
    arrays_fit env st'
    /\ rcSampleIndex st' = rcSampleIndex st
    /\ averaging st' = averaging st
    /\ rcDataReceived st' = rcDataReceived st
    /\ (forall chan, 0 <= chan -> chan ∉ l ->
          rcData st' !! Z.to_nat chan = rcData st !! Z.to_nat chan
          /\ rcSamples (smoothing st') !! Z.to_nat chan
             = rcSamples (smoothing st) !! Z.to_nat chan).
Proof.
  induction l as [| c l IH]; intros st tr Hfit Hl.
  { cbn. split; [exact Hfit |]. do 3 (split; [reflexivity |]).
    intros chan _ _. split; reflexivity. }
  cbn [fold_left].
  assert (Hc : 0 <= c < channelCount env) by (apply Hl; left).
  pose proof (processChannel_frame env scp st tr c Hfit Hc) as Hstep.
  cbv zeta in Hstep.
  destruct (processChannel env scp (st, tr) c) as [st1 tr1].
  cbn [fst] in Hstep. destruct Hstep as (Hfit1 & Hidx1 & Havg1 & Hrcv1 & Hother1).
  specialize (IH st1 tr1 Hfit1 ltac:(intros c' Hc'; apply Hl; right; exact Hc')).
  cbv zeta in IH. destruct IH as (Hfit2 & Hidx2 & Havg2 & Hrcv2 & Hother2).
  split; [exact Hfit2 |]. split; [congruence |]. split; [congruence |].
  split; [congruence |].
  intros chan Hpos Hnotin. apply not_elem_of_cons in Hnotin as [Hne Hnotin].
  destruct (Hother2 chan Hpos Hnotin) as [E1 E2].
  destruct (Hother1 chan Hpos Hne) as [E3 E4].
  split; congruence.
Qed.

(** [processRxChannels] seen from one channel: the value published for
    [chan] and the new window of [chan] are those of its own round of the
    loop; the other rounds leave them alone. *)
Lemma processRxChannels_channel env st chan read row :
  rcReadRawFunc env = Some read ->
  arrays_fit env st ->
  0 <= chan < channelCount env ->
  (isRxDataDriven env = false ->
   rcSamples (smoothing st) !! Z.to_nat chan = Some row) ->
  let st' := fst (processRxChannels env st) in
  let row' := zset row (rcSampleIndex st mod PPM_AND_PWM_SAMPLE_COUNT)
                (to_int16 (checked_sample env read chan)) in
  arrays_fit env st'
  /\ rcSampleIndex st' = rcSampleIndex st
  /\ averaging st' = averaging st
  /\ rcDataReceived st' = rcDataReceived st
  /\ rcData st' !! Z.to_nat chan
     = Some (to_int16
               (if isRxDataDriven env then checked_sample env read chan
                else if averaging st
                     then to_uint16
                            (Z.quot (window_sum row') PPM_AND_PWM_SAMPLE_COUNT)
                     else checked_sample env read chan))
  /\ (isRxDataDriven env = false ->
      rcSamples (smoothing st') !! Z.to_nat chan = Some row').
Proof.
  intros Hread Hfit Hchan Hrow. unfold processRxChannels.
  destruct (if feature env (Z.lor FEATURE_FAILSAFE FEATURE_RX_PPM)
            then (isPPMDataBeingReceived env, [ResetPPMDataReceivedState])
            else (true, [])) as [scp tr0].
  destruct (upto_split (channelCount env) chan Hchan)
    as (before & after & Heq & Hnb & Hna & Hrange).
  rewrite Heq, fold_left_app. cbn [fold_left].
  pose proof (fold_processChannel_frame env scp before st tr0 Hfit
    ltac:(intros c Hc; apply Hrange, elem_of_app; left; exact Hc)) as H1.
  cbv zeta in H1.
  destruct (fold_left (processChannel env scp) before (st, tr0)) as [st1 tr1].
  cbn [fst] in H1. destruct H1 as (Hfit1 & Hidx1 & Havg1 & Hrcv1 & Hother1).
  destruct (Hother1 chan ltac:(lia) Hnb) as [_ Hrow1].
  pose proof (processChannel_frame env scp st1 tr1 chan Hfit1 Hchan) as H2.
  pose proof (processChannel_same env scp st1 tr1 chan read row Hread Hfit1 Hchan
    ltac:(intros Hm; rewrite Hrow1; exact (Hrow Hm))) as H2'.
  cbv zeta in H2, H2'.
  destruct (processChannel env scp (st1, tr1) chan) as [st2 tr2].
  cbn [fst] in H2, H2'.
  destruct H2 as (Hfit2 & Hidx2 & Havg2 & Hrcv2 & _).
  destruct H2' as (Hdata2 & Hrow2 & _).
  pose proof (fold_processChannel_frame env scp after st2 tr2 Hfit2
    ltac:(intros c Hc; apply Hrange, elem_of_app; right; exact Hc)) as H3.
  cbv zeta in H3.
  destruct (fold_left (processChannel env scp) after (st2, tr2)) as [st3 tr3].
  cbn [fst] in *. destruct H3 as (Hfit3 & Hidx3 & Havg3 & Hrcv3 & Hother3).
  destruct (Hother3 chan ltac:(lia) Hna) as [Hd3 Hr3].
  split; [exact Hfit3 |]. split; [congruence |]. split; [congruence |].
  split; [congruence |]. split.
  - rewrite Hd3, Hdata2, Hidx1, Havg1. reflexivity.
  - intros Hm. rewrite Hr3, (Hrow2 Hm), Hidx1. reflexivity.
Qed.

(** The setup of a tick is that of the environment it runs in. *)
Lemma with_driver_setup env k :
  isRxDataDriven (with_driver k env) = isRxDataDriven env
  /\ channelCount (with_driver k env) = channelCount env
  /\ rxConfig (with_driver k env) = rxConfig env
  /\ (forall st, arrays_fit (with_driver k env) st <-> arrays_fit env st).
Proof.
  do 3 (split; [reflexivity |]).
  intros st. split; intros Hfit; exact Hfit.
Qed.

Lemma validate_in_window env s :
  PULSE_MIN <= s <= PULSE_MAX -> validate env s = s.
Proof.
  intros Hs. unfold validate.
  destruct (Z.ltb_spec s PULSE_MIN); [lia |].
  destruct (Z.ltb_spec PULSE_MAX s); [lia | reflexivity].
Qed.

Lemma validate_out_of_window env s :
  s < PULSE_MIN \/ PULSE_MAX < s -> validate env s = midrc (rxConfig env).
Proof.
  intros Hs. unfold validate.
  destruct (Z.ltb_spec s PULSE_MIN); [reflexivity |].
  destruct (Z.ltb_spec PULSE_MAX s); [reflexivity | lia].
Qed.

(** One POLL-mode tick seen from one channel. *)
Lemma poll_tick env st k chan row :
  isRxDataDriven env = false ->
  arrays_fit env st ->
  0 <= chan < channelCount env ->
  rcSamples (smoothing st) !! Z.to_nat chan = Some row ->
  let st' := run_tick env k st in
  let idx' := to_uint8 (rcSampleIndex st + 1) in
  let avg := rxSamplesCollected (smoothing st) || (PPM_AND_PWM_SAMPLE_COUNT <=? idx') in
  let sample := checked_sample env (tk_read k) chan in
  let row' := zset row (idx' mod PPM_AND_PWM_SAMPLE_COUNT) (to_int16 sample) in
  arrays_fit env st'
  /\ rcSampleIndex st' = idx'
  /\ averaging st' = avg
  /\ rcSamples (smoothing st') !! Z.to_nat chan = Some row'
  /\ (avg = false -> rcData st' !! Z.to_nat chan = Some (to_int16 sample))
  /\ (avg = true ->
      rcData st' !! Z.to_nat chan
      = Some (to_int16
                (to_uint16 (Z.quot (window_sum row') PPM_AND_PWM_SAMPLE_COUNT)))).
Proof.
  intros Hmode Hfit Hchan Hrow.
  unfold run_tick, calculateRxChannelsAndUpdateFailsafe.
  destruct (with_driver_setup env k) as (Hm & Hcc & Hcfg & Hfit').
  rewrite Hm, Hmode. unfold processNonDataDrivenRx.
  set (st1 := set_rcSampleIndex _ (set_rxUpdateAt _ st)).
  pose proof (processRxChannels_channel (with_driver k env) st1 chan (tk_read k)
    row eq_refl) as Hloop.
  cbv zeta in Hloop. rewrite Hm, Hmode in Hloop.
  specialize (Hloop ltac:(apply Hfit'; exact Hfit) ltac:(rewrite Hcc; exact Hchan)
    ltac:(intros _; exact Hrow)).
  destruct (processRxChannels (with_driver k env) st1) as [st2 tr].
  cbn [fst] in *.
  destruct Hloop as (Hfit2 & Hidx2 & Havg2 & _ & Hdata2 & Hrow2).
  split; [apply Hfit'; exact Hfit2 |]. split; [exact Hidx2 |].
  split; [exact Havg2 |]. split; [exact (Hrow2 eq_refl) |].
  change (averaging st1)
    with (rxSamplesCollected (smoothing st)
          || (PPM_AND_PWM_SAMPLE_COUNT <=? to_uint8 (rcSampleIndex st + 1)))
    in Hdata2.
  split; intros Havg; rewrite Havg in Hdata2; exact Hdata2.
Qed.

(** The window sum of four samples that fit an [int16_t] together. *)
Lemma window_sum_small a b c d :
  0 <= a -> 0 <= b -> 0 <= c -> 0 <= d -> a + b + c + d < 32768 ->
  window_sum [a; b; c; d] = a + b + c + d.
Proof.
  intros Ha Hb Hc Hd Hsum.
  change (window_sum [a; b; c; d])
    with (to_int16 (to_int16 (to_int16 (to_int16 (0 + a) + b) + c) + d)).
  rewrite (to_int16_small (0 + a)) by lia. rewrite Z.add_0_l.
  rewrite (to_int16_small (a + b)) by lia.
  rewrite (to_int16_small (a + b + c)) by lia.
  apply to_int16_small. lia.
Qed.

(** A validated sample is stored and published as it is. *)
Lemma checked_in_window env read chan :
  PULSE_MIN <= raw_sample env read chan <= PULSE_MAX ->
  checked_sample env read chan = raw_sample env read chan
  /\ to_int16 (raw_sample env read chan) = raw_sample env read chan.
Proof.
  intros Hs. unfold checked_sample. rewrite validate_in_window by exact Hs.
  split; [reflexivity |]. apply to_int16_small.
  unfold PULSE_MIN, PULSE_MAX in Hs. lia.
Qed.

(** C2. POLL mode, one channel, from the start-up values of
    [rcSampleIndex] and [rxSamplesCollected]: five successive ticks deliver
    the validated raw samples [s0 .. s4]. The first three ticks publish the
    raw sample; the fourth publishes [(s0 + s1 + s2 + s3) / 4] and the fifth
    [(s4 + s1 + s2 + s3) / 4], the quotient rounded toward zero. *)
Theorem poll_smoothing_window env st0 chan k0 k1 k2 k3 k4 :
  isRxDataDriven env = false ->
  arrays_fit env st0 ->
  0 <= chan < channelCount env ->
  rcSampleIndex st0 = 0 ->
  rxSamplesCollected (smoothing st0) = false ->
  (forall k, k ∈ [k0; k1; k2; k3; k4] ->
     PULSE_MIN <= raw_sample env (tk_read k) chan <= PULSE_MAX) ->
  let s k := raw_sample env (tk_read k) chan in
  let st1 := run_tick env k0 st0 in
  let st2 := run_tick env k1 st1 in
  let st3 := run_tick env k2 st2 in
  let st4 := run_tick env k3 st3 in
  let st5 := run_tick env k4 st4 in
  rcData st1 !! Z.to_nat chan = Some (s k0)
  /\ rcData st2 !! Z.to_nat chan = Some (s k1)
  /\ rcData st3 !! Z.to_nat chan = Some (s k2)
  /\ rcData st4 !! Z.to_nat chan = Some (Z.quot (s k0 + s k1 + s k2 + s k3) 4)
  /\ rcData st5 !! Z.to_nat chan = Some (Z.quot (s k4 + s k1 + s k2 + s k3) 4).
Proof.
  intros Hmode Hfit0 Hchan Hidx0 Hcol0 Hwin s st1 st2 st3 st4 st5.
  assert (Hs : forall k, k ∈ [k0; k1; k2; k3; k4] ->
            750 <= s k <= 2250
            /\ checked_sample env (tk_read k) chan = s k
            /\ to_int16 (s k) = s k).
  { intros k Hk. specialize (Hwin k Hk).
    destruct (checked_in_window env (tk_read k) chan Hwin) as [E1 E2].
    unfold PULSE_MIN, PULSE_MAX in Hwin. unfold s.
    repeat split; assumption || lia. }
  destruct (Hs k0 ltac:(repeat constructor)) as (R0 & C0 & I0).
  destruct (Hs k1 ltac:(repeat constructor)) as (R1 & C1 & I1).
  destruct (Hs k2 ltac:(repeat constructor)) as (R2 & C2 & I2).
  destruct (Hs k3 ltac:(repeat constructor)) as (R3 & C3 & I3).
  destruct (Hs k4 ltac:(repeat constructor)) as (R4 & C4 & I4).
  clear Hs Hwin. clearbody s.
  (* the window of the channel at start-up *)
  destruct Hfit0 as (Hcount & Hdata & Hsm).
  destruct (Hsm Hmode) as (Hrows & Hmean & Hall).
  destruct (lookup_lt_is_Some_2 (rcSamples (smoothing st0)) (Z.to_nat chan)
              ltac:(lia)) as [row Hrow0].
  pose proof (proj1 (Forall_lookup _ _) Hall _ _ Hrow0) as Hlen.
  destruct row as [| w0 [| w1 [| w2 [| w3 [| ? ?]]]]]; try discriminate Hlen.
  clear Hlen.
  pose proof (conj Hcount (conj Hdata Hsm)) as Hfit0.
  (* first tick: slot 1, the raw sample is published *)
  destruct (poll_tick env st0 k0 chan _ Hmode Hfit0 Hchan Hrow0)
    as (Hfit1 & Hidx1 & Havg1 & Hrow1 & Hd1 & _).
  fold st1 in Hfit1, Hidx1, Havg1, Hrow1, Hd1.
  rewrite Hidx0, Hcol0 in Havg1, Hd1. rewrite Hidx0 in Hidx1, Hrow1.
  rewrite C0, I0 in Hrow1. rewrite C0, I0 in Hd1.
  specialize (Hd1 eq_refl).
  assert (E : zset [w0; w1; w2; w3] (to_uint8 (0 + 1) mod PPM_AND_PWM_SAMPLE_COUNT) (s k0)
              = [w0; s k0; w2; w3]) by reflexivity.
  rewrite E in Hrow1. clear E.
  change (to_uint8 (0 + 1)) with 1 in Hidx1.
  unfold averaging in Havg1. apply orb_false_elim in Havg1 as [Hcol1 _].
  (* second tick: slot 2, the raw sample is published *)
  destruct (poll_tick env st1 k1 chan _ Hmode Hfit1 Hchan Hrow1)
    as (Hfit2 & Hidx2 & Havg2 & Hrow2 & Hd2 & _).
  fold st2 in Hfit2, Hidx2, Havg2, Hrow2, Hd2.
  rewrite Hidx1, Hcol1 in Havg2, Hd2. rewrite Hidx1 in Hidx2, Hrow2.
  rewrite C1, I1 in Hrow2. rewrite C1, I1 in Hd2.
  specialize (Hd2 eq_refl).
  assert (E : zset [w0; s k0; w2; w3] (to_uint8 (1 + 1) mod PPM_AND_PWM_SAMPLE_COUNT) (s k1)
              = [w0; s k0; s k1; w3]) by reflexivity.
  rewrite E in Hrow2. clear E.
  change (to_uint8 (1 + 1)) with 2 in Hidx2.
  unfold averaging in Havg2. apply orb_false_elim in Havg2 as [Hcol2 _].
  (* third tick: slot 3, the raw sample is published *)
  destruct (poll_tick env st2 k2 chan _ Hmode Hfit2 Hchan Hrow2)
    as (Hfit3 & Hidx3 & Havg3 & Hrow3 & Hd3 & _).
  fold st3 in Hfit3, Hidx3, Havg3, Hrow3, Hd3.
  rewrite Hidx2, Hcol2 in Havg3, Hd3. rewrite Hidx2 in Hidx3, Hrow3.
  rewrite C2, I2 in Hrow3. rewrite C2, I2 in Hd3.
  specialize (Hd3 eq_refl).
  assert (E : zset [w0; s k0; s k1; w3] (to_uint8 (2 + 1) mod PPM_AND_PWM_SAMPLE_COUNT) (s k2)
              = [w0; s k0; s k1; s k2]) by reflexivity.
  rewrite E in Hrow3. clear E.
  change (to_uint8 (2 + 1)) with 3 in Hidx3.
  unfold averaging in Havg3. apply orb_false_elim in Havg3 as [Hcol3 _].
  (* fourth tick: slot 0, the window is full and its mean is published *)
  destruct (poll_tick env st3 k3 chan _ Hmode Hfit3 Hchan Hrow3)
    as (Hfit4 & Hidx4 & _ & Hrow4 & _ & Hd4).
  fold st4 in Hfit4, Hidx4, Hrow4, Hd4.
  rewrite Hidx3, Hcol3 in Hd4. rewrite Hidx3 in Hidx4, Hrow4.
  rewrite C3, I3 in Hrow4. rewrite C3, I3 in Hd4.
  specialize (Hd4 eq_refl).
  assert (E : zset [w0; s k0; s k1; s k2]
                (to_uint8 (3 + 1) mod PPM_AND_PWM_SAMPLE_COUNT) (s k3)
              = [s k3; s k0; s k1; s k2]) by reflexivity.
  rewrite E in Hrow4, Hd4. clear E.
  change (to_uint8 (3 + 1)) with 4 in Hidx4.
  (* fifth tick: slot 1, where s0 was *)
  destruct (poll_tick env st4 k4 chan _ Hmode Hfit4 Hchan Hrow4)
    as (_ & _ & _ & _ & _ & Hd5).
  fold st5 in Hd5.
  rewrite Hidx4 in Hd5. rewrite C4, I4 in Hd5.
  specialize (Hd5 ltac:(apply orb_true_r)).
  assert (E : zset [s k3; s k0; s k1; s k2]
                (to_uint8 (4 + 1) mod PPM_AND_PWM_SAMPLE_COUNT) (s k4)
              = [s k3; s k4; s k1; s k2]) by reflexivity.
  rewrite E in Hd5. clear E.
  clearbody st1 st2 st3 st4 st5.
  clear - R0 R1 R2 R3 R4 Hd1 Hd2 Hd3 Hd4 Hd5.
  rewrite (window_sum_small (s k3) (s k0) (s k1) (s k2)) in Hd4 by lia.
  rewrite (window_sum_small (s k3) (s k4) (s k1) (s k2)) in Hd5 by lia.
  unfold PPM_AND_PWM_SAMPLE_COUNT in Hd4, Hd5.
  assert (Hq : forall x, 3000 <= x <= 9000 ->
            to_int16 (to_uint16 (Z.quot x 4)) = Z.quot x 4).
  { intros x Hx. rewrite Z.quot_div_nonneg by lia.
    assert (0 <= x / 4 < 32768)
      by (split; [apply Z.div_pos | apply Z.div_lt_upper_bound]; lia).
    rewrite to_uint16_small by lia. apply to_int16_small. lia. }
  rewrite Hq in Hd4 by lia. rewrite Hq in Hd5 by lia.
  split; [exact Hd1 |]. split; [exact Hd2 |]. split; [exact Hd3 |].
  split.
  - rewrite Hd4. do 2 f_equal. lia.
  - rewrite Hd5. do 2 f_equal. lia.
Qed.

(** C3. POLL mode: a raw sample below 750 or above 2250 is replaced by
    [midrc] before it reaches the window. After the tick, the slot of the
    channel's window chosen by [rcSampleIndex] holds [midrc] (as an
    [int16_t]), the other three slots are as before, and the published
    value is [midrc] itself or the mean of that window. *)
Theorem out_of_window_sample_replaced env st k chan row :
  isRxDataDriven env = false ->
  arrays_fit env st ->
  0 <= chan < channelCount env ->
  rcSamples (smoothing st) !! Z.to_nat chan = Some row ->
  raw_sample env (tk_read k) chan < PULSE_MIN
  \/ PULSE_MAX < raw_sample env (tk_read k) chan ->
  let st' := run_tick env k st in
  let slot := rcSampleIndex st' mod PPM_AND_PWM_SAMPLE_COUNT in
  let row' := zset row slot (to_int16 (midrc (rxConfig env))) in
  checked_sample env (tk_read k) chan = midrc (rxConfig env)
  /\ rcSamples (smoothing st') !! Z.to_nat chan = Some row'
  /\ zget row' slot = to_int16 (midrc (rxConfig env))
  /\ (0 <= midrc (rxConfig env) < 32768 -> zget row' slot = midrc (rxConfig env))
  /\ (forall j, 0 <= j -> j <> slot -> zget row' j = zget row j)
  /\ (averaging st' = false ->
      rcData st' !! Z.to_nat chan = Some (to_int16 (midrc (rxConfig env))))
  /\ (averaging st' = true ->
      rcData st' !! Z.to_nat chan
      = Some (to_int16
                (to_uint16 (Z.quot (window_sum row') PPM_AND_PWM_SAMPLE_COUNT)))).
Proof.
  intros Hmode Hfit Hchan Hrow Hout st' slot row'.
  assert (Hlen : length row = 4%nat).
  { destruct Hfit as (_ & _ & Hsm). destruct (Hsm Hmode) as (_ & _ & Hall).
    exact (proj1 (Forall_lookup _ _) Hall _ _ Hrow). }
  assert (Hchk : checked_sample env (tk_read k) chan = midrc (rxConfig env)).
  { unfold checked_sample. apply validate_out_of_window. exact Hout. }
  destruct (poll_tick env st k chan row Hmode Hfit Hchan Hrow)
    as (_ & Hidx & Havg & Hrow' & Hraw & Hmean).
  fold st' in Hidx, Havg, Hrow', Hraw, Hmean.
  rewrite <- Havg in Hraw, Hmean. rewrite <- Hidx in Hrow', Hmean.
  rewrite Hchk in Hrow', Hraw, Hmean.
  assert (Hslot : 0 <= slot < Z.of_nat (length row)).
  { rewrite Hlen. unfold slot, PPM_AND_PWM_SAMPLE_COUNT.
    pose proof (Z.mod_pos_bound (rcSampleIndex st') 4). lia. }
  split; [exact Hchk |]. split; [exact Hrow' |].
  split; [apply zget_zset_eq; exact Hslot |].
  split; [intros Hmid; unfold row'; rewrite zget_zset_eq by exact Hslot;
          apply to_int16_small; lia |].
  split; [intros j Hj Hne; apply zget_zset_ne; lia |].
  split; [exact Hraw | exact Hmean].
Qed.

(** *** PUSH mode *)

(** Data-driven rounds of the channel loop never touch the windows. *)
Lemma fold_processChannel_data_driven env scp l :
  isRxDataDriven env = true ->
  forall st tr,
    smoothing (fst (fold_left (processChannel env scp) l (st, tr)))
    = smoothing st.
Proof.
  intros Hmode. induction l as [| c l IH]; intros st tr; [reflexivity |].
  cbn [fold_left].
  assert (Hstep : smoothing (fst (processChannel env scp (st, tr) c))
                  = smoothing st).
  { unfold processChannel. destruct (rcReadRawFunc env); [| reflexivity].
    rewrite Hmode. reflexivity. }
  destruct (processChannel env scp (st, tr) c) as [st1 tr1].
  rewrite IH. exact Hstep.
Qed.

Lemma processRxChannels_data_driven env st :
  isRxDataDriven env = true ->
  smoothing (fst (processRxChannels env st)) = smoothing st.
Proof.
  intros Hmode. unfold processRxChannels.
  destruct (if feature env (Z.lor FEATURE_FAILSAFE FEATURE_RX_PPM)
            then (isPPMDataBeingReceived env, [ResetPPMDataReceivedState])
            else (true, [])) as [scp tr0].
  apply fold_processChannel_data_driven. exact Hmode.
Qed.

(** [updateRx] only writes [rcDataReceived]. *)
Lemma updateRx_frame env st :
  rcData (fst (updateRx env st)) = rcData st
  /\ smoothing (fst (updateRx env st)) = smoothing st
  /\ (arrays_fit env st -> arrays_fit env (fst (updateRx env st))).
Proof.
  split; [reflexivity |]. split; [reflexivity |]. intros Hfit. exact Hfit.
Qed.

(** A tick without pending data in PUSH mode: nothing is read and nothing
    is published. *)
Lemma push_mode_idle t env st :
  isRxDataDriven env = true ->
  rcDataReceived st = false ->
  rcData (fst (calculateRxChannelsAndUpdateFailsafe t env st)) = rcData st
  /\ (forall c, ReadRaw c ∉ snd (calculateRxChannelsAndUpdateFailsafe t env st)).
Proof.
  intros Hmode Hrecv. unfold calculateRxChannelsAndUpdateFailsafe.
  rewrite Hmode. unfold processDataDrivenRx. state_simpl. rewrite Hrecv.
  cbn [negb fst snd]. split; [reflexivity |].
  intros c Hin. rewrite app_nil_r in Hin.
  destruct (feature env FEATURE_FAILSAFE).
  - apply list_elem_of_singleton in Hin. discriminate.
  - apply elem_of_nil in Hin. exact Hin.
Qed.

(** C4, as the code has it. PUSH mode, on the tick where the frame is
    complete: every published [rcData[chan]] is the raw value of the driver
    at the remapped index when that value lies in [750, 2250], and [midrc]
    otherwise; the smoothing state is not touched; [rcDataReceived] is
    cleared, and a following tick without a new frame reads no channel and
    leaves [rcData] as it is. *)
Theorem push_mode_frame env st t chan read :
  isRxDataDriven env = true ->
  rcReadRawFunc env = Some read ->
  arrays_fit env st ->
  0 <= chan < channelCount env ->
  rcDataReceived (fst (updateRx env st)) = true ->
  let st1 := fst (updateRx env st) in
  let st2 := fst (calculateRxChannelsAndUpdateFailsafe t env st1) in
  let raw := raw_sample env read chan in
  rcData st2 !! Z.to_nat chan
  = Some (if (PULSE_MIN <=? raw) && (raw <=? PULSE_MAX)
          then raw else to_int16 (midrc (rxConfig env)))
  /\ smoothing st2 = smoothing st
  /\ rcDataReceived st2 = false
  /\ (forall t' env',
        isRxDataDriven env' = true ->
        rcDataReceived (fst (updateRx env' st2)) = false ->
        let r := calculateRxChannelsAndUpdateFailsafe t' env'
                   (fst (updateRx env' st2)) in
        rcData (fst r) = rcData st2 /\ (forall c, ReadRaw c ∉ snd r)).
Proof.
  intros Hmode Hread Hfit Hchan Hrecv st1 st2 raw.
  destruct (updateRx_frame env st) as (Hd1 & Hs1 & Hfit1).
  specialize (Hfit1 Hfit). fold st1 in Hd1, Hs1, Hfit1, Hrecv.
  assert (Hfit1' : arrays_fit env (set_rxUpdateAt (to_uint32 (t + DELAY_50_HZ)) st1))
    by exact Hfit1.
  pose proof (processRxChannels_channel env
    (set_rxUpdateAt (to_uint32 (t + DELAY_50_HZ)) st1) chan read [] Hread Hfit1'
    Hchan ltac:(intros Hm; rewrite Hmode in Hm; discriminate)) as Hloop.
  cbv zeta in Hloop. rewrite Hmode in Hloop.
  pose proof (processRxChannels_data_driven env
    (set_rxUpdateAt (to_uint32 (t + DELAY_50_HZ)) st1) Hmode) as Hsm.
  assert (Hst2 : st2 = set_rcDataReceived false
                   (fst (processRxChannels env
                      (set_rxUpdateAt (to_uint32 (t + DELAY_50_HZ)) st1)))).
  { unfold st2, calculateRxChannelsAndUpdateFailsafe. rewrite Hmode.
    unfold processDataDrivenRx. state_simpl. rewrite Hrecv. cbn [negb].
    destruct (processRxChannels env _) as [st' tr]. reflexivity. }
  destruct (processRxChannels env _) as [st' tr]. cbn [fst] in *.
  destruct Hloop as (_ & _ & _ & _ & Hdata & _).
  rewrite Hst2. state_simpl.
  split; [| split; [| split; [reflexivity |]]].
  - rewrite Hdata. f_equal. unfold checked_sample, validate. fold raw.
    pose proof (to_uint16_range
      (read (to_uint8 (calculateChannelRemapping (rcmap (rxConfig env))
                         REMAPPABLE_CHANNEL_COUNT chan)))) as Hr.
    change (to_uint16 _) with raw in Hr.
    unfold PULSE_MIN, PULSE_MAX.
    destruct (Z.ltb_spec raw 750), (Z.ltb_spec 2250 raw),
      (Z.leb_spec 750 raw), (Z.leb_spec raw 2250);
      cbn [orb andb]; try lia; try reflexivity.
    apply to_int16_small. lia.
  - rewrite Hsm. exact Hs1.
  - intros t' env' Hmode' Hidle.
    destruct (push_mode_idle t' env' _ Hmode' Hidle) as [Hkeep Hnone].
    split; [exact Hkeep | exact Hnone].
Qed.

End ChannelLoop.

(** *** RSSI from an auxiliary channel *)

Lemma constrain_range amt low high :
  low <= high -> low <= constrain amt low high <= high.
Proof.
  intros Hlh. unfold constrain.
  destruct (Z.ltb_spec amt low); [lia |].
  destruct (Z.ltb_spec high amt); lia.
Qed.

(** The single-precision rescaling agrees with exact arithmetic on the
    whole clamped range: checked value by value. *)
Lemma rescale_1023_table_1000 :
  forallb (fun c => rescale_1023 c 1000 =? c * 1023 / 1000) (upto 1001) = true.
Proof. vm_compute. reflexivity. Qed.

Lemma rescale_1023_exact_1000 c :
  0 <= c <= 1000 -> rescale_1023 c 1000 = c * 1023 / 1000.
Proof.
  intros Hc. pose proof rescale_1023_table_1000 as Ht.
  rewrite forallb_forall in Ht.
  apply Z.eqb_eq, Ht, list_elem_of_In, elem_of_upto. lia.
Qed.

Section RssiPwm.
Context `{RxBuild}.

(** C7. With a dedicated RSSI channel configured, [updateRSSI] sets [rssi]
    from the published value [v] of that channel to the integer part of
    [constrain (v - 1000) 0 1000 / 1000 * 1023]; [v = 1500] gives 511,
    every [v <= 1000] gives 0 and every [v >= 2000] gives 1023. *)
Theorem updateRSSI_pwm_scale (currentTime : Z) (env : rx_env) (st : rx_state)
    (v : Z) :
  0 < rssi_channel (rxConfig env) ->
  zget (rcData st) (rssi_channel (rxConfig env) - 1) = v ->
  -32768 <= v < 32768 ->
  rssi (updateRSSI currentTime env st)
    = constrain (v - 1000) 0 1000 * 1023 / 1000
  /\ (v = 1500 -> rssi (updateRSSI currentTime env st) = 511)
  /\ (v <= 1000 -> rssi (updateRSSI currentTime env st) = 0)
  /\ (2000 <= v -> rssi (updateRSSI currentTime env st) = 1023).
Proof.
  intros Hch Hv Hrange.
  assert (Hmain : rssi (updateRSSI currentTime env st)
                  = constrain (v - 1000) 0 1000 * 1023 / 1000).
  { unfold updateRSSI.
    destruct (Z.ltb_spec 0 (rssi_channel (rxConfig env))); [| lia].
    unfold updateRSSIPWM. simpl. rewrite Hv, to_int16_small by lia.
    apply rescale_1023_exact_1000, constrain_range. lia. }
  split; [exact Hmain |]. rewrite Hmain. clear Hmain Hv. unfold constrain.
  repeat split; intros Hcase.
  - subst v. reflexivity.
  - destruct (Z.ltb_spec (v - 1000) 0); [reflexivity |].
    destruct (Z.ltb_spec 1000 (v - 1000)); [lia |].
    replace (v - 1000) with 0 by lia. reflexivity.
  - destruct (Z.ltb_spec (v - 1000) 0); [lia |].
    destruct (Z.ltb_spec 1000 (v - 1000)); [reflexivity |].
    replace (v - 1000) with 1000 by lia. reflexivity.
Qed.

End RssiPwm.

(** *** RSSI from the ADC *)

Lemma sum_Z_snoc l x : sum_Z (l ++ [x]) = sum_Z l + x.
Proof. unfold sum_Z. induction l as [| y l IH]; cbn [app fold_right]; lia. Qed.

Lemma sum_Z_bounds l :
  Forall (fun x => 0 <= x <= 255) l ->
  0 <= sum_Z l <= 255 * Z.of_nat (length l).
Proof.
  unfold sum_Z. induction 1 as [| x l Hx _ IH]; cbn [fold_right length]; lia.
Qed.

Lemma sum_Z_Permutation l l' : Permutation l l' -> sum_Z l = sum_Z l'.
Proof.
  unfold sum_Z.
  induction 1 as [| x l l' _ IH | x y l | l l' l'' _ IH1 _ IH2];
    cbn [fold_right]; lia.
Qed.

Lemma fold_left_ext_in {A B} (f g : A -> B -> A) (l : list B) :
  (forall a b, b ∈ l -> f a b = g a b) ->
  forall a, fold_left f l a = fold_left g l a.
Proof.
  induction l as [| b l IH]; intros Hfg a; [reflexivity |].
  cbn. rewrite (Hfg a b) by left. apply IH.
  intros a' b' Hb'. apply Hfg. right. exact Hb'.
Qed.

(** Summing a window of percentages in an [int16_t] does not wrap. *)
Lemma fold_index_sum l :
  (length l <= 128)%nat ->
  Forall (fun x => 0 <= x <= 255) l ->
  fold_left (fun mean i => to_int16 (mean + zget l i))
    (upto (Z.of_nat (length l))) 0
  = sum_Z l.
Proof.
  induction l as [| x l IH] using rev_ind; intros Hlen Hall; [reflexivity |].
  rewrite length_app in Hlen. cbn [length] in Hlen.
  apply Forall_app in Hall as [Hall Hx]. rewrite Forall_singleton in Hx.
  rewrite length_app. cbn [length].
  replace (Z.of_nat (length l + 1)) with (Z.of_nat (length l) + 1) by lia.
  rewrite upto_succ by lia. rewrite fold_left_app. cbn [fold_left].
  rewrite (fold_left_ext_in _ (fun mean i => to_int16 (mean + zget l i))).
  - rewrite IH by (lia || exact Hall). rewrite sum_Z_snoc.
    unfold zget at 1. rewrite Nat2Z.id, list_lookup_middle by reflexivity.
    cbn [default option_map from_option]. unfold id.
    pose proof (sum_Z_bounds l Hall). apply to_int16_small. lia.
  - intros a i Hi. apply elem_of_upto in Hi. unfold zget.
    rewrite lookup_app_l by lia. reflexivity.
Qed.

(** An accepted call of [updateRSSIADC]: one round-robin write, a new
    deadline, and the RSSI of the new window. *)
Lemma updateRSSIADC_accepted `{RxBuild} t env st :
  due32 t (rssiUpdateAt (adc st)) = true ->
  updateRSSIADC t env st
  = let a' := adc_push (adcRssiSamples (adc st), adcRssiSampleIndex (adc st))
                (rssiPercentage_of (to_uint16 (adcGetChannel_RSSI env))) in
    set_rssi (adc_rssi (fst a'))
      (set_adc {| adcRssiSamples := fst a';
                  adcRssiSampleIndex := snd a';
                  rssiUpdateAt := to_uint32 (t + DELAY_50_HZ) |} st).
Proof.
  intros Hdue. unfold updateRSSIADC, due32 in *.
  apply Z.leb_le in Hdue.
  destruct (Z.ltb_spec (elapsed32 t (rssiUpdateAt (adc st))) 0); [lia |].
  unfold adc_rssi, adc_window_sum, adc_push. cbn [fst snd]. reflexivity.
Qed.

(** A run of accepted calls: the window is that of the successive writes,
    and the RSSI is the one of the final window. *)
Lemma updateRSSIADC_seq_spec `{RxBuild} times :
  forall samples env st,
    length samples = length times ->
    all_accepted times (rssiUpdateAt (adc st)) = true ->
    let a := fold_left adc_push
               (map (fun s => rssiPercentage_of (to_uint16 s)) samples)
               (adcRssiSamples (adc st), adcRssiSampleIndex (adc st)) in
    let st' := updateRSSIADC_seq times samples env st in
    adcRssiSamples (adc st') = fst a
    /\ adcRssiSampleIndex (adc st') = snd a
    /\ (times <> [] -> rssi st' = adc_rssi (fst a)).
Proof.
  induction times as [| t times IH]; intros samples env st Hlen Hacc.
  { destruct samples; [| discriminate]. cbn. repeat split. congruence. }
  destruct samples as [| s samples]; [discriminate |].
  cbn [all_accepted] in Hacc. apply andb_prop in Hacc as [Hdue Hacc].
  cbn [updateRSSIADC_seq map fold_left].
  rewrite (updateRSSIADC_accepted t (with_adc s env) st Hdue).
  cbv zeta.
  set (a1 := adc_push (adcRssiSamples (adc st), adcRssiSampleIndex (adc st))
               (rssiPercentage_of (to_uint16 (adcGetChannel_RSSI (with_adc s env))))).
  set (st1 := set_rssi _ _).
  specialize (IH samples env st1 ltac:(cbn in Hlen; lia) Hacc).
  cbv zeta in IH. destruct IH as (Hw & Hi & Hr).
  change (adcRssiSamples (adc st1), adcRssiSampleIndex (adc st1))
    with (fst a1, snd a1) in Hw, Hi, Hr.
  rewrite <- surjective_pairing in Hw, Hi, Hr.
  split; [exact Hw |]. split; [exact Hi |]. intros _.
  destruct times as [| t' times]; [| apply Hr; discriminate].
  destruct samples; [| discriminate]. reflexivity.
Qed.

(** Evaluate the window under [adc_window_sum] and sum it up. *)
Ltac sum_window :=
  match goal with
  | |- adc_window_sum ?t = _ =>
      let w := eval vm_compute in t in
      let E := fresh "E" in
      assert (E : t = w) by (vm_compute; reflexivity);
      rewrite E; clear E;
      unfold adc_window_sum;
      change RSSI_ADC_SAMPLE_COUNT with (Z.of_nat (length w));
      rewrite fold_index_sum;
      [ unfold sum_Z; cbn [fold_right]; lia
      | cbn [length]; lia
      | repeat (apply Forall_cons_2; [assumption |]); apply Forall_nil_2 ]
  end.

(** Sixteen round-robin writes fill the window: whatever it held and
    wherever the index stood, it now holds the sixteen percentages, so its
    sum is theirs. *)
Lemma adc_push_sixteen (window : list Z) (index : Z) (ps : list Z) :
  length window = 16%nat ->
  length ps = 16%nat ->
  Forall (fun p => 0 <= p <= 255) ps ->
  adc_window_sum (fst (fold_left adc_push ps (window, index))) = sum_Z ps.
Proof.
  intros Hw Hps Hall.
  destruct ps as [| p1 ps]; [discriminate Hps |].
  change (fold_left adc_push (p1 :: ps) (window, index))
    with (fold_left adc_push ps (adc_push (window, index) p1)).
  unfold adc_push at 2. cbn [fst snd].
  pose proof (Z.mod_pos_bound (index + 1) RSSI_ADC_SAMPLE_COUNT eq_refl) as Hj.
  remember ((index + 1) mod RSSI_ADC_SAMPLE_COUNT) as j eqn:Ej. clear Ej index.
  unfold RSSI_ADC_SAMPLE_COUNT in Hj. rewrite to_uint8_small by lia.
  do 17 (destruct window as [| ? window]; try discriminate Hw).
  do 16 (destruct ps as [| ? ps]; try discriminate Hps).
  clear Hw Hps.
  repeat match goal with
         | H : Forall _ (_ :: _) |- _ => apply Forall_cons in H as [? H]
         end.
  clear Hall.
  assert (Hcases : j ∈ upto 16) by (apply elem_of_upto; exact Hj).
  clear Hj.
  change (upto 16)
    with [0; 1; 2; 3; 4; 5; 6; 7; 8; 9; 10; 11; 12; 13; 14; 15] in Hcases.
  repeat (apply elem_of_cons in Hcases; destruct Hcases as [-> | Hcases];
          [sum_window |]).
  apply elem_of_nil in Hcases. destruct Hcases.
Qed.

Section RssiAdc.
Context `{RxBuild}.

Lemma rssiPercentage_range s : 0 <= rssiPercentage_of s <= 255.
Proof.
  unfold rssiPercentage_of.
  pose proof (to_uint8_range
    (Float32.trunc (Float32.div (Float32.of_Z s) RSSI_SCALE))). lia.
Qed.

(** Sixteen accepted updates: the RSSI is a function of the sum of the
    sixteen percentages. *)
Lemma updateRSSIADC_sixteen times samples env st :
  length (adcRssiSamples (adc st)) = 16%nat ->
  length times = 16%nat ->
  length samples = 16%nat ->
  all_accepted times (rssiUpdateAt (adc st)) = true ->
  rssi (updateRSSIADC_seq times samples env st)
  = rescale_1023
      (constrain
         (to_int16
            (Z.quot (sum_Z (map (fun s => rssiPercentage_of (to_uint16 s)) samples))
               RSSI_ADC_SAMPLE_COUNT)) 0 100) 100.
Proof.
  intros Hw Ht Hs Hacc.
  destruct (updateRSSIADC_seq_spec times samples env st ltac:(congruence) Hacc)
    as (_ & _ & Hr).
  rewrite Hr by (intros ->; discriminate Ht).
  unfold adc_rssi. rewrite adc_push_sixteen; [reflexivity | exact Hw | |].
  - rewrite length_map. exact Hs.
  - apply Forall_map, Forall_forall. intros s _. apply rssiPercentage_range.
Qed.

(** C8. Sixteen accepted ADC updates, whatever the window held before:
    if every sample converts to the percentage 50, the published RSSI is
    511; and the published RSSI is the same for every order of arrival of
    the sixteen samples. *)
Theorem adc_rssi_window_full times samples env st :
  length (adcRssiSamples (adc st)) = 16%nat ->
  length times = 16%nat ->
  length samples = 16%nat ->
  all_accepted times (rssiUpdateAt (adc st)) = true ->
  (Forall (fun s => rssiPercentage_of (to_uint16 s) = 50) samples ->
   rssi (updateRSSIADC_seq times samples env st) = 511)
  /\ (forall samples',
        Permutation samples samples' ->
        rssi (updateRSSIADC_seq times samples' env st)
        = rssi (updateRSSIADC_seq times samples env st)).
Proof.
  intros Hw Ht Hs Hacc. split.
  - intros H50.
    rewrite (updateRSSIADC_sixteen times samples env st Hw Ht Hs Hacc).
    assert (Hsum : sum_Z (map (fun s => rssiPercentage_of (to_uint16 s)) samples)
                   = 800).
    { clear - Hs H50.
      do 17 (destruct samples as [| ? samples]; try discriminate Hs).
      repeat match goal with
             | H : Forall _ (_ :: _) |- _ => apply Forall_cons in H as [? H]
             end.
      unfold sum_Z. cbn [map fold_right]. lia. }
    rewrite Hsum. vm_compute. reflexivity.
  - intros samples' Hperm.
    rewrite (updateRSSIADC_sixteen times samples env st Hw Ht Hs Hacc).
    rewrite (updateRSSIADC_sixteen times samples' env st Hw Ht
               ltac:(rewrite <- Hs; symmetry; apply Permutation_length; exact Hperm)
               Hacc).
    rewrite (sum_Z_Permutation _ _
               (Permutation_map (fun s => rssiPercentage_of (to_uint16 s)) Hperm)).
    reflexivity.
Qed.

End RssiAdc.

(** *** Parsing the channel map *)

(** Where [strchr] finds a character other than NUL in "AERT1234". *)
Lemma strchr_rcChannelLetters (c : ascii) :
  c <> zero ->
  match strchr rcChannelLetters c with
  | Some s => 0 <= s < 8 /\ String.get (Z.to_nat s) rcChannelLetters = Some c
  | None => forall i, String.get i rcChannelLetters <> Some c
  end.
Proof.
  intros Hnz. unfold rcChannelLetters. cbn [strchr].
  repeat match goal with
         | |- context [Ascii.eqb ?a c] =>
             destruct (Ascii.eqb_spec a c) as [<- | ?];
             [cbn; split; [lia | reflexivity] |]
         end.
  destruct (Ascii.eqb_spec c zero) as [-> | _]; [congruence |].
  cbn. intros i. do 8 (destruct i as [| i]; [cbn; congruence |]).
  cbn. discriminate.
Qed.

(** The letters of "AERT1234" are pairwise distinct. *)
Lemma rcChannelLetters_inj (i j : nat) (c : ascii) :
  String.get i rcChannelLetters = Some c ->
  String.get j rcChannelLetters = Some c ->
  i = j.
Proof.
  unfold rcChannelLetters. intros Hi Hj.
  do 8 (destruct i as [| i]; [
    do 8 (destruct j as [| j]; [cbn in *; congruence |]);
    cbn in Hj; discriminate |]).
  cbn in Hi. discriminate.
Qed.

Lemma rcChannelLetters_get_lt (i : nat) (c : ascii) :
  String.get i rcChannelLetters = Some c -> (i < 8)%nat /\ c <> zero.
Proof.
  unfold rcChannelLetters. intros Hi.
  do 8 (destruct i as [| i]; [
    cbn in Hi; injection Hi as <-; split; [lia | discriminate] |]).
  cbn in Hi. discriminate.
Qed.

(** The loop of [parseRcChannels], from any offset and any table. *)
Lemma parseRcChannels_from_spec (input : string) :
  forall (offset : Z) (map : list Z),
    (8 <= length map)%nat ->
    length (parseRcChannels_from input offset map) = length map
    /\ (forall i, (8 <= i)%nat ->
          parseRcChannels_from input offset map !! i = map !! i)
    /\ (forall i c, String.get i rcChannelLetters = Some c ->
          parseRcChannels_from input offset map !! i =
          match last_offset_from input offset c with
          | Some o => Some (to_uint8 o)
          | None => map !! i
          end).
Proof.
  induction input as [| a rest IH]; intros offset map Hlen.
  - cbn. repeat split; reflexivity || (intros; reflexivity).
  - cbn [parseRcChannels_from last_offset_from].
    destruct (Ascii.eqb_spec a zero) as [-> | Hnz].
    { repeat split; reflexivity || (intros; reflexivity). }
    pose proof (strchr_rcChannelLetters a Hnz) as Hs.
    destruct (strchr rcChannelLetters a) as [s |].
    + destruct Hs as [Hs Hget].
      specialize (IH (offset + 1) (zset map s (to_uint8 offset))).
      rewrite length_zset in IH. destruct (IH Hlen) as (IHlen & IHout & IHin).
      split; [exact IHlen |]. split.
      * intros i Hi. rewrite IHout by exact Hi.
        unfold zset. apply list_lookup_insert_ne. lia.
      * intros i c Hc. rewrite (IHin i c Hc).
        destruct (last_offset_from rest (offset + 1) c); [reflexivity |].
        destruct (Ascii.eqb_spec a c) as [<- | Hne].
        -- pose proof (rcChannelLetters_inj _ _ _ Hget Hc) as <-.
           unfold zset. apply list_lookup_insert_eq. lia.
        -- unfold zset. apply list_lookup_insert_ne.
           intros <-. congruence.
    + destruct (IH (offset + 1) map Hlen) as (IHlen & IHout & IHin).
      split; [exact IHlen |]. split; [exact IHout |].
      intros i c Hc. rewrite (IHin i c Hc).
      destruct (last_offset_from rest (offset + 1) c); [reflexivity |].
      destruct (Ascii.eqb_spec a c) as [<- | Hne]; [| reflexivity].
      exfalso. exact (Hs i Hc).
Qed.

(** C10, as the code has it. For every input string and every table of at
    least 8 entries, [parseRcChannels] keeps the size of the table, leaves
    every entry from index 8 on as it was, and for each position [i] of
    "AERT1234": if the letter at [i] occurs in the input, entry [i] becomes
    the offset of its last occurrence reduced modulo 256 (the entries are
    [uint8_t]); if it does not occur, entry [i] is unchanged. The other
    fields of the configuration are untouched. *)
Theorem parseRcChannels_frame (input : string) (cfg : rxConfig_t) :
  (8 <= length (rcmap cfg))%nat ->
  length (rcmap (parseRcChannels input cfg)) = length (rcmap cfg)
  /\ (forall i, (8 <= i)%nat ->
        rcmap (parseRcChannels input cfg) !! i = rcmap cfg !! i)
  /\ (forall i c, String.get i rcChannelLetters = Some c ->
        rcmap (parseRcChannels input cfg) !! i =
        match last_offset_from input 0 c with
        | Some o => Some (o mod 256)
        | None => rcmap cfg !! i
        end)
  /\ midrc (parseRcChannels input cfg) = midrc cfg
  /\ rssi_channel (parseRcChannels input cfg) = rssi_channel cfg
  /\ serialrx_provider (parseRcChannels input cfg) = serialrx_provider cfg.
Proof.
  intros Hlen. cbn [parseRcChannels rcmap midrc rssi_channel serialrx_provider].
  destruct (parseRcChannels_from_spec input 0 (rcmap cfg) Hlen)
    as (Hl & Hout & Hin).
  repeat split; try assumption.
Qed.

(** *** Concrete runs *)

Section Runs.
Local Existing Instance firmware_build.

Lemma arrays_fit_rxInit env :
  0 <= channelCount env <= 12 ->
  arrays_fit env (rxInit_state resetConf_rxConfig).
Proof.
  intros Hc. unfold arrays_fit. cbn. rewrite !length_replicate.
  split; [lia |]. split; [lia |]. intros _.
  split; [lia |]. split; [lia |]. apply Forall_replicate. reflexivity.
Qed.

(** Channel 0 over five ticks: 1000, 1001, 1002, 1003 and then 1013. *)
Lemma poll_smoothing_window_witness :
  let st4 := run_tick ppm_env (tick_of 3 [1003])
               (run_tick ppm_env (tick_of 2 [1002])
                  (run_tick ppm_env (tick_of 1 [1001])
                     (run_tick ppm_env (tick_of 0 [1000])
                        (rxInit_state resetConf_rxConfig)))) in
  rcData st4 !! 0%nat = Some 1001
  /\ rcData (run_tick ppm_env (tick_of 4 [1013]) st4) !! 0%nat = Some 1004.
Proof.
  pose proof (poll_smoothing_window ppm_env (rxInit_state resetConf_rxConfig) 0
    (tick_of 0 [1000]) (tick_of 1 [1001]) (tick_of 2 [1002]) (tick_of 3 [1003])
    (tick_of 4 [1013])) as Hthm.
  cbv zeta in Hthm.
  destruct Hthm as (_ & _ & _ & H4 & H5).
  - reflexivity.
  - apply arrays_fit_rxInit. cbn. lia.
  - cbn. lia.
  - reflexivity.
  - reflexivity.
  - intros k Hk.
    repeat (apply elem_of_cons in Hk; destruct Hk as [-> | Hk];
            [vm_compute; split; intros Hd; discriminate Hd |]).
    apply elem_of_nil in Hk. destruct Hk.
  - split; [exact H4 | exact H5].
Defined.

(** A pulse of 300 on channel 0 at the first tick: 1500 is stored and
    published. *)
Lemma out_of_window_sample_replaced_witness :
  let st' := run_tick ppm_env (tick_of 0 [300])
               (rxInit_state resetConf_rxConfig) in
  rcSamples (smoothing st') !! 0%nat = Some [0; 1500; 0; 0]
  /\ rcData st' !! 0%nat = Some 1500.
Proof.
  pose proof (out_of_window_sample_replaced ppm_env
    (rxInit_state resetConf_rxConfig) (tick_of 0 [300]) 0 [0; 0; 0; 0]) as Hthm.
  cbv zeta in Hthm.
  destruct Hthm as (_ & Hrow & _ & _ & _ & Hraw & _).
  - reflexivity.
  - apply arrays_fit_rxInit. cbn. lia.
  - cbn. lia.
  - reflexivity.
  - left. vm_compute. reflexivity.
  - split; [exact Hrow | exact (Hraw eq_refl)].
Defined.

(** A complete serial frame: channel 1 reads 1200 and is published as it
    is, and the frame indication is cleared. *)
Lemma push_mode_frame_witness :
  let env := serial_env [300; 1200; 1300; 1400] in
  let st2 := fst (calculateRxChannelsAndUpdateFailsafe 0 env
                    (fst (updateRx env (rxInit_state resetConf_rxConfig)))) in
  rcData st2 !! 1%nat = Some 1200 /\ rcDataReceived st2 = false.
Proof.
  pose proof (push_mode_frame (serial_env [300; 1200; 1300; 1400])
    (rxInit_state resetConf_rxConfig) 0 1 (zget [300; 1200; 1300; 1400])) as Hthm.
  cbv zeta in Hthm.
  destruct Hthm as (Hdata & _ & Hrecv & _).
  - reflexivity.
  - reflexivity.
  - apply arrays_fit_rxInit. cbn. lia.
  - cbn. lia.
  - reflexivity.
  - split; [exact Hdata | exact Hrecv].
Defined.

(** C4 as stated fails: in the same frame channel 0 reads 300, and what is
    published is 1500. *)
Lemma push_mode_raw_counterexample :
  ~ (forall env st t chan read,
       isRxDataDriven env = true ->
       rcReadRawFunc env = Some read ->
       arrays_fit env st ->
       0 <= chan < channelCount env ->
       rcDataReceived (fst (updateRx env st)) = true ->
       rcData (fst (calculateRxChannelsAndUpdateFailsafe t env
                      (fst (updateRx env st)))) !! Z.to_nat chan
       = Some (raw_sample env read chan)).
Proof.
  intros Hclaim.
  specialize (Hclaim (serial_env [300; 1200; 1300; 1400])
    (rxInit_state resetConf_rxConfig) 0 0 (zget [300; 1200; 1300; 1400])
    eq_refl eq_refl).
  assert (Hpub : rcData (fst (calculateRxChannelsAndUpdateFailsafe 0
                   (serial_env [300; 1200; 1300; 1400])
                   (fst (updateRx (serial_env [300; 1200; 1300; 1400])
                           (rxInit_state resetConf_rxConfig))))) !! Z.to_nat 0
                 = Some 1500) by reflexivity.
  rewrite Hpub in Hclaim.
  assert (Hraw : raw_sample (serial_env [300; 1200; 1300; 1400])
                   (zget [300; 1200; 1300; 1400]) 0 = 300) by reflexivity.
  rewrite Hraw in Hclaim.
  discriminate Hclaim.
  - apply arrays_fit_rxInit. cbn. lia.
  - cbn. lia.
  - reflexivity.
Qed.

(** Channel 5 at mid-stick gives an RSSI of 511. *)
Lemma updateRSSI_pwm_scale_witness :
  rssi (updateRSSI 0 rssi_channel_env (rxInit_state resetConf_rxConfig)) = 511.
Proof.
  destruct (updateRSSI_pwm_scale 0 rssi_channel_env
              (rxInit_state resetConf_rxConfig) 1500) as (_ & Hmid & _).
  - cbn. lia.
  - reflexivity.
  - lia.
  - exact (Hmid eq_refl).
Defined.

(** Sixteen ADC readings of 2048, one every 20 ms from power-up: each
    converts to 50 percent and the RSSI ends at 511. *)
Lemma adc_rssi_window_full_witness :
  rssi (updateRSSIADC_seq (map (fun i => i * DELAY_50_HZ) (upto 16))
          (replicate 16 2048) ppm_env (rxInit_state resetConf_rxConfig))
  = 511.
Proof.
  destruct (adc_rssi_window_full (map (fun i => i * DELAY_50_HZ) (upto 16))
              (replicate 16 2048) ppm_env (rxInit_state resetConf_rxConfig))
    as [H50 _].
  - reflexivity.
  - reflexivity.
  - reflexivity.
  - vm_compute. reflexivity.
  - apply H50. apply Forall_replicate. vm_compute. reflexivity.
Defined.

End Runs.

(** The default map "AETR1234": T is the letter at position 3 and sits at
    offset 2 of the input. *)
Lemma parseRcChannels_frame_witness :
  rcmap (parseRcChannels "AETR1234" cleared_rxConfig) !! 3%nat = Some 2
  /\ length (rcmap (parseRcChannels "AETR1234" cleared_rxConfig)) = 8%nat.
Proof.
  destruct (parseRcChannels_frame "AETR1234" cleared_rxConfig) as (Hl & _ & Hin & _).
  - cbn. lia.
  - split; [exact (Hin 3%nat "T"%char eq_refl) | exact Hl].
Defined.

(** C10 as stated fails on long inputs: with "A" at offset 256 the entry
    for "A" receives 0, not 256. *)
Lemma parseRcChannels_offset_counterexample :
  ~ (forall input cfg i c o,
       (8 <= length (rcmap cfg))%nat ->
       String.get i rcChannelLetters = Some c ->
       last_offset_from input 0 c = Some o ->
       rcmap (parseRcChannels input cfg) !! i = Some o).
Proof.
  intros Hclaim.
  specialize (Hclaim (pad 256 "x"%char "A") cleared_rxConfig 0%nat "A"%char 256).
  assert (Hstored : rcmap (parseRcChannels (pad 256 "x"%char "A") cleared_rxConfig)
                      !! 0%nat = Some 0) by (vm_compute; reflexivity).
  rewrite Hstored in Hclaim.
  assert (H256 : Some 0 = Some 256 -> False) by discriminate.
  apply H256, Hclaim.
  - cbn. lia.
  - reflexivity.
  - vm_compute. reflexivity.
Qed.

End RxFacts.

(** ** The timer capture dispatcher *)

Module TimerFacts.
Import Timer CIntFacts.

(** *** The unchecked table searches *)

(** A search that starts in front of an occurrence of [x] ends at an
    occurrence of [x]. *)
Lemma lookup_loop_found (suffix : list Z) :
  forall (prefix : list Z) (fuel : nat) (x : Z),
    x ∈ suffix ->
    (length suffix <= fuel)%nat ->
    (length (prefix ++ suffix) <= 256)%nat ->
    exists k : nat,
      lookup_loop fuel (prefix ++ suffix) x (Z.of_nat (length prefix))
      = Ret (Z.of_nat k)
      /\ (length prefix <= k < length (prefix ++ suffix))%nat
      /\ (prefix ++ suffix) !! k = Some x.
Proof.
  induction suffix as [| a rest IH]; intros prefix fuel x Hin Hfuel Hlen.
  { apply elem_of_nil in Hin. destruct Hin. }
  destruct fuel as [| fuel]; [cbn in Hfuel; lia |].
  cbn [lookup_loop]. rewrite Nat2Z.id, list_lookup_middle by reflexivity.
  rewrite length_app in Hlen. cbn [length] in Hlen, Hfuel.
  destruct (Z.eqb_spec a x) as [-> | Hne].
  - exists (length prefix). split; [reflexivity |]. split.
    + rewrite length_app. cbn [length]. lia.
    + apply list_lookup_middle. reflexivity.
  - apply elem_of_cons in Hin as [Heq | Hin]; [congruence |].
    assert (Hrest : (0 < length rest)%nat).
    { destruct rest; [apply elem_of_nil in Hin; destruct Hin | cbn; lia]. }
    rewrite to_uint8_small by lia.
    replace (Z.of_nat (length prefix) + 1)
      with (Z.of_nat (length (prefix ++ [a])))
      by (rewrite length_app; cbn [length]; lia).
    rewrite (cons_middle a prefix rest), app_assoc.
    destruct (IH (prefix ++ [a]) fuel x Hin ltac:(lia)) as (k & Hk & Hrange & Hat).
    { rewrite !length_app. cbn [length]. lia. }
    exists k. split; [exact Hk |]. split; [| exact Hat].
    rewrite !length_app in *. cbn [length] in *. lia.
Qed.

(** A search for a value that the table does not hold runs off its end. *)
Lemma lookup_loop_missing (suffix : list Z) :
  forall (prefix : list Z) (fuel : nat) (x : Z),
    x ∉ suffix ->
    (length suffix < fuel)%nat ->
    (length (prefix ++ suffix) < 256)%nat ->
    lookup_loop fuel (prefix ++ suffix) x (Z.of_nat (length prefix))
    = OutOfBounds.
Proof.
  induction suffix as [| a rest IH]; intros prefix fuel x Hnotin Hfuel Hlen;
    (destruct fuel as [| fuel]; [cbn in Hfuel; lia |]); cbn [lookup_loop].
  - rewrite Nat2Z.id, app_nil_r, lookup_ge_None_2 by lia. reflexivity.
  - rewrite Nat2Z.id, list_lookup_middle by reflexivity.
    apply not_elem_of_cons in Hnotin as [Hne Hnotin].
    rewrite length_app in Hlen. cbn [length] in Hlen, Hfuel.
    destruct (Z.eqb_spec a x) as [-> | _]; [congruence |].
    rewrite to_uint8_small by lia.
    replace (Z.of_nat (length prefix) + 1)
      with (Z.of_nat (length (prefix ++ [a])))
      by (rewrite length_app; cbn [length]; lia).
    rewrite (cons_middle a prefix rest), app_assoc.
    apply IH; [exact Hnotin | lia |].
    rewrite !length_app. cbn [length]. lia.
Qed.

Section Dispatch.
Context `{TimerBuild}.
Hypothesis Hok : build_ok.

Lemma MAX_TIMERS_le : MAX_TIMERS <= 64.
Proof.
  destruct Hok as (_ & _ & Hmax). unfold CC_CHANNELS_PER_TIMER in Hmax. lia.
Qed.

Lemma lookupTimerIndex_found tim :
  tim ∈ timers ->
  exists timerIndex,
    lookupTimerIndex tim = Ret timerIndex
    /\ 0 <= timerIndex < MAX_TIMERS
    /\ timers !! Z.to_nat timerIndex = Some tim.
Proof.
  intros Hin. pose proof MAX_TIMERS_le as Hmax. unfold MAX_TIMERS in *.
  destruct (lookup_loop_found timers [] 256 tim Hin ltac:(lia)
              ltac:(cbn [app]; lia)) as (k & Hk & Hrange & Hat).
  cbn [app length] in *. exists (Z.of_nat k).
  split; [exact Hk |]. split; [lia |]. rewrite Nat2Z.id. exact Hat.
Qed.

Lemma lookupChannelIndex_found channel :
  channel ∈ channels ->
  exists channelIndex,
    lookupChannelIndex channel = Ret channelIndex
    /\ 0 <= channelIndex < CC_CHANNELS_PER_TIMER
    /\ channels !! Z.to_nat channelIndex = Some channel.
Proof.
  intros Hin.
  destruct (lookup_loop_found channels [] 256 channel Hin ltac:(cbn; lia)
              ltac:(cbn; lia)) as (k & Hk & Hrange & Hat).
  cbn [app length] in *. exists (Z.of_nat k).
  split; [exact Hk |]. split; [unfold CC_CHANNELS_PER_TIMER; cbn in Hrange; lia |].
  rewrite Nat2Z.id. exact Hat.
Qed.

(** A search only ever returns a place where it found its argument. *)
Lemma lookup_loop_sound fuel table x :
  forall index k,
    lookup_loop fuel table x index = Ret k ->
    table !! Z.to_nat k = Some x /\ (0 <= index -> 0 <= k).
Proof.
  induction fuel as [| fuel IH]; intros index k Hk; [discriminate |].
  cbn [lookup_loop] in Hk.
  destruct (table !! Z.to_nat index) as [v |] eqn:Hv; [| discriminate].
  destruct (Z.eqb_spec v x) as [-> | _].
  - injection Hk as <-. split; [exact Hv | intros Hpos; exact Hpos].
  - destruct (IH _ _ Hk) as [Hat Hpos]. split; [exact Hat |].
    intros _. apply Hpos. apply to_uint8_range.
Qed.

(** The configuration index of a pair that both searches find. *)
Lemma lookupTimerConfigIndex_inv tim channel index :
  lookupTimerConfigIndex tim channel = Ret index ->
  exists timerIndex channelIndex,
    index = timerIndex + MAX_TIMERS * channelIndex
    /\ 0 <= timerIndex < MAX_TIMERS
    /\ 0 <= channelIndex < CC_CHANNELS_PER_TIMER
    /\ timers !! Z.to_nat timerIndex = Some tim
    /\ channels !! Z.to_nat channelIndex = Some channel.
Proof.
  unfold lookupTimerConfigIndex, lookupTimerIndex, lookupChannelIndex.
  intros Hidx.
  destruct (lookup_loop 256 timers tim 0) as [ti | |] eqn:Hti; try discriminate.
  destruct (lookup_loop 256 channels channel 0) as [ci | |] eqn:Hci;
    try discriminate.
  cbn [bind] in Hidx. injection Hidx as <-.
  destruct (lookup_loop_sound _ _ _ _ _ Hti) as [Hat Hpos].
  destruct (lookup_loop_sound _ _ _ _ _ Hci) as [Hat' Hpos'].
  specialize (Hpos ltac:(lia)). specialize (Hpos' ltac:(lia)).
  pose proof (lookup_lt_Some _ _ _ Hat) as Hlt.
  pose proof (lookup_lt_Some _ _ _ Hat') as Hlt'. cbn [channels length] in Hlt'.
  pose proof MAX_TIMERS_le as Hmax. unfold MAX_TIMERS in *.
  exists ti, ci. unfold CC_CHANNELS_PER_TIMER.
  split; [apply to_uint8_small; nia |].
  repeat split; try assumption; lia.
Qed.

(** The bound check of [configureTimerChannelCallbacks] never fires: an
    index that the searches deliver lies inside [timerConfig]. *)
Lemma lookupTimerConfigIndex_in_range tim channel index :
  lookupTimerConfigIndex tim channel = Ret index ->
  0 <= index < MAX_TIMERS * CC_CHANNELS_PER_TIMER.
Proof.
  intros Hidx.
  destruct (lookupTimerConfigIndex_inv _ _ _ Hidx)
    as (ti & ci & -> & Hti & Hci & _ & _).
  unfold CC_CHANNELS_PER_TIMER in *. nia.
Qed.

(** The index function is injective on the pairs it is defined on. *)
Lemma lookupTimerConfigIndex_inj tim channel tim' channel' index :
  lookupTimerConfigIndex tim channel = Ret index ->
  lookupTimerConfigIndex tim' channel' = Ret index ->
  tim = tim' /\ channel = channel'.
Proof.
  intros H1 H2.
  destruct (lookupTimerConfigIndex_inv _ _ _ H1)
    as (ti & ci & E1 & Hti & Hci & Hat & Hat').
  destruct (lookupTimerConfigIndex_inv _ _ _ H2)
    as (ti' & ci' & E2 & Hti' & Hci' & Hbt & Hbt').
  assert (ci = ci') by nia. assert (ti = ti') by nia. subst ci' ti'.
  split; congruence.
Qed.

Lemma lookupTimerConfigIndex_found tim channel :
  tim ∈ timers ->
  channel ∈ channels ->
  exists index, lookupTimerConfigIndex tim channel = Ret index.
Proof.
  intros Htim Hch.
  destruct (lookupTimerIndex_found tim Htim) as (ti & Hti & _).
  destruct (lookupChannelIndex_found channel Hch) as (ci & Hci & _).
  unfold lookupTimerConfigIndex. rewrite Hti, Hci. cbn [bind]. eauto.
Qed.

(** A timer that is not in the table sends the search past its end. *)
Lemma lookupTimerIndex_missing tim :
  tim ∉ timers -> lookupTimerIndex tim = OutOfBounds.
Proof.
  intros Hnotin. pose proof MAX_TIMERS_le as Hmax. unfold MAX_TIMERS in *.
  apply (lookup_loop_missing timers [] 256 tim Hnotin); cbn [app]; lia.
Qed.

Lemma lookupChannelIndex_missing channel :
  channel ∉ channels -> lookupChannelIndex channel = OutOfBounds.
Proof.
  intros Hnotin.
  apply (lookup_loop_missing channels [] 256 channel Hnotin); cbn; lia.
Qed.

(** *** Registration *)

Lemma channel_fits channel : channel ∈ channels -> to_uint8 channel = channel.
Proof.
  intros Hin. destruct Hok as (_ & Hrange & _).
  apply to_uint8_small. exact (proj1 (Forall_forall _ _) Hrange _ Hin).
Qed.

(** A valid registration writes the entry of its pair. *)
Lemma configure_valid r table index :
  valid_registration r ->
  lookupTimerConfigIndex (reg_tim r) (reg_channel r) = Ret index ->
  Z.of_nat (length table) = MAX_TIMERS * CC_CHANNELS_PER_TIMER ->
  exists old,
    table !! Z.to_nat index = Some old
    /\ configureTimerChannelCallbacks (reg_tim r) (reg_channel r)
         (reg_reference r) (reg_edge r) (reg_overflow r) table
       = Ret (<[Z.to_nat index :=
                  {| tim := Timer.tim old;
                     channel := reg_channel r;
                     edgeCallback := reg_edge r;
                     overflowCallback := reg_overflow r;
                     reference := reg_reference r |}]> table).
Proof.
  intros (Htim & Hch & Href) Hidx Hlen.
  pose proof (lookupTimerConfigIndex_in_range _ _ _ Hidx) as Hrange.
  destruct (lookup_lt_is_Some_2 table (Z.to_nat index) ltac:(lia)) as [old Hold].
  exists old. split; [exact Hold |].
  unfold configureTimerChannelCallbacks.
  rewrite (channel_fits _ Hch), Hidx. cbn [bind].
  destruct (Z.leb_spec (MAX_TIMERS * CC_CHANNELS_PER_TIMER) index); [lia |].
  rewrite Hold, (to_uint8_small (reg_reference r)) by exact Href. reflexivity.
Qed.

Lemma register_all_cons r regs table table1 :
  configureTimerChannelCallbacks (reg_tim r) (reg_channel r) (reg_reference r)
    (reg_edge r) (reg_overflow r) table = Ret table1 ->
  register_all (r :: regs) table = register_all regs table1.
Proof.
  intros Hcfg. unfold register_all. cbn [fold_left bind]. rewrite Hcfg.
  reflexivity.
Qed.

(** After the registrations [regs], the entry of every pair carries the
    callbacks and reference of the registration last made for that pair,
    and is as before when there was none. *)
Lemma register_all_spec regs :
  forall table,
    Forall valid_registration regs ->
    Z.of_nat (length table) = MAX_TIMERS * CC_CHANNELS_PER_TIMER ->
    exists table',
      register_all regs table = Ret table'
      /\ length table' = length table
      /\ (forall tim channel index,
            lookupTimerConfigIndex tim channel = Ret index ->
            exists c,
              table' !! Z.to_nat index = Some c
              /\ match last_registration regs tim channel with
                 | Some r =>
                     edgeCallback c = reg_edge r
                     /\ overflowCallback c = reg_overflow r
                     /\ reference c = reg_reference r
                 | None => table !! Z.to_nat index = Some c
                 end).
Proof.
  induction regs as [| r regs IH]; intros table Hvalid Hlen.
  { exists table. split; [reflexivity |]. split; [reflexivity |].
    intros tim channel index Hidx.
    pose proof (lookupTimerConfigIndex_in_range _ _ _ Hidx) as Hrange.
    destruct (lookup_lt_is_Some_2 table (Z.to_nat index) ltac:(lia)) as [c Hc].
    exists c. split; exact Hc. }
  apply Forall_cons in Hvalid as [Hr Hvalid].
  destruct Hr as (Htim & Hch & Href).
  destruct (lookupTimerConfigIndex_found _ _ Htim Hch) as (ir & Hir).
  destruct (configure_valid r table ir (conj Htim (conj Hch Href)) Hir Hlen)
    as (old & Hold & Hcfg).
  rewrite (register_all_cons _ _ _ _ Hcfg).
  match type of Hcfg with _ = Ret ?t => remember t as table1 eqn:Etable1 end.
  assert (Hlen1 : length table1 = length table)
    by (rewrite Etable1; apply length_insert).
  destruct (IH table1 Hvalid ltac:(rewrite Hlen1; exact Hlen))
    as (table' & Hreg & Hlen' & Hspec).
  exists table'. split; [exact Hreg |].
  split; [rewrite Hlen', Hlen1; reflexivity |].
  intros tim channel index Hidx.
  destruct (Hspec tim channel index Hidx) as (c & Hc & Hlast).
  exists c. split; [exact Hc |]. cbn [last_registration].
  destruct (last_registration regs tim channel) as [r' |]; [exact Hlast |].
  rewrite Etable1 in Hlast.
  destruct (Z.eqb_spec (reg_tim r) tim) as [Et | Et];
    destruct (Z.eqb_spec (reg_channel r) channel) as [Ec | Ec]; cbn [andb].
  - subst tim channel. rewrite Hir in Hidx. injection Hidx as <-.
    rewrite list_lookup_insert_eq in Hlast
      by (apply lookup_lt_Some in Hold; exact Hold).
    injection Hlast as <-. repeat split.
  - rewrite list_lookup_insert_ne in Hlast; [exact Hlast |].
    intros Heq. apply Z2Nat.inj in Heq;
      [| apply (lookupTimerConfigIndex_in_range _ _ _ Hir)
       | apply (lookupTimerConfigIndex_in_range _ _ _ Hidx)].
    subst index. destruct (lookupTimerConfigIndex_inj _ _ _ _ _ Hir Hidx).
    congruence.
  - rewrite list_lookup_insert_ne in Hlast; [exact Hlast |].
    intros Heq. apply Z2Nat.inj in Heq;
      [| apply (lookupTimerConfigIndex_in_range _ _ _ Hir)
       | apply (lookupTimerConfigIndex_in_range _ _ _ Hidx)].
    subst index. destruct (lookupTimerConfigIndex_inj _ _ _ _ _ Hir Hidx).
    congruence.
  - rewrite list_lookup_insert_ne in Hlast; [exact Hlast |].
    intros Heq. apply Z2Nat.inj in Heq;
      [| apply (lookupTimerConfigIndex_in_range _ _ _ Hir)
       | apply (lookupTimerConfigIndex_in_range _ _ _ Hidx)].
    subst index. destruct (lookupTimerConfigIndex_inj _ _ _ _ _ Hir Hidx).
    congruence.
Qed.

(** An invalid registration never reaches the bound check: the search for
    its timer or for its channel leaves the table first. *)
Lemma configure_invalid tim channel reference edge overflow table :
  tim ∉ timers \/ (tim ∈ timers /\ to_uint8 channel ∉ channels) ->
  configureTimerChannelCallbacks tim channel reference edge overflow table
  = OutOfBounds.
Proof.
  unfold configureTimerChannelCallbacks, lookupTimerConfigIndex.
  intros [Htim | [Htim Hch]].
  - rewrite (lookupTimerIndex_missing _ Htim). reflexivity.
  - destruct (lookupTimerIndex_found _ Htim) as (ti & -> & _).
    cbn [bind]. rewrite (lookupChannelIndex_missing _ Hch). reflexivity.
Qed.

(** *** The interrupt handler *)

Lemma channels_distinct :
  TIM_Channel_1 <> TIM_Channel_2 /\ TIM_Channel_1 <> TIM_Channel_3
  /\ TIM_Channel_1 <> TIM_Channel_4 /\ TIM_Channel_2 <> TIM_Channel_3
  /\ TIM_Channel_2 <> TIM_Channel_4 /\ TIM_Channel_3 <> TIM_Channel_4.
Proof.
  destruct Hok as (Hnd & _). unfold channels in Hnd.
  apply NoDup_cons in Hnd as [H1 Hnd]. apply NoDup_cons in Hnd as [H2 Hnd].
  apply NoDup_cons in Hnd as [H3 _].
  rewrite !not_elem_of_cons in H1, H2, H3.
  destruct H1 as [A1 B1], H2 as [A2 B2], H3 as [A3 _].
  repeat split; try assumption; intros E;
    [apply B1 | apply B1 | apply B2]; rewrite E; repeat constructor.
Qed.

(** Acknowledging a source that is not pending changes nothing. *)
Lemma acknowledge_idle regs src :
  (if TIM_GetITStatus regs src then TIM_ClearITPendingBit regs src else regs)
  = TIM_ClearITPendingBit regs src.
Proof.
  destruct regs as [u c1 c2 c3 c4 arr r1 r2 r3 r4]; destruct src; cbn;
    match goal with |- context [if ?b then _ else _] => destruct b end;
    reflexivity.
Qed.

(** One round of the overflow loop. *)
Lemma overflow_step_spec tim capture table tr k channel src c :
  channel_sources !! k = Some (channel, src) ->
  findTimerConfig tim channel table = Ret c ->
  overflow_step tim capture table (Ret tr) (Z.of_nat k)
  = Ret (tr ++ (if overflowCallback c =? 0 then []
                else [Call (overflowCallback c) (reference c) capture])).
Proof.
  intros Hk Hfind. unfold overflow_step. cbn [bind]. rewrite Nat2Z.id.
  assert (Hch : channels !! k = Some channel).
  { do 4 (destruct k as [| k]; [injection Hk as <- _; reflexivity |]).
    discriminate Hk. }
  rewrite Hch. cbv zeta.
  rewrite (channel_fits channel (list_elem_of_lookup_2 _ _ _ Hch)), Hfind.
  cbn [bind].
  destruct (overflowCallback c =? 0); [rewrite app_nil_r |]; reflexivity.
Qed.

(** One round of the edge loop: the capture-compare source of the channel
    is acknowledged, and if it was pending the edge callback of the entry
    of that channel is called with the capture of that channel. *)
Lemma edge_step_spec tim table regs tr k channel src c :
  channel_sources !! k = Some (channel, src) ->
  findTimerConfig tim channel table = Ret c ->
  edge_step tim table (Ret (regs, tr)) (Z.of_nat k)
  = Ret (TIM_ClearITPendingBit regs src,
         tr ++ (if TIM_GetITStatus regs src then
                  if edgeCallback c =? 0 then []
                  else [Call (edgeCallback c) (reference c)
                          (TIM_GetCapture regs src)]
                else [])).
Proof.
  intros Hk Hfind.
  destruct channels_distinct as (D12 & D13 & D14 & D23 & D24 & D34).
  assert (U1 : to_uint8 TIM_Channel_1 = TIM_Channel_1)
    by (apply channel_fits; repeat constructor).
  assert (U2 : to_uint8 TIM_Channel_2 = TIM_Channel_2)
    by (apply channel_fits; repeat constructor).
  assert (U3 : to_uint8 TIM_Channel_3 = TIM_Channel_3)
    by (apply channel_fits; repeat constructor).
  assert (U4 : to_uint8 TIM_Channel_4 = TIM_Channel_4)
    by (apply channel_fits; repeat constructor).
  rewrite <- (acknowledge_idle regs src).
  unfold edge_step, edge_call. cbn [bind]. rewrite Nat2Z.id.
  do 4 (destruct k as [| k];
        [ injection Hk as <- <-; cbn [channels lookup list_lookup]; cbv zeta;
          rewrite ?U1, ?U2, ?U3, ?U4, ?Z.eqb_refl;
          repeat match goal with
                 | |- context [?a =? ?b] =>
                     destruct (Z.eqb_spec a b) as [? | _]; [congruence |]
                 end;
          cbn [andb];
          match goal with
          | |- context [TIM_GetITStatus regs ?s] =>
              destruct (TIM_GetITStatus regs s)
          end;
          [ rewrite Hfind; cbn [bind];
            destruct (edgeCallback c =? 0); [rewrite app_nil_r |]; reflexivity
          | rewrite app_nil_r; reflexivity ]
        | ]).
  discriminate Hk.
Qed.

(** The handler, given the four entries of its timer. For every source
    that is pending, in the fixed order overflow, then channel 1 to 4, the
    callback of the matching entry is called; every source is acknowledged. *)
Lemma timCCxHandler_entries tim hw table c1 c2 c3 c4 :
  findTimerConfig tim TIM_Channel_1 table = Ret c1 ->
  findTimerConfig tim TIM_Channel_2 table = Ret c2 ->
  findTimerConfig tim TIM_Channel_3 table = Ret c3 ->
  findTimerConfig tim TIM_Channel_4 table = Ret c4 ->
  timCCxHandler tim hw table
  = Ret (acknowledged hw,
         (if TIM_GetITStatus hw TIM_IT_Update then
            flat_map
              (fun c => if overflowCallback c =? 0 then []
                        else [Call (overflowCallback c) (reference c) (ARR hw)])
              [c1; c2; c3; c4]
          else [])
         ++ flat_map
              (fun cs : timerConfig_t * it_source =>
                 if TIM_GetITStatus hw (snd cs) then
                   if edgeCallback (fst cs) =? 0 then []
                   else [Call (edgeCallback (fst cs)) (reference (fst cs))
                           (TIM_GetCapture hw (snd cs))]
                 else [])
              [(c1, TIM_IT_CC1); (c2, TIM_IT_CC2); (c3, TIM_IT_CC3);
               (c4, TIM_IT_CC4)]).
Proof.
  intros F1 F2 F3 F4. unfold timCCxHandler.
  change (upto CC_CHANNELS_PER_TIMER)
    with [Z.of_nat 0; Z.of_nat 1; Z.of_nat 2; Z.of_nat 3].
  assert (Hedge : forall regs tr,
            fold_left (edge_step tim table)
              [Z.of_nat 0; Z.of_nat 1; Z.of_nat 2; Z.of_nat 3] (Ret (regs, tr))
            = Ret (TIM_ClearITPendingBit
                     (TIM_ClearITPendingBit
                        (TIM_ClearITPendingBit
                           (TIM_ClearITPendingBit regs TIM_IT_CC1) TIM_IT_CC2)
                        TIM_IT_CC3) TIM_IT_CC4,
                   tr ++ flat_map
                     (fun cs : timerConfig_t * it_source =>
                        if TIM_GetITStatus regs (snd cs) then
                          if edgeCallback (fst cs) =? 0 then []
                          else [Call (edgeCallback (fst cs)) (reference (fst cs))
                                  (TIM_GetCapture regs (snd cs))]
                        else [])
                     [(c1, TIM_IT_CC1); (c2, TIM_IT_CC2); (c3, TIM_IT_CC3);
                      (c4, TIM_IT_CC4)])).
  { intros regs tr. cbn [fold_left].
    rewrite (edge_step_spec tim table regs tr 0 _ _ c1 eq_refl F1).
    rewrite (edge_step_spec tim table _ _ 1 _ _ c2 eq_refl F2).
    rewrite (edge_step_spec tim table _ _ 2 _ _ c3 eq_refl F3).
    rewrite (edge_step_spec tim table _ _ 3 _ _ c4 eq_refl F4).
    cbn [flat_map fst snd]. rewrite app_nil_r, <- !app_assoc.
    destruct regs as [u p1 p2 p3 p4 arr r1 r2 r3 r4]. reflexivity. }
  assert (Hovf : forall capture,
            fold_left (overflow_step tim capture table)
              [Z.of_nat 0; Z.of_nat 1; Z.of_nat 2; Z.of_nat 3] (Ret [])
            = Ret (flat_map
                     (fun c => if overflowCallback c =? 0 then []
                               else [Call (overflowCallback c) (reference c)
                                       capture])
                     [c1; c2; c3; c4])).
  { intros capture. cbn [fold_left].
    rewrite (overflow_step_spec tim _ table [] 0 _ _ c1 eq_refl F1).
    rewrite (overflow_step_spec tim _ table _ 1 _ _ c2 eq_refl F2).
    rewrite (overflow_step_spec tim _ table _ 2 _ _ c3 eq_refl F3).
    rewrite (overflow_step_spec tim _ table _ 3 _ _ c4 eq_refl F4).
    cbn [flat_map app]. rewrite app_nil_r, <- !app_assoc. reflexivity. }
  destruct (TIM_GetITStatus hw TIM_IT_Update) eqn:Hupd.
  - rewrite Hovf. cbn [bind]. rewrite Hedge.
    destruct hw as [u p1 p2 p3 p4 arr r1 r2 r3 r4]. reflexivity.
  - cbn [bind]. rewrite Hedge.
    destruct hw as [u p1 p2 p3 p4 arr r1 r2 r3 r4]. cbn in Hupd. subst u.
    reflexivity.
Qed.

(** The calls an entry asks for, read off the registrations. *)
Lemma entry_calls regs tim channel index c :
  match last_registration regs tim channel with
  | Some r =>
      edgeCallback c = reg_edge r
      /\ overflowCallback c = reg_overflow r
      /\ reference c = reg_reference r
  | None => timerInit !! Z.to_nat index = Some c
  end ->
  forall capture,
    (if overflowCallback c =? 0 then []
     else [Call (overflowCallback c) (reference c) capture])
    = match last_registration regs tim channel with
      | Some r =>
          if reg_overflow r =? 0 then []
          else [Call (reg_overflow r) (reg_reference r) capture]
      | None => []
      end
    /\ (if edgeCallback c =? 0 then []
        else [Call (edgeCallback c) (reference c) capture])
       = match last_registration regs tim channel with
         | Some r =>
             if reg_edge r =? 0 then []
             else [Call (reg_edge r) (reg_reference r) capture]
         | None => []
         end.
Proof.
  intros Hlast capture.
  destruct (last_registration regs tim channel) as [r |].
  - destruct Hlast as (-> & -> & ->). split; reflexivity.
  - unfold timerInit in Hlast. apply lookup_replicate in Hlast as [-> _].
    split; reflexivity.
Qed.

(** C1. After any sequence of valid registrations made from the cleared
    table, the interrupt entry point of a timer of the table returns, and
    the calls it makes are exactly: if an overflow is pending, the overflow
    callbacks last registered for the four pairs of that timer; then, for
    each channel with a pending capture, in channel order, the edge
    callback last registered for that very (timer, channel) pair, with the
    reference given at that registration and the capture register of that
    channel. No other callback is called. Two pairs with the same
    configuration index are the same pair. *)
Theorem edge_dispatch regs tim hw :
  Forall valid_registration regs ->
  tim ∈ timers ->
  (exists table,
     register_all regs timerInit = Ret table
     /\ timCCxHandler tim hw table
        = Ret (acknowledged hw,
               expected_overflow_calls regs tim hw
               ++ expected_edge_calls regs tim hw))
  /\ (forall tim1 channel1 tim2 channel2 index,
        lookupTimerConfigIndex tim1 channel1 = Ret index ->
        lookupTimerConfigIndex tim2 channel2 = Ret index ->
        tim1 = tim2 /\ channel1 = channel2).
Proof.
  intros Hvalid Htim. split; [| apply lookupTimerConfigIndex_inj].
  assert (Hlen : Z.of_nat (length timerInit) = MAX_TIMERS * CC_CHANNELS_PER_TIMER).
  { unfold timerInit. rewrite length_replicate, Z2Nat.id; [reflexivity |].
    unfold MAX_TIMERS, CC_CHANNELS_PER_TIMER. lia. }
  destruct (register_all_spec regs timerInit Hvalid Hlen)
    as (table & Hreg & _ & Hspec).
  exists table. split; [exact Hreg |].
  assert (Hentry : forall channel,
            channel ∈ channels ->
            exists c index,
              findTimerConfig tim channel table = Ret c
              /\ match last_registration regs tim channel with
                 | Some r =>
                     edgeCallback c = reg_edge r
                     /\ overflowCallback c = reg_overflow r
                     /\ reference c = reg_reference r
                 | None => timerInit !! Z.to_nat index = Some c
                 end).
  { intros channel Hch.
    destruct (lookupTimerConfigIndex_found tim channel Htim Hch) as (index & Hidx).
    destruct (Hspec tim channel index Hidx) as (c & Hc & Hlast).
    exists c, index. split; [| exact Hlast].
    unfold findTimerConfig. rewrite Hidx. cbn [bind]. rewrite Hc. reflexivity. }
  destruct (Hentry TIM_Channel_1 ltac:(repeat constructor)) as (c1 & i1 & F1 & L1).
  destruct (Hentry TIM_Channel_2 ltac:(repeat constructor)) as (c2 & i2 & F2 & L2).
  destruct (Hentry TIM_Channel_3 ltac:(repeat constructor)) as (c3 & i3 & F3 & L3).
  destruct (Hentry TIM_Channel_4 ltac:(repeat constructor)) as (c4 & i4 & F4 & L4).
  rewrite (timCCxHandler_entries tim hw table c1 c2 c3 c4 F1 F2 F3 F4).
  unfold expected_overflow_calls, expected_edge_calls.
  cbn [flat_map channel_sources fst snd].
  pose proof (entry_calls regs tim _ i1 c1 L1) as E1.
  pose proof (entry_calls regs tim _ i2 c2 L2) as E2.
  pose proof (entry_calls regs tim _ i3 c3 L3) as E3.
  pose proof (entry_calls regs tim _ i4 c4 L4) as E4.
  rewrite (proj1 (E1 (ARR hw))), (proj1 (E2 (ARR hw))),
    (proj1 (E3 (ARR hw))), (proj1 (E4 (ARR hw))).
  rewrite (proj2 (E1 (TIM_GetCapture hw TIM_IT_CC1))),
    (proj2 (E2 (TIM_GetCapture hw TIM_IT_CC2))),
    (proj2 (E3 (TIM_GetCapture hw TIM_IT_CC3))),
    (proj2 (E4 (TIM_GetCapture hw TIM_IT_CC4))).
  reflexivity.
Qed.

(** C9, against the code. A registration whose timer is not in the table,
    or whose channel is not one of the four constants, does not return with
    the table unchanged: the unbounded search of [lookupTimerIndex] or
    [lookupChannelIndex] reads past the end of its array before the bound
    check of [configureTimerChannelCallbacks] is reached. *)
Theorem invalid_registration_runs_off_table
    tim channel reference edge overflow table :
  tim ∉ timers \/ (tim ∈ timers /\ to_uint8 channel ∉ channels) ->
  configureTimerChannelCallbacks tim channel reference edge overflow table
  = OutOfBounds
  /\ (forall index,
        lookupTimerConfigIndex tim (to_uint8 channel) = Ret index ->
        0 <= index < MAX_TIMERS * CC_CHANNELS_PER_TIMER).
Proof.
  intros Hinvalid. split; [apply configure_invalid; exact Hinvalid |].
  intros index. apply lookupTimerConfigIndex_in_range.
Qed.

End Dispatch.

(** *** The NAZE target *)

Section Naze.
Local Existing Instance naze_build.

Lemma naze_build_ok : build_ok.
Proof.
  unfold build_ok. split; [| split].
  - repeat (apply NoDup_cons_2;
            [ intros Hin;
              repeat (apply elem_of_cons in Hin; destruct Hin as [Hin | Hin];
                      [discriminate Hin |]);
              apply elem_of_nil in Hin; exact Hin |]).
    apply NoDup_nil_2.
  - repeat (apply Forall_cons_2; [cbn; lia |]). apply Forall_nil_2.
  - vm_compute. intros Hd; discriminate Hd.
Qed.

(** TIM2 channel 2 is registered twice, channel 1 once; an edge on
    channel 2 calls the second registration of channel 2. *)
Lemma edge_dispatch_witness :
  let regs :=
    [ {| reg_tim := TIM2; reg_channel := 4; reg_reference := 7;
         reg_edge := 111; reg_overflow := 0 |};
      {| reg_tim := TIM2; reg_channel := 0; reg_reference := 3;
         reg_edge := 222; reg_overflow := 0 |};
      {| reg_tim := TIM2; reg_channel := 4; reg_reference := 9;
         reg_edge := 333; reg_overflow := 0 |} ] in
  let hw :=
    {| it_Update := false; it_CC1 := false; it_CC2 := true; it_CC3 := false;
       it_CC4 := false; ARR := 65535; CCR1 := 1501; CCR2 := 1502; CCR3 := 1503;
       CCR4 := 1504 |} in
  exists table,
    register_all regs timerInit = Ret table
    /\ timCCxHandler TIM2 hw table = Ret (acknowledged hw, [Call 333 9 1502]).
Proof.
  intros regs hw.
  destruct (edge_dispatch naze_build_ok regs TIM2 hw) as [Hrun _].
  - repeat (apply Forall_cons_2;
            [ split; [repeat constructor | split; [repeat constructor | cbn; lia]]
            |]).
    apply Forall_nil_2.
  - repeat constructor.
  - exact Hrun.
Defined.

(** TIM8 is not in the table of this target. *)
Lemma invalid_registration_runs_off_table_witness :
  configureTimerChannelCallbacks TIM8 0 7 111 0 timerInit = OutOfBounds.
Proof.
  destruct (invalid_registration_runs_off_table naze_build_ok TIM8 0 7 111 0
              timerInit) as [Hrun _].
  - left. intros Hin.
    repeat (apply elem_of_cons in Hin; destruct Hin as [Hin | Hin];
            [discriminate Hin |]).
    apply elem_of_nil in Hin. exact Hin.
  - exact Hrun.
Defined.

End Naze.

End TimerFacts.

(** ** The feature mask and the stored configuration *)

Module ConfigFacts.
Import Config CIntFacts.

(** *** Bits of the feature mask *)

Lemma testbit_uint32_high m n : 0 <= m < 2 ^ 32 -> 32 <= n -> Z.testbit m n = false.
Proof.
  intros Hm Hn. rewrite <- (Z.mod_small m (2 ^ 32)) by exact Hm.
  apply Z.mod_pow2_bits_high. lia.
Qed.

Lemma featureClear_testbit mask ef n :
  0 <= n ->
  Z.testbit (featureClear mask ef) n
  = Z.testbit ef n && ((n <? 32) && negb (Z.testbit mask n)).
Proof.
  intros Hn. unfold featureClear, to_uint32, to_unsigned.
  rewrite Z.land_spec, Z.testbit_mod_pow2 by lia.
  rewrite Z.lnot_spec by exact Hn. reflexivity.
Qed.

Lemma land_zero_bits a b :
  Z.land a b = 0 <-> forall n, 0 <= n -> Z.testbit a n && Z.testbit b n = false.
Proof.
  split.
  - intros E n _. rewrite <- Z.land_spec, E. apply Z.bits_0.
  - intros Hb. apply Z.bits_inj'. intros n Hn.
    rewrite Z.land_spec, Z.bits_0. apply Hb, Hn.
Qed.

Lemma feature_false ef m : feature ef m = false <-> Z.land ef m = 0.
Proof.
  unfold feature. destruct (Z.eqb_spec (Z.land ef m) 0); cbn; split; intros; congruence.
Qed.

Lemma feature_ext ef ef' m :
  Z.land ef m = Z.land ef' m -> feature ef m = feature ef' m.
Proof. unfold feature. intros ->. reflexivity. Qed.

Lemma featureClear_land_other m m' ef :
  disjoint_masks m m' = true -> 0 <= m' < 2 ^ 32 ->
  Z.land (featureClear m ef) m' = Z.land ef m'.
Proof.
  intros Hd Hm'. unfold disjoint_masks in Hd. apply Z.eqb_eq in Hd.
  apply Z.bits_inj'. intros n Hn.
  rewrite !Z.land_spec, featureClear_testbit by exact Hn.
  destruct (Z.testbit m' n) eqn:Eb; [| rewrite !andb_false_r; reflexivity].
  destruct (Z.ltb_spec n 32) as [Hlt | Hge].
  - pose proof (proj1 (land_zero_bits m m') Hd n Hn) as Hz.
    rewrite Eb, andb_true_r in Hz. rewrite Hz. cbn. rewrite !andb_true_r. reflexivity.
  - rewrite (testbit_uint32_high m' n Hm' Hge) in Eb. discriminate Eb.
Qed.

Lemma featureClear_land_same m ef : Z.land (featureClear m ef) m = 0.
Proof.
  apply Z.bits_inj'. intros n Hn.
  rewrite Z.land_spec, featureClear_testbit, Z.bits_0 by exact Hn.
  destruct (Z.testbit ef n), (n <? 32), (Z.testbit m n); reflexivity.
Qed.

Lemma featureSet_land_other m m' ef :
  disjoint_masks m m' = true ->
  Z.land (featureSet m ef) m' = Z.land ef m'.
Proof.
  intros Hd. unfold disjoint_masks in Hd. apply Z.eqb_eq in Hd.
  unfold featureSet. rewrite Z.land_lor_distr_l, Hd, Z.lor_0_r. reflexivity.
Qed.

Lemma featureSet_land_same m ef : Z.land (featureSet m ef) m = m.
Proof.
  unfold featureSet. apply Z.bits_inj'. intros n _.
  rewrite Z.land_spec, Z.lor_spec.
  destruct (Z.testbit ef n), (Z.testbit m n); reflexivity.
Qed.

Lemma disjoint_masks_sym a b : disjoint_masks a b = disjoint_masks b a.
Proof. unfold disjoint_masks. rewrite Z.land_comm. reflexivity. Qed.

Lemma featureClear_idle m ef :
  0 <= ef < 2 ^ 32 -> feature ef m = false -> featureClear m ef = ef.
Proof.
  intros Hef Hf. apply feature_false in Hf.
  apply Z.bits_inj'. intros n Hn. rewrite featureClear_testbit by exact Hn.
  destruct (Z.testbit ef n) eqn:Eb; [| reflexivity].
  pose proof (proj1 (land_zero_bits ef m) Hf n Hn) as Hz. rewrite Eb in Hz.
  cbn in Hz. rewrite Hz.
  destruct (Z.ltb_spec n 32) as [Hlt | Hge]; [reflexivity |].
  rewrite (testbit_uint32_high ef n Hef Hge) in Eb. discriminate Eb.
Qed.


Lemma uint32_mod x : 0 <= x < 2 ^ 32 <-> x mod 2 ^ 32 = x.
Proof.
  split; [apply Z.mod_small |].
  intros <-. apply Z.mod_pos_bound. lia.
Qed.

Lemma featureClear_range m ef : 0 <= featureClear m ef < 2 ^ 32.
Proof.
  apply uint32_mod. apply Z.bits_inj'. intros n Hn.
  rewrite Z.testbit_mod_pow2, featureClear_testbit by lia.
  destruct (n <? 32), (Z.testbit ef n), (Z.testbit m n); reflexivity.
Qed.

Lemma featureSet_range m ef :
  0 <= m < 2 ^ 32 -> 0 <= ef < 2 ^ 32 -> 0 <= featureSet m ef < 2 ^ 32.
Proof.
  intros Hm Hef. apply uint32_mod. apply Z.bits_inj'. intros n Hn.
  unfold featureSet. rewrite Z.testbit_mod_pow2, Z.lor_spec by lia.
  destruct (Z.ltb_spec n 32) as [Hlt | Hge]; [reflexivity |].
  rewrite (testbit_uint32_high m n Hm Hge), (testbit_uint32_high ef n Hef Hge).
  reflexivity.
Qed.

Lemma feature_featureClear_same m ef : feature (featureClear m ef) m = false.
Proof. apply feature_false, featureClear_land_same. Qed.

Lemma feature_featureClear_other m m' ef :
  disjoint_masks m m' = true -> 0 <= m' < 2 ^ 32 ->
  feature (featureClear m ef) m' = feature ef m'.
Proof. intros Hd Hm. apply feature_ext, featureClear_land_other; assumption. Qed.

Lemma feature_featureClear_mono m m' ef :
  feature ef m' = false -> feature (featureClear m ef) m' = false.
Proof.
  rewrite !feature_false. intros Hz. apply land_zero_bits. intros n Hn.
  rewrite featureClear_testbit by exact Hn.
  pose proof (proj1 (land_zero_bits ef m') Hz n Hn) as Hb.
  destruct (Z.testbit ef n), (Z.testbit m' n); try discriminate Hb;
    rewrite ?andb_false_r; reflexivity.
Qed.

Lemma feature_featureSet_same m ef : m <> 0 -> feature (featureSet m ef) m = true.
Proof.
  intros Hm. unfold feature. rewrite featureSet_land_same.
  destruct (Z.eqb_spec m 0); [contradiction | reflexivity].
Qed.

Lemma feature_featureSet_other m m' ef :
  disjoint_masks m m' = true ->
  feature (featureSet m ef) m' = feature ef m'.
Proof. intros Hd. apply feature_ext, featureSet_land_other, Hd. Qed.

Lemma feature_lor ef m1 m2 :
  feature ef (Z.lor m1 m2) = feature ef m1 || feature ef m2.
Proof.
  unfold feature. rewrite Z.land_lor_distr_r.
  destruct (Z.eqb_spec (Z.land ef m1) 0) as [E1 | E1],
    (Z.eqb_spec (Z.land ef m2) 0) as [E2 | E2]; cbn.
  - rewrite E1, E2. reflexivity.
  - rewrite E1, Z.lor_0_l. destruct (Z.eqb_spec (Z.land ef m2) 0); [contradiction | reflexivity].
  - rewrite E2, Z.lor_0_r. destruct (Z.eqb_spec (Z.land ef m1) 0); [contradiction | reflexivity].
  - destruct (Z.eqb_spec (Z.lor (Z.land ef m1) (Z.land ef m2)) 0) as [E | E]; [| reflexivity].
    apply Z.lor_eq_0_iff in E. destruct E. contradiction.
Qed.

(** X1. The feature mask of config.c: after [featureSet] of a non-empty
    mask [feature] reports it, after [featureClear] it does not; neither
    changes what [feature] reports for a mask sharing no bit with it;
    clearing what was just set on a mask that was off gives the mask back;
    and the mask stays a 32-bit value. *)
Theorem feature_set_clear (enabledFeatures mask other : Z) :
  0 <= enabledFeatures < 2 ^ 32 ->
  0 < mask < 2 ^ 32 ->
  0 <= other < 2 ^ 32 ->
  disjoint_masks mask other = true ->
  feature (featureSet mask enabledFeatures) mask = true
  /\ feature (featureClear mask enabledFeatures) mask = false
  /\ feature (featureSet mask enabledFeatures) other = feature enabledFeatures other
  /\ feature (featureClear mask enabledFeatures) other = feature enabledFeatures other
  /\ (feature enabledFeatures mask = false ->
      featureClear mask (featureSet mask enabledFeatures) = enabledFeatures)
  /\ 0 <= featureMask (featureSet mask enabledFeatures) < 2 ^ 32
  /\ 0 <= featureMask (featureClear mask enabledFeatures) < 2 ^ 32.
Proof.
  intros Hef Hm Ho Hd.
  split; [apply feature_featureSet_same; lia |].
  split; [apply feature_featureClear_same |].
  split; [apply feature_featureSet_other, Hd |].
  split; [apply feature_featureClear_other; assumption |].
  split.
  - intros Hoff. apply feature_false in Hoff.
    apply Z.bits_inj'. intros n Hn. rewrite featureClear_testbit by exact Hn.
    unfold featureSet. rewrite Z.lor_spec.
    pose proof (proj1 (land_zero_bits _ _) Hoff n Hn) as Hb.
    destruct (Z.ltb_spec n 32) as [Hlt | Hge].
    + destruct (Z.testbit enabledFeatures n), (Z.testbit mask n);
        try discriminate Hb; reflexivity.
    + rewrite (testbit_uint32_high enabledFeatures n Hef Hge),
        (testbit_uint32_high mask n ltac:(lia) Hge). reflexivity.
  - split; [apply featureSet_range; lia | apply featureClear_range].
Qed.

(** Bit 3 set and cleared on the mask 2; bit 1 is left alone. *)
Lemma feature_set_clear_witness :
  feature (featureSet 8 2) 8 = true
  /\ feature (featureClear 8 10) 8 = false
  /\ feature (featureClear 8 10) 2 = true.
Proof.
  destruct (feature_set_clear 2 8 2) as (Hset & _); [lia | lia | lia | reflexivity |].
  destruct (feature_set_clear 10 8 2) as (_ & Hclear & _ & Hother & _);
    [lia | lia | lia | reflexivity |].
  split; [exact Hset |]. split; [exact Hclear |].
  rewrite Hother. reflexivity.
Defined.

(** *** Receiver selection *)

Section Validate.
Context `{ConfigBuild}.
Hypothesis Hmasks : masks_ok = true.

Lemma masks_ok_receivers :
  Forall (fun m => 0 < m < 2 ^ 32) receiver_features
  /\ Forall (fun m => Forall (fun p => disjoint_masks m p = true) port_features)
       receiver_features
  /\ disjoint_masks FEATURE_RX_MSP FEATURE_RX_SERIAL = true
  /\ disjoint_masks FEATURE_RX_MSP FEATURE_RX_PPM = true
  /\ disjoint_masks FEATURE_RX_MSP FEATURE_RX_PARALLEL_PWM = true
  /\ disjoint_masks FEATURE_RX_SERIAL FEATURE_RX_PPM = true
  /\ disjoint_masks FEATURE_RX_SERIAL FEATURE_RX_PARALLEL_PWM = true
  /\ disjoint_masks FEATURE_RX_PPM FEATURE_RX_PARALLEL_PWM = true.
Proof.
  pose proof Hmasks as Hm. unfold masks_ok in Hm.
  rewrite !andb_true_iff, !forallb_forall in Hm.
  destruct Hm as (((((((Hr & Hp) & D1) & D2) & D3) & D4) & D5) & D6).
  split; [| split; [| tauto]].
  - apply Forall_forall. intros m Hin. apply list_elem_of_In in Hin.
    specialize (Hr m Hin). unfold is_mask in Hr.
    apply andb_true_iff in Hr as [H1 H2]. apply Z.ltb_lt in H1, H2. lia.
  - apply Forall_forall. intros m Hin. apply list_elem_of_In in Hin.
    specialize (Hp m Hin). rewrite forallb_forall in Hp.
    apply Forall_forall. intros p Hp'. apply list_elem_of_In in Hp'. apply Hp, Hp'.
Qed.

Lemma Forall4 {A} (P : A -> Prop) a b c d :
  Forall P [a; b; c; d] -> P a /\ P b /\ P c /\ P d.
Proof.
  intros HF. repeat (apply Forall_cons in HF as [? HF]). tauto.
Qed.

Lemma Forall5 {A} (P : A -> Prop) a b c d e :
  Forall P [a; b; c; d; e] -> P a /\ P b /\ P c /\ P d /\ P e.
Proof.
  intros HF. repeat (apply Forall_cons in HF as [? HF]). tauto.
Qed.

Ltac mask_facts :=
  let Hr := fresh "Hr" in
  let Hp := fresh "Hp" in
  destruct masks_ok_receivers as (Hr & Hp & ? & ? & ? & ? & ? & ?);
  unfold receiver_features in Hr, Hp;
  apply Forall4 in Hr as (? & ? & ? & ?);
  apply Forall4 in Hp as (Hp1 & Hp2 & Hp3 & Hp4);
  unfold port_features in Hp1, Hp2, Hp3, Hp4;
  apply Forall5 in Hp1 as (? & ? & ? & ? & ?);
  apply Forall5 in Hp2 as (? & ? & ? & ? & ?);
  apply Forall5 in Hp3 as (? & ? & ? & ? & ?);
  apply Forall5 in Hp4 as (? & ? & ? & ? & ?).

Ltac mask_side :=
  first [ assumption | rewrite disjoint_masks_sym; assumption | lia ].

Ltac feature_step :=
  first
    [ rewrite feature_featureClear_same
    | rewrite feature_featureSet_same by mask_side
    | rewrite feature_featureClear_other by mask_side
    | rewrite feature_featureSet_other by mask_side
    | match goal with
      | E : feature ?x ?m = _ |- context [feature ?x ?m] => rewrite E
      end
    | progress cbn [negb orb andb] ].


Lemma validateAndFixConfig_blocks ef :
  validateAndFixConfig ef = free_ports (select_receiver ef).
Proof. reflexivity. Qed.

Lemma select_receiver_spec ef :
  let r := select_receiver ef in
  feature r FEATURE_RX_MSP = feature ef FEATURE_RX_MSP
  /\ feature r FEATURE_RX_SERIAL
     = feature ef FEATURE_RX_SERIAL && negb (feature ef FEATURE_RX_MSP)
  /\ feature r FEATURE_RX_PPM
     = feature ef FEATURE_RX_PPM && negb (feature ef FEATURE_RX_MSP)
       && negb (feature ef FEATURE_RX_SERIAL)
  /\ feature r FEATURE_RX_PARALLEL_PWM
     = negb (feature ef FEATURE_RX_MSP) && negb (feature ef FEATURE_RX_SERIAL)
       && negb (feature ef FEATURE_RX_PPM).
Proof.
  mask_facts. unfold select_receiver. cbv zeta.
  destruct (feature ef FEATURE_RX_MSP) eqn:Em,
    (feature ef FEATURE_RX_SERIAL) eqn:Es,
    (feature ef FEATURE_RX_PPM) eqn:Ep,
    (feature ef FEATURE_RX_PARALLEL_PWM) eqn:Ew;
    cbn [negb orb andb];
    repeat feature_step; repeat split.
Qed.

Lemma free_ports_receiver x m :
  0 < m < 2 ^ 32 ->
  Forall (fun p => disjoint_masks m p = true) port_features ->
  feature (free_ports x) m = feature x m.
Proof.
  intros Hm Hp. unfold port_features in Hp.
  apply Forall5 in Hp as (? & ? & ? & ? & ?).
  unfold free_ports. cbv zeta.
  destruct (feature x FEATURE_RX_PARALLEL_PWM), STM32F10X_MD, CHEBUZZ,
    STM32F3DISCOVERY, SONAR; cbn [orb];
    try match goal with
        | |- context [feature ?y FEATURE_SOFTSERIAL] =>
            destruct (feature y FEATURE_SOFTSERIAL)
        end;
    repeat (rewrite feature_featureClear_other by mask_side); reflexivity.
Qed.

Lemma validateAndFixConfig_receivers ef :
  let r := validateAndFixConfig ef in
  feature r FEATURE_RX_MSP = feature ef FEATURE_RX_MSP
  /\ feature r FEATURE_RX_SERIAL
     = feature ef FEATURE_RX_SERIAL && negb (feature ef FEATURE_RX_MSP)
  /\ feature r FEATURE_RX_PPM
     = feature ef FEATURE_RX_PPM && negb (feature ef FEATURE_RX_MSP)
       && negb (feature ef FEATURE_RX_SERIAL)
  /\ feature r FEATURE_RX_PARALLEL_PWM
     = negb (feature ef FEATURE_RX_MSP) && negb (feature ef FEATURE_RX_SERIAL)
       && negb (feature ef FEATURE_RX_PPM).
Proof.
  destruct masks_ok_receivers as (Hr & Hp & _).
  unfold receiver_features in Hr, Hp.
  apply Forall4 in Hr as (? & ? & ? & ?).
  apply Forall4 in Hp as (? & ? & ? & ?).
  cbv zeta. rewrite validateAndFixConfig_blocks.
  rewrite !free_ports_receiver by assumption.
  apply select_receiver_spec.
Qed.

Ltac cleared :=
  solve [ repeat first [ apply feature_featureClear_same
                       | assumption
                       | apply feature_featureClear_mono ] ].

Ltac drop_idle_clears :=
  repeat match goal with
         | |- context [featureClear ?m ?y] =>
             rewrite (featureClear_idle m y)
               by first [ apply featureClear_range | assumption | cleared ]
         end.

Lemma free_ports_idem x :
  0 <= x < 2 ^ 32 -> free_ports (free_ports x) = free_ports x.
Proof.
  intros Hx. mask_facts.
  unfold free_ports. cbv zeta.
  destruct (feature x FEATURE_RX_PARALLEL_PWM) eqn:Ew.
  - destruct STM32F10X_MD, CHEBUZZ, STM32F3DISCOVERY, SONAR; cbn [orb];
      repeat first [ rewrite feature_featureClear_same
                   | rewrite feature_featureClear_other by mask_side
                   | rewrite Ew ];
      drop_idle_clears; reflexivity.
  - destruct STM32F10X_MD; [| rewrite Ew; reflexivity].
    destruct (feature x FEATURE_SOFTSERIAL) eqn:Esoft.
    + rewrite feature_featureClear_other, Ew by mask_side.
      destruct (feature (featureClear FEATURE_LED_STRIP x) FEATURE_SOFTSERIAL);
        drop_idle_clears; reflexivity.
    + rewrite Ew, Esoft. reflexivity.
Qed.

Lemma select_receiver_fixed x :
  0 <= x < 2 ^ 32 ->
  feature x FEATURE_RX_SERIAL = feature x FEATURE_RX_SERIAL && negb (feature x FEATURE_RX_MSP) ->
  feature x FEATURE_RX_PPM
  = feature x FEATURE_RX_PPM && negb (feature x FEATURE_RX_MSP)
    && negb (feature x FEATURE_RX_SERIAL) ->
  feature x FEATURE_RX_PARALLEL_PWM
  = negb (feature x FEATURE_RX_MSP) && negb (feature x FEATURE_RX_SERIAL)
    && negb (feature x FEATURE_RX_PPM) ->
  select_receiver x = x.
Proof.
  intros Hx Hs Hp Hw. unfold select_receiver. cbv zeta.
  destruct (feature x FEATURE_RX_MSP) eqn:Em,
    (feature x FEATURE_RX_SERIAL) eqn:Es,
    (feature x FEATURE_RX_PPM) eqn:Ep,
    (feature x FEATURE_RX_PARALLEL_PWM) eqn:Ew;
    cbn in Hs, Hp, Hw; try discriminate;
    cbn [negb orb andb];
    repeat first [ rewrite Em | rewrite Es | rewrite Ep | rewrite Ew
                 | rewrite (featureClear_idle _ x) by assumption ];
    reflexivity.
Qed.

Lemma select_receiver_range x :
  0 <= x < 2 ^ 32 -> 0 <= select_receiver x < 2 ^ 32.
Proof.
  intros Hx. mask_facts. unfold select_receiver. cbv zeta.
  repeat match goal with
         | |- context [if ?b then _ else _] => destruct b
         end;
    first [ apply featureClear_range | apply featureSet_range; lia | exact Hx ].
Qed.

Lemma free_ports_range x : 0 <= x < 2 ^ 32 -> 0 <= free_ports x < 2 ^ 32.
Proof.
  intros Hx. unfold free_ports. cbv zeta.
  repeat match goal with
         | |- context [if ?b then _ else _] => destruct b
         end;
    first [ apply featureClear_range | exact Hx ].
Qed.

(** X2. [validateAndFixConfig] leaves exactly one receiver feature
    enabled: MSP if it was enabled, else serial, else PPM, else parallel
    PWM (which it enables when none was). A mask it has fixed is a fixed
    point: running it again changes nothing. *)
Theorem validateAndFixConfig_one_receiver (enabledFeatures : Z) :
  0 <= enabledFeatures < 2 ^ 32 ->
  let r := validateAndFixConfig enabledFeatures in
  feature r FEATURE_RX_MSP = feature enabledFeatures FEATURE_RX_MSP
  /\ feature r FEATURE_RX_SERIAL
     = feature enabledFeatures FEATURE_RX_SERIAL
       && negb (feature enabledFeatures FEATURE_RX_MSP)
  /\ feature r FEATURE_RX_PPM
     = feature enabledFeatures FEATURE_RX_PPM
       && negb (feature enabledFeatures FEATURE_RX_MSP)
       && negb (feature enabledFeatures FEATURE_RX_SERIAL)
  /\ feature r FEATURE_RX_PARALLEL_PWM
     = negb (feature enabledFeatures FEATURE_RX_MSP)
       && negb (feature enabledFeatures FEATURE_RX_SERIAL)
       && negb (feature enabledFeatures FEATURE_RX_PPM)
  /\ Z.b2z (feature r FEATURE_RX_MSP) + Z.b2z (feature r FEATURE_RX_SERIAL)
     + Z.b2z (feature r FEATURE_RX_PPM)
     + Z.b2z (feature r FEATURE_RX_PARALLEL_PWM) = 1
  /\ validateAndFixConfig r = r.
Proof.
  intros Hef r.
  destruct (validateAndFixConfig_receivers enabledFeatures) as (Em & Es & Ep & Ew).
  fold r in Em, Es, Ep, Ew.
  do 4 (split; [assumption |]). split.
  - rewrite Em, Es, Ep, Ew.
    destruct (feature enabledFeatures FEATURE_RX_MSP),
      (feature enabledFeatures FEATURE_RX_SERIAL),
      (feature enabledFeatures FEATURE_RX_PPM); reflexivity.
  - assert (Hr : 0 <= r < 2 ^ 32).
    { unfold r. rewrite validateAndFixConfig_blocks.
      apply free_ports_range, select_receiver_range, Hef. }
    rewrite (validateAndFixConfig_blocks r).
    rewrite (select_receiver_fixed r Hr).
    + unfold r at 1 2. rewrite validateAndFixConfig_blocks.
      apply free_ports_idem, select_receiver_range, Hef.
    + rewrite Em, Es. destruct (feature enabledFeatures FEATURE_RX_MSP),
        (feature enabledFeatures FEATURE_RX_SERIAL); reflexivity.
    + rewrite Em, Es, Ep. destruct (feature enabledFeatures FEATURE_RX_MSP),
        (feature enabledFeatures FEATURE_RX_SERIAL),
        (feature enabledFeatures FEATURE_RX_PPM); reflexivity.
    + rewrite Em, Es, Ep, Ew. destruct (feature enabledFeatures FEATURE_RX_MSP),
        (feature enabledFeatures FEATURE_RX_SERIAL),
        (feature enabledFeatures FEATURE_RX_PPM); reflexivity.
Qed.
End Validate.

(** From the mask of [resetConf], which has no receiver feature, parallel
    PWM is selected. *)
Lemma validateAndFixConfig_one_receiver_witness :
  @feature (@validateAndFixConfig naze_config (@resetConf_enabledFeatures naze_config 0))
    (@FEATURE_RX_PARALLEL_PWM naze_config) = true.
Proof.
  destruct (@validateAndFixConfig_one_receiver naze_config eq_refl
              (@resetConf_enabledFeatures naze_config 0))
    as (_ & _ & _ & Hpwm & _).
  - vm_compute. split; [intros Hd; discriminate Hd | reflexivity].
  - rewrite Hpwm. reflexivity.
Defined.


(** *** Port conflicts *)

Section Ports.
Context `{ConfigBuild}.

Ltac split_branches :=
  repeat match goal with
         | |- context [if ?b then _ else _] => destruct b
         end.

Ltac stays_off :=
  repeat first [ apply feature_featureClear_same
               | apply feature_featureClear_mono ].

Lemma select_receiver_off ef other :
  disjoint_masks FEATURE_RX_PARALLEL_PWM other = true ->
  feature ef other = false ->
  feature (select_receiver ef) other = false.
Proof.
  intros Hd Hoff. unfold select_receiver. cbv zeta.
  split_branches; stays_off;
    rewrite ?(feature_featureSet_other _ _ _ Hd); exact Hoff.
Qed.

Lemma free_ports_off x other :
  feature x other = false -> feature (free_ports x) other = false.
Proof.
  intros Hoff. unfold free_ports. cbv zeta.
  split_branches; stays_off; exact Hoff.
Qed.

Lemma select_receiver_other ef other :
  0 <= other < 2 ^ 32 ->
  Forall (fun m => disjoint_masks m other = true) receiver_features ->
  feature (select_receiver ef) other = feature ef other.
Proof.
  intros Ho Hd. unfold receiver_features in Hd.
  repeat (apply Forall_cons in Hd as [? Hd]).
  unfold select_receiver. cbv zeta.
  split_branches;
    repeat (rewrite feature_featureClear_other by assumption);
    rewrite ?feature_featureSet_other by assumption; reflexivity.
Qed.

Lemma free_ports_other x other :
  0 <= other < 2 ^ 32 ->
  Forall (fun m => disjoint_masks m other = true) port_features ->
  feature (free_ports x) other = feature x other.
Proof.
  intros Ho Hd. unfold port_features in Hd.
  repeat (apply Forall_cons in Hd as [? Hd]).
  unfold free_ports. cbv zeta.
  split_branches;
    repeat (rewrite feature_featureClear_other by assumption); reflexivity.
Qed.

Lemma free_ports_conflicts x :
  let r := free_ports x in
  (feature r FEATURE_RX_PARALLEL_PWM = true ->
   feature r FEATURE_SOFTSERIAL = false
   /\ (STM32F10X_MD = true ->
       feature r FEATURE_RSSI_ADC = false
       /\ feature r FEATURE_CURRENT_METER = false
       /\ (SONAR = true -> feature r FEATURE_SONAR = false))
   /\ (STM32F10X_MD || CHEBUZZ || STM32F3DISCOVERY = true ->
       feature r FEATURE_LED_STRIP = false))
  /\ (STM32F10X_MD = true -> feature r FEATURE_SOFTSERIAL = true ->
      feature r FEATURE_LED_STRIP = false).
Proof.
  intros r. split.
  - intros Hpwm.
    assert (Hx : feature x FEATURE_RX_PARALLEL_PWM = true).
    { destruct (feature x FEATURE_RX_PARALLEL_PWM) eqn:E; [reflexivity |].
      unfold r in Hpwm. rewrite (free_ports_off _ _ E) in Hpwm. discriminate Hpwm. }
    clear Hpwm. unfold r, free_ports. cbv zeta. rewrite Hx.
    destruct STM32F10X_MD, SONAR, CHEBUZZ, STM32F3DISCOVERY; cbn [orb];
      split_branches;
      repeat split; intros; try congruence; stays_off.
  - unfold r, free_ports. cbv zeta.
    set (f5 := if feature x FEATURE_RX_PARALLEL_PWM then _ else x).
    intros Hmd. rewrite Hmd.
    destruct (feature f5 FEATURE_SOFTSERIAL) eqn:E; intros Hsoft;
      [apply feature_featureClear_same | congruence].
Qed.

(** X3. What else [validateAndFixConfig] does to the feature mask. It
    enables nothing but parallel PWM: a mask that shares no bit with
    [FEATURE_RX_PARALLEL_PWM] and was off stays off. It leaves every mask
    alone that shares no bit with the receiver features and the features it
    clears for the sake of the ports. In its result parallel PWM excludes
    soft serial, on STM32F10X_MD also the RSSI ADC, the current meter and
    (with SONAR) the sonar, and on STM32F10X_MD, CHEBUZZ and
    STM32F3DISCOVERY the LED strip; on STM32F10X_MD soft serial excludes
    the LED strip. *)
Theorem validateAndFixConfig_frees_ports (enabledFeatures : Z) :
  let r := validateAndFixConfig enabledFeatures in
  (forall other,
     disjoint_masks FEATURE_RX_PARALLEL_PWM other = true ->
     feature enabledFeatures other = false -> feature r other = false)
  /\ (forall other,
        0 <= other < 2 ^ 32 ->
        Forall (fun m => disjoint_masks m other = true)
          (receiver_features ++ port_features) ->
        feature r other = feature enabledFeatures other)
  /\ (feature r FEATURE_RX_PARALLEL_PWM = true ->
      feature r FEATURE_SOFTSERIAL = false
      /\ (STM32F10X_MD = true ->
          feature r FEATURE_RSSI_ADC = false
          /\ feature r FEATURE_CURRENT_METER = false
          /\ (SONAR = true -> feature r FEATURE_SONAR = false))
      /\ (STM32F10X_MD || CHEBUZZ || STM32F3DISCOVERY = true ->
          feature r FEATURE_LED_STRIP = false))
  /\ (STM32F10X_MD = true -> feature r FEATURE_SOFTSERIAL = true ->
      feature r FEATURE_LED_STRIP = false).
Proof.
  intros r. unfold r. rewrite validateAndFixConfig_blocks.
  split; [| split].
  - intros other Hd Hoff. apply free_ports_off, select_receiver_off; assumption.
  - intros other Ho Hd. apply Forall_app in Hd as [Hrx Hports].
    rewrite free_ports_other, select_receiver_other by assumption. reflexivity.
  - apply free_ports_conflicts.
Qed.
End Ports.

(** Parallel PWM with soft serial, the LED strip and the battery monitor
    on an STM32F10X_MD target: soft serial and the LED strip are cleared,
    the battery monitor stays. *)
Lemma validateAndFixConfig_frees_ports_witness :
  @feature (@validateAndFixConfig naze_config (8192 + 64 + 65536 + 2)) 64 = false
  /\ @feature (@validateAndFixConfig naze_config (8192 + 64 + 65536 + 2)) 65536 = false
  /\ @feature (@validateAndFixConfig naze_config (8192 + 64 + 65536 + 2)) 2 = true.
Proof.
  destruct (@validateAndFixConfig_frees_ports naze_config (8192 + 64 + 65536 + 2))
    as (_ & Hother & Hpwm & _).
  destruct Hpwm as (Hsoft & _ & Hled); [reflexivity |].
  split; [exact Hsoft |]. split; [apply Hled; reflexivity |].
  rewrite (Hother 2); [reflexivity | lia |].
  repeat (apply Forall_cons_2; [reflexivity |]). apply Forall_nil_2.
Defined.

(** *** The checksum of the stored image *)

Lemma uint8_mod x : 0 <= x < 256 <-> x mod 2 ^ 8 = x.
Proof.
  split; [apply Z.mod_small |].
  intros <-. apply Z.mod_pos_bound. lia.
Qed.

Lemma testbit_uint8_high x n : 0 <= x < 256 -> 8 <= n -> Z.testbit x n = false.
Proof.
  intros Hx Hn. rewrite <- (Z.mod_small x (2 ^ 8)) by exact Hx.
  apply Z.mod_pow2_bits_high. lia.
Qed.

Lemma lxor_byte a b : 0 <= a < 256 -> 0 <= b < 256 -> 0 <= Z.lxor a b < 256.
Proof.
  intros Ha Hb. apply uint8_mod. apply Z.bits_inj'. intros n Hn.
  rewrite Z.testbit_mod_pow2, Z.lxor_spec by lia.
  destruct (Z.ltb_spec n 8) as [Hlt | Hge]; [reflexivity |].
  rewrite (testbit_uint8_high a n Ha Hge), (testbit_uint8_high b n Hb Hge).
  reflexivity.
Qed.

Lemma xor_all_snoc l x : xor_all (l ++ [x]) = Z.lxor (xor_all l) x.
Proof.
  induction l as [| y l IH]; cbn.
  - rewrite Z.lxor_0_r, Z.lxor_0_l. reflexivity.
  - unfold xor_all in IH. rewrite IH, Z.lxor_assoc. reflexivity.
Qed.

Lemma xor_all_byte l : Forall (fun b => 0 <= b < 256) l -> 0 <= xor_all l < 256.
Proof.
  induction 1 as [| x l Hx Hl IH]; cbn; [lia |].
  apply lxor_byte; assumption.
Qed.

Lemma calculateChecksum_xor_all data :
  Forall (fun b => 0 <= b < 256) data ->
  calculateChecksum data (Z.of_nat (length data)) = xor_all data.
Proof.
  unfold calculateChecksum.
  induction data as [| x l IH] using rev_ind; intros Hall; [reflexivity |].
  apply Forall_app in Hall as [Hall Hx]. rewrite Forall_singleton in Hx.
  rewrite length_app. cbn [length].
  replace (Z.of_nat (length l + 1)) with (Z.of_nat (length l) + 1) by lia.
  rewrite upto_succ by lia. rewrite fold_left_app. cbn [fold_left].
  rewrite (RxFacts.fold_left_ext_in _
             (fun checksum byteOffset => to_uint8 (Z.lxor checksum (zget l byteOffset)))).
  - rewrite IH by exact Hall. rewrite xor_all_snoc.
    unfold zget at 1. rewrite Nat2Z.id, list_lookup_middle by reflexivity.
    cbn [default]. apply to_uint8_small, lxor_byte; [apply xor_all_byte, Hall | exact Hx].
  - intros a i Hi. apply elem_of_upto in Hi. unfold zget.
    rewrite lookup_app_l by lia. reflexivity.
Qed.

Lemma xor_all_zset l i v :
  0 <= i < Z.of_nat (length l) ->
  xor_all (zset l i v) = Z.lxor (Z.lxor (xor_all l) (zget l i)) v.
Proof.
  intros Hi. unfold zset, zget.
  assert (Hn : (Z.to_nat i < length l)%nat) by lia. clear Hi.
  generalize dependent (Z.to_nat i). clear i.
  induction l as [| x l IH]; intros n Hn; [cbn in Hn; lia |].
  destruct n as [| n]; cbn.
  - set (X := fold_right Z.lxor 0 l).
    rewrite (Z.lxor_comm x X), (Z.lxor_assoc X x x), Z.lxor_nilpotent, Z.lxor_0_r.
    apply Z.lxor_comm.
  - cbn in Hn. unfold xor_all in IH. rewrite IH by lia.
    rewrite !Z.lxor_assoc. reflexivity.
Qed.

Section EepromFacts.
Context `{MasterLayout}.
Hypothesis Hlayout : layout_ok.

Lemma is_image_zset image i v :
  is_image image -> 0 <= v < 256 -> is_image (zset image i v).
Proof.
  intros [Hlen Hbytes] Hv. split.
  - rewrite length_zset. exact Hlen.
  - unfold zset. apply Forall_insert; assumption.
Qed.

Lemma layout_offsets :
  (0 <= offsetof_version < sizeof_master_t
   /\ 0 <= offsetof_size < sizeof_master_t
   /\ 0 <= offsetof_size + 1 < sizeof_master_t
   /\ 0 <= offsetof_magic_be < sizeof_master_t
   /\ 0 <= offsetof_magic_ef < sizeof_master_t
   /\ 0 <= offsetof_chk < sizeof_master_t)
  /\ offsetof_version <> offsetof_size
  /\ offsetof_version <> offsetof_size + 1
  /\ offsetof_version <> offsetof_magic_be
  /\ offsetof_version <> offsetof_magic_ef
  /\ offsetof_version <> offsetof_chk
  /\ offsetof_size <> offsetof_magic_be
  /\ offsetof_size <> offsetof_magic_ef
  /\ offsetof_size <> offsetof_chk
  /\ offsetof_size + 1 <> offsetof_magic_be
  /\ offsetof_size + 1 <> offsetof_magic_ef
  /\ offsetof_size + 1 <> offsetof_chk
  /\ offsetof_magic_be <> offsetof_magic_ef
  /\ offsetof_magic_be <> offsetof_chk
  /\ offsetof_magic_ef <> offsetof_chk.
Proof.
  destruct Hlayout as (_ & Hin & Hnd).
  repeat (apply Forall_cons in Hin as [? Hin]).
  split; [tauto |].
  repeat (apply NoDup_cons in Hnd as [?%not_elem_of_cons Hnd]).
  repeat match goal with
         | Hx : _ ∉ _ :: _ |- _ => apply not_elem_of_cons in Hx
         | Hx : _ /\ _ |- _ => destruct Hx
         end.
  repeat split; assumption.
Qed.

Lemma calculateChecksum_image image :
  is_image image -> calculateChecksum image sizeof_master_t = xor_all image.
Proof.
  intros [Hlen Hbytes]. rewrite <- Hlen. apply calculateChecksum_xor_all, Hbytes.
Qed.

Lemma calculateChecksum_zset image i v :
  is_image image -> 0 <= i < sizeof_master_t -> 0 <= v < 256 ->
  calculateChecksum (zset image i v) sizeof_master_t
  = Z.lxor (Z.lxor (calculateChecksum image sizeof_master_t) (zget image i)) v.
Proof.
  intros Himg Hi Hv.
  rewrite (calculateChecksum_image (zset image i v))
    by (apply is_image_zset; assumption).
  rewrite (calculateChecksum_image image Himg).
  apply xor_all_zset. destruct Himg as [Hlen _]. lia.
Qed.

Lemma calculateChecksum_byte image :
  is_image image -> 0 <= calculateChecksum image sizeof_master_t < 256.
Proof.
  intros Himg. rewrite (calculateChecksum_image image Himg).
  apply xor_all_byte. destruct Himg as [_ Hb]. exact Hb.
Qed.

Ltac peel_writes :=
  repeat (rewrite zget_zset_ne by lia);
  rewrite zget_zset_eq by (rewrite ?length_zset; lia).

(** X4. The configuration image as [writeEEPROM] prepares it for the flash
    passes every test of [isEEPROMContentValid]: version, size, both
    magic numbers, and a checksum of zero over the whole image. *)
Theorem written_image_is_valid (masterConfig : list Z) :
  is_image masterConfig ->
  isEEPROMContentValid (writeEEPROM_masterConfig masterConfig) = true.
Proof.
  intros Himg.
  destruct layout_offsets
    as ((Rv & Rs & Rs1 & Rbe & Ref & Rchk) & Dvs & Dvs1 & Dvbe & Dvef & Dvchk
        & Dsbe & Dsef & Dschk & Ds1be & Ds1ef & Ds1chk & Dbeef & Dbechk & Defchk).
  destruct Hlayout as (Hsz & _ & _).
  assert (Hsize : to_uint16 sizeof_master_t = sizeof_master_t)
    by (apply to_uint16_small; lia).
  unfold writeEEPROM_masterConfig, set_uint16. cbv zeta. rewrite Hsize.
  set (m5 := zset _ offsetof_chk 0).
  assert (Himg5 : is_image m5).
  { unfold m5.
    repeat (apply is_image_zset;
            [| first [ lia
                     | unfold EEPROM_CONF_VERSION; lia
                     | split; [apply Z.div_pos; lia
                              | apply Z.div_lt_upper_bound; lia]
                     | apply Z.mod_pos_bound; lia ]]).
    exact Himg. }
  pose proof (calculateChecksum_byte m5 Himg5) as Hc.
  assert (Hlen : Z.of_nat (length masterConfig) = sizeof_master_t)
    by (destruct Himg as [Hl _]; exact Hl).
  assert (Hzero : zget m5 offsetof_chk = 0).
  { unfold m5. apply zget_zset_eq. rewrite !length_zset. lia. }
  unfold isEEPROMContentValid, get_uint16.
  rewrite (calculateChecksum_zset m5 offsetof_chk _ Himg5 Rchk Hc).
  rewrite Hzero, Z.lxor_0_r, Z.lxor_nilpotent.
  set (c := calculateChecksum m5 sizeof_master_t). unfold m5.
  assert (Ev : zget (zset (zset (zset (zset (zset (zset (zset masterConfig
                 offsetof_version EEPROM_CONF_VERSION) offsetof_size
                 (sizeof_master_t mod 256)) (offsetof_size + 1)
                 (sizeof_master_t / 256)) offsetof_magic_be 190)
                 offsetof_magic_ef 239) offsetof_chk 0) offsetof_chk c)
                 offsetof_version = EEPROM_CONF_VERSION).
  { peel_writes. reflexivity. }
  rewrite Ev, Z.eqb_refl. cbn [negb].
  repeat (rewrite (zget_zset_ne _ _ offsetof_size) by lia).
  rewrite (zget_zset_eq _ offsetof_size) by (rewrite ?length_zset; lia).
  repeat (rewrite (zget_zset_ne _ _ (offsetof_size + 1)) by lia).
  rewrite (zget_zset_eq _ (offsetof_size + 1)) by (rewrite ?length_zset; lia).
  repeat (rewrite (zget_zset_ne _ _ offsetof_magic_be) by lia).
  rewrite (zget_zset_eq _ offsetof_magic_be) by (rewrite ?length_zset; lia).
  repeat (rewrite (zget_zset_ne _ _ offsetof_magic_ef) by lia).
  rewrite (zget_zset_eq _ offsetof_magic_ef) by (rewrite ?length_zset; lia).
  replace (sizeof_master_t mod 256 + 256 * (sizeof_master_t / 256))
    with sizeof_master_t by (pose proof (Z.div_mod sizeof_master_t 256); lia).
  rewrite !Z.eqb_refl. reflexivity.
Qed.

Lemma valid_checksum flash :
  isEEPROMContentValid flash = true ->
  zget flash offsetof_version = EEPROM_CONF_VERSION
  /\ get_uint16 flash offsetof_size = sizeof_master_t
  /\ zget flash offsetof_magic_be = 0xBE
  /\ zget flash offsetof_magic_ef = 0xEF
  /\ calculateChecksum flash sizeof_master_t = 0.
Proof.
  unfold isEEPROMContentValid.
  destruct (Z.eqb_spec EEPROM_CONF_VERSION (zget flash offsetof_version));
    [| discriminate].
  destruct (Z.eqb_spec (get_uint16 flash offsetof_size) sizeof_master_t);
    [| discriminate].
  destruct (Z.eqb_spec (zget flash offsetof_magic_be) 190); [| discriminate].
  destruct (Z.eqb_spec (zget flash offsetof_magic_ef) 239); [| discriminate].
  destruct (Z.eqb_spec (calculateChecksum flash sizeof_master_t) 0);
    [| discriminate].
  intros _. repeat split; congruence.
Qed.

Lemma zget_byte image i : is_image image -> 0 <= zget image i < 256.
Proof.
  intros [_ Hb]. unfold zget.
  destruct (image !! Z.to_nat i) as [v |] eqn:E; cbn; [| lia].
  exact (proj1 (Forall_lookup _ _) Hb _ _ E).
Qed.

(** X5. If one byte of a stored image that [isEEPROMContentValid] accepts
    takes another value, whichever byte it is, the image is rejected. *)
Theorem corrupted_byte_is_detected (flash : list Z) (i b : Z) :
  is_image flash ->
  isEEPROMContentValid flash = true ->
  0 <= i < sizeof_master_t ->
  0 <= b < 256 ->
  b <> zget flash i ->
  isEEPROMContentValid (zset flash i b) = false.
Proof.
  intros Himg Hvalid Hi Hb Hne.
  destruct (valid_checksum flash Hvalid) as (_ & _ & _ & _ & Hsum).
  assert (Hnew : calculateChecksum (zset flash i b) sizeof_master_t <> 0).
  { rewrite (calculateChecksum_zset flash i b Himg Hi Hb), Hsum, Z.lxor_0_l.
    intros Hz. apply Z.lxor_eq in Hz. congruence. }
  unfold isEEPROMContentValid.
  destruct (negb (EEPROM_CONF_VERSION =? _)); [reflexivity |].
  destruct (negb (get_uint16 _ _ =? _) || _ || _); [reflexivity |].
  destruct (Z.eqb_spec (calculateChecksum (zset flash i b) sizeof_master_t) 0);
    [contradiction | reflexivity].
Qed.

(** X6. The checksum does not depend on the order of the bytes: an
    accepted image in which two bytes outside the version, size and magic
    members have changed places is still accepted. *)
Theorem swapped_bytes_are_not_detected (flash : list Z) (i j : Z) :
  is_image flash ->
  isEEPROMContentValid flash = true ->
  0 <= i < sizeof_master_t ->
  0 <= j < sizeof_master_t ->
  Forall (fun o => i <> o /\ j <> o)
    [offsetof_version; offsetof_size; offsetof_size + 1; offsetof_magic_be;
     offsetof_magic_ef] ->
  isEEPROMContentValid (zset (zset flash i (zget flash j)) j (zget flash i))
  = true.
Proof.
  intros Himg Hvalid Hi Hj Hout.
  destruct layout_offsets as ((Rv & Rs & Rs1 & Rbe & Ref & _) & _).
  destruct (valid_checksum flash Hvalid) as (Ev & Es & Ebe & Eef & Hsum).
  repeat (apply Forall_cons in Hout as [[? ?] Hout]).
  pose proof (zget_byte flash i Himg) as Bi.
  pose proof (zget_byte flash j Himg) as Bj.
  assert (Himg1 : is_image (zset flash i (zget flash j)))
    by (apply is_image_zset; assumption).
  unfold isEEPROMContentValid, get_uint16.
  rewrite !zget_zset_ne by lia.
  unfold get_uint16 in Es. rewrite Ev, Es, Ebe, Eef, !Z.eqb_refl. cbn [negb orb].
  rewrite (calculateChecksum_zset _ j _ Himg1 Hj Bi).
  rewrite (calculateChecksum_zset flash i _ Himg Hi Bj), Hsum, Z.lxor_0_l.
  destruct (Z.eq_dec i j) as [-> | Hij].
  - rewrite zget_zset_eq by (destruct Himg as [Hl _]; lia).
    rewrite Z.lxor_nilpotent, Z.lxor_0_l, Z.lxor_nilpotent. reflexivity.
  - rewrite zget_zset_ne by lia.
    rewrite (Z.lxor_assoc (zget flash i)), Z.lxor_nilpotent, Z.lxor_0_r,
      Z.lxor_nilpotent. reflexivity.
Qed.
End EepromFacts.

Section SmallImage.
Local Existing Instance small_layout.

Lemma small_layout_ok : layout_ok.
Proof.
  unfold layout_ok. split; [cbn; lia |]. split.
  - repeat (apply Forall_cons_2; [cbn; lia |]). apply Forall_nil_2.
  - repeat (apply NoDup_cons_2;
            [ intros Hin;
              repeat (apply elem_of_cons in Hin; destruct Hin as [Hin | Hin];
                      [discriminate Hin |]);
              apply elem_of_nil in Hin; exact Hin |]).
    apply NoDup_nil_2.
Qed.

Lemma small_image_ok (image : list Z) :
  length image = 12%nat ->
  forallb (fun b => (0 <=? b) && (b <? 256)) image = true ->
  is_image image.
Proof.
  intros Hlen Hb. split; [cbn; lia |].
  apply Forall_forall. intros b Hin. apply list_elem_of_In in Hin.
  rewrite forallb_forall in Hb. specialize (Hb b Hin). lia.
Qed.

(** Twelve bytes of payload and stale header: after [writeEEPROM] has
    filled in the header and the checksum the image is accepted. *)
Lemma written_image_is_valid_witness :
  isEEPROMContentValid
    (writeEEPROM_masterConfig [1; 2; 3; 4; 5; 6; 7; 8; 9; 10; 11; 12])
  = true.
Proof.
  apply (written_image_is_valid small_layout_ok).
  apply small_image_ok; reflexivity.
Defined.

(** The byte at offset 5 of that image changes from 6 to 7. *)
Lemma corrupted_byte_is_detected_witness :
  isEEPROMContentValid
    (zset (writeEEPROM_masterConfig [1; 2; 3; 4; 5; 6; 7; 8; 9; 10; 11; 12]) 5 7)
  = false.
Proof.
  apply corrupted_byte_is_detected.
  - apply small_image_ok; reflexivity.
  - reflexivity.
  - cbn. lia.
  - lia.
  - vm_compute. intros Hd; discriminate Hd.
Defined.

(** The bytes at offsets 5 and 6 of that image, 6 and 7, change places. *)
Lemma swapped_bytes_are_not_detected_witness :
  isEEPROMContentValid
    (zset (zset (writeEEPROM_masterConfig [1; 2; 3; 4; 5; 6; 7; 8; 9; 10; 11; 12])
             5 7) 6 6)
  = true.
Proof.
  refine (swapped_bytes_are_not_detected small_layout_ok
            (writeEEPROM_masterConfig [1; 2; 3; 4; 5; 6; 7; 8; 9; 10; 11; 12]) 5 6
            _ _ _ _ _).
  - apply small_image_ok; reflexivity.
  - reflexivity.
  - cbn. lia.
  - cbn. lia.
  - repeat (apply Forall_cons_2; [cbn; lia |]). apply Forall_nil_2.
Defined.

End SmallImage.

End ConfigFacts.

(** ** More on the receiver channel pipeline *)

Module RxMore.
Import Rx CIntFacts RxFacts.

Section More.
Context `{RxBuild}.

(** The channel loop leaves the scheduling and RSSI variables alone. *)
Lemma processChannel_untouched env scp st tr c :
  let st' := fst (processChannel env scp (st, tr) c) in
  rxUpdateAt st' = rxUpdateAt st
  /\ rcDataReceived st' = rcDataReceived st
  /\ rcSampleIndex st' = rcSampleIndex st
  /\ rssi st' = rssi st
  /\ adc st' = adc st.
Proof.
  unfold processChannel. destruct (rcReadRawFunc env) as [read |].
  2:{ repeat split. }
  destruct (isRxDataDriven env).
  { repeat split. }
  destruct (calculateNonDataDrivenChannel _ _ _ _) as [v sm]. repeat split.
Qed.

Lemma fold_processChannel_untouched env scp l :
  forall st tr,
    let st' := fst (fold_left (processChannel env scp) l (st, tr)) in
    rxUpdateAt st' = rxUpdateAt st
    /\ rcDataReceived st' = rcDataReceived st
    /\ rcSampleIndex st' = rcSampleIndex st
    /\ rssi st' = rssi st
    /\ adc st' = adc st.
Proof.
  induction l as [| c l IH]; intros st tr; [repeat split |].
  cbn [fold_left].
  pose proof (processChannel_untouched env scp st tr c) as Hstep.
  cbv zeta in Hstep.
  destruct (processChannel env scp (st, tr) c) as [st1 tr1]. cbn [fst] in Hstep.
  specialize (IH st1 tr1). cbv zeta in IH.
  destruct Hstep as (A1 & A2 & A3 & A4 & A5), IH as (B1 & B2 & B3 & B4 & B5).
  repeat split; congruence.
Qed.

Lemma processRxChannels_untouched env st :
  let st' := fst (processRxChannels env st) in
  rxUpdateAt st' = rxUpdateAt st
  /\ rcDataReceived st' = rcDataReceived st
  /\ rcSampleIndex st' = rcSampleIndex st
  /\ rssi st' = rssi st
  /\ adc st' = adc st.
Proof.
  unfold processRxChannels.
  destruct (if feature env (Z.lor FEATURE_FAILSAFE FEATURE_RX_PPM)
            then (isPPMDataBeingReceived env, [ResetPPMDataReceivedState])
            else (true, [])) as [scp tr0].
  apply fold_processChannel_untouched.
Qed.

(** What a pass of [calculateRxChannelsAndUpdateFailsafe] does to the
    scheduling variables. *)
Lemma calculateRx_schedule t env st :
  let st' := fst (calculateRxChannelsAndUpdateFailsafe t env st) in
  rxUpdateAt st' = to_uint32 (t + DELAY_50_HZ)
  /\ rcDataReceived st'
     = (if isRxDataDriven env then false else rcDataReceived st)
  /\ rcSampleIndex st'
     = (if isRxDataDriven env then rcSampleIndex st
        else to_uint8 (rcSampleIndex st + 1))
  /\ rssi st' = rssi st
  /\ adc st' = adc st.
Proof.
  unfold calculateRxChannelsAndUpdateFailsafe.
  destruct (isRxDataDriven env).
  - unfold processDataDrivenRx. state_simpl.
    destruct (rcDataReceived st) eqn:Hr; cbn [negb].
    + pose proof (processRxChannels_untouched env
                    (set_rxUpdateAt (to_uint32 (t + DELAY_50_HZ)) st)) as Hu.
      cbv zeta in Hu.
      destruct (processRxChannels env _) as [st1 tr]. cbn [fst snd] in *.
      destruct Hu as (U1 & U2 & U3 & U4 & U5). state_simpl.
      repeat split; assumption.
    + cbn [fst]. state_simpl. repeat split. exact Hr.
  - unfold processNonDataDrivenRx.
    pose proof (processRxChannels_untouched env
                  (set_rcSampleIndex (to_uint8 (rcSampleIndex st + 1))
                     (set_rxUpdateAt (to_uint32 (t + DELAY_50_HZ)) st))) as Hu.
    cbv zeta in Hu.
    destruct (processRxChannels env _) as [st1 tr]. cbn [fst snd] in *.
    destruct Hu as (U1 & U2 & U3 & U4 & U5). state_simpl.
    repeat split; assumption.
Qed.

Lemma due32_after t d deadline_offset :
  0 <= d < 2 ^ 31 + deadline_offset -> 0 <= deadline_offset < 2 ^ 31 ->
  due32 (to_uint32 (t + d)) (to_uint32 (t + deadline_offset))
  = (deadline_offset <=? d).
Proof.
  intros Hd Ho.
  assert (Hmod : (to_uint32 (t + d) - to_uint32 (t + deadline_offset)) mod 2 ^ 32
                 = (d - deadline_offset) mod 2 ^ 32).
  { unfold to_uint32, to_unsigned. rewrite <- Zminus_mod. f_equal. lia. }
  destruct (Z.leb_spec deadline_offset d) as [Hge | Hlt].
  - apply due32_iff. rewrite Hmod, Z.mod_small by lia. lia.
  - destruct (due32 _ _) eqn:E; [| reflexivity].
    apply due32_iff in E. rewrite Hmod in E.
    replace ((d - deadline_offset) mod 2 ^ 32)
      with (d - deadline_offset + 2 ^ 32) in E; [lia |].
    apply Z.mod_unique with (q := -1); lia.
Qed.

(** X7. After a pass of [calculateRxChannelsAndUpdateFailsafe] at time
    [t], [shouldProcessRx] at time [t + d], in 32-bit time and across its
    wrap, answers whether 20 ms have gone by, for every [d] below
    2^31 + 20000; only in POLL mode does a frame flag left set by [updateRx]
    make it answer yes before. *)
Theorem pass_due_again_after_20ms t d env st :
  0 <= d < 2 ^ 31 + DELAY_50_HZ ->
  let st' := fst (calculateRxChannelsAndUpdateFailsafe t env st) in
  shouldProcessRx (to_uint32 (t + d)) st'
  = (if isRxDataDriven env then false else rcDataReceived st)
    || (DELAY_50_HZ <=? d).
Proof.
  intros Hd st'.
  destruct (calculateRx_schedule t env st) as (Hat & Hrecv & _).
  fold st' in Hat, Hrecv. unfold shouldProcessRx. rewrite Hat, Hrecv.
  f_equal. apply due32_after; [exact Hd | vm_compute; split; [discriminate | reflexivity]].
Qed.

(** X8. [updateRSSIADC] takes at most one sample per 20 ms: after an
    accepted call at time [t], a call at [t + d] with [d] below 20000
    changes nothing at all, whatever the ADC reads, and a call with [d]
    from 20000 on is accepted again and moves the write index on by one. *)
Theorem adc_sampled_once_per_20ms t d env env' st :
  due32 t (rssiUpdateAt (adc st)) = true ->
  0 <= d < 2 ^ 31 + DELAY_50_HZ ->
  let st' := updateRSSIADC t env st in
  let st'' := updateRSSIADC (to_uint32 (t + d)) env' st' in
  (d < DELAY_50_HZ -> st'' = st')
  /\ (DELAY_50_HZ <= d ->
      rssiUpdateAt (adc st'') = to_uint32 (to_uint32 (t + d) + DELAY_50_HZ)
      /\ adcRssiSampleIndex (adc st'')
         = to_uint8 ((adcRssiSampleIndex (adc st') + 1) mod RSSI_ADC_SAMPLE_COUNT)).
Proof.
  intros Hdue Hd st' st''.
  assert (Hat : rssiUpdateAt (adc st') = to_uint32 (t + DELAY_50_HZ)).
  { unfold st'. rewrite (updateRSSIADC_accepted t env st Hdue). reflexivity. }
  pose proof (due32_after t d DELAY_50_HZ Hd
                ltac:(vm_compute; split; [discriminate | reflexivity])) as Hgate.
  rewrite <- Hat in Hgate. split.
  - intros Hlt. unfold st'', updateRSSIADC.
    destruct (Z.leb_spec DELAY_50_HZ d); [lia |].
    unfold due32 in Hgate. apply Z.leb_gt in Hgate.
    destruct (Z.ltb_spec (elapsed32 (to_uint32 (t + d)) (rssiUpdateAt (adc st'))) 0);
      [reflexivity | lia].
  - intros Hge. unfold st''.
    destruct (Z.leb_spec DELAY_50_HZ d); [| lia].
    rewrite (updateRSSIADC_accepted _ env' st' Hgate). split; reflexivity.
Qed.

Lemma rescale_1023_table_100 :
  forallb (fun c => (0 <=? rescale_1023 c 100) && (rescale_1023 c 100 <=? 1023))
    (upto 101) = true.
Proof. vm_compute. reflexivity. Qed.

(** X9. [rssi] stays in the range [0, 1023] that its declaration
    states, whichever source [updateRSSI] selects and whatever the channel
    value or the ADC reading. *)
Theorem rssi_stays_in_range t env st :
  0 <= rssi st <= 1023 ->
  0 <= rssi (updateRSSI t env st) <= 1023.
Proof.
  intros Hst. unfold updateRSSI.
  destruct (0 <? rssi_channel (rxConfig env)).
  - unfold updateRSSIPWM. state_simpl.
    set (c := constrain _ 0 1000).
    assert (Hc : 0 <= c <= 1000) by (apply constrain_range; lia).
    rewrite (rescale_1023_exact_1000 c Hc).
    split; [apply Z.div_pos; lia | apply Z.div_le_upper_bound; lia].
  - destruct (feature env FEATURE_RSSI_ADC); [| exact Hst].
    unfold updateRSSIADC.
    destruct (elapsed32 t (rssiUpdateAt (adc st)) <? 0); [exact Hst |].
    state_simpl.
    set (c := constrain _ 0 100).
    assert (Hc : 0 <= c <= 100) by (apply constrain_range; lia).
    pose proof rescale_1023_table_100 as Ht. rewrite forallb_forall in Ht.
    specialize (Ht c ltac:(apply list_elem_of_In, elem_of_upto; lia)). lia.
Qed.

(** A loop that stores the same value at every index of a list. *)
Lemma fold_zset_other (m : Z) (l : list Z) :
  forall (data : list Z) (i : Z),
    0 <= i -> (forall c, c ∈ l -> 0 <= c) -> i ∉ l ->
    fold_left (fun d c => zset d c m) l data !! Z.to_nat i = data !! Z.to_nat i.
Proof.
  induction l as [| c l IH]; intros data i Hi Hpos Hnotin; [reflexivity |].
  apply not_elem_of_cons in Hnotin as [Hne Hnotin]. cbn [fold_left].
  rewrite IH by (try assumption; intros c' Hc'; apply Hpos; right; exact Hc').
  unfold zset. apply list_lookup_insert_ne.
  pose proof (Hpos c ltac:(left)). lia.
Qed.

Lemma fold_zset_length (m : Z) (l : list Z) :
  forall data, length (fold_left (fun d c => zset d c m) l data) = length data.
Proof.
  induction l as [| c l IH]; intros data; [reflexivity |].
  cbn [fold_left]. rewrite IH. apply length_zset.
Qed.

Lemma fold_zset_same (m : Z) (l : list Z) :
  forall (data : list Z) (i : Z),
    0 <= i < Z.of_nat (length data) -> (forall c, c ∈ l -> 0 <= c) -> i ∈ l ->
    fold_left (fun d c => zset d c m) l data !! Z.to_nat i = Some m.
Proof.
  induction l as [| c l IH]; intros data i Hi Hpos Hin.
  { apply elem_of_nil in Hin. contradiction. }
  cbn [fold_left].
  assert (Hpos' : forall c', c' ∈ l -> 0 <= c')
    by (intros c' Hc'; apply Hpos; right; exact Hc').
  destruct (decide (i ∈ l)) as [Hl | Hl].
  - apply IH; [rewrite length_zset; exact Hi | exact Hpos' | exact Hl].
  - apply elem_of_cons in Hin as [-> | Hin]; [| contradiction].
    rewrite fold_zset_other by (try assumption; lia).
    unfold zset. apply list_lookup_insert_eq. lia.
Qed.



Lemma feature_lor_rx env m1 m2 :
  feature env (Z.lor m1 m2) = feature env m1 || feature env m2.
Proof. apply ConfigFacts.feature_lor. Qed.



Lemma rxInit_rcData drv cfg env st i :
  0 <= i < MAX_SUPPORTED_RC_CHANNEL_COUNT ->
  i < Z.of_nat (length (rcData st)) ->
  rcData (snd (rxInit drv cfg env st)) !! Z.to_nat i = Some (to_int16 (midrc cfg)).
Proof.
  intros Hi Hl. unfold rxInit. cbn [snd]. state_simpl.
  apply fold_zset_same;
    [lia | intros c Hin; apply elem_of_upto in Hin; lia | apply elem_of_upto; exact Hi].
Qed.

(** X12. [rxInit] with the serial feature alone enabled and a provider
    that has no case in [serialRxInit], or whose init function fails:
    the serial feature is cleared, no read function is installed, every
    entry of [rcData] holds [midrc], and no later pass of [updateRx] and
    [calculateRxChannelsAndUpdateFailsafe] changes [rcData]. *)
Theorem failed_serial_init_holds_midrc drv cfg env st :
  feature env FEATURE_RX_SERIAL = true ->
  feature env FEATURE_RX_MSP = false ->
  feature env FEATURE_RX_PPM = false ->
  feature env FEATURE_RX_PARALLEL_PWM = false ->
  snd (serialRxInit_switch drv cfg (runtime_of (useRxConfig cfg env))) = false ->
  let env' := fst (rxInit drv cfg env st) in
  let st' := snd (rxInit drv cfg env st) in
  rcReadRawFunc env' = None
  /\ feature env' FEATURE_RX_SERIAL = false
  /\ (forall i, 0 <= i < MAX_SUPPORTED_RC_CHANNEL_COUNT ->
        i < Z.of_nat (length (rcData st)) ->
        rcData st' !! Z.to_nat i = Some (to_int16 (midrc cfg)))
  /\ (forall t st1, rcData (rx_pass t env' st1) = rcData st1).
Proof.
  intros Hser Hmsp Hppm Hpwm Hfail env' st'.
  assert (Henv : env'
                 = let rt := fst (serialRxInit_switch drv cfg
                                    (runtime_of (useRxConfig cfg env))) in
                   with_runtime {| rt_channelCount := rt_channelCount rt;
                                   rt_rcReadRawFunc := None |}
                     (with_enabledFeatures
                        (Config.featureClear FEATURE_RX_SERIAL (enabledFeatures env))
                        (with_runtime rt (useRxConfig cfg env)))).
  { unfold env', rxInit. cbn [fst].
    change (feature (useRxConfig cfg env) FEATURE_RX_SERIAL)
      with (feature env FEATURE_RX_SERIAL). rewrite Hser.
    unfold serialRxInit.
    destruct (serialRxInit_switch drv cfg (runtime_of (useRxConfig cfg env)))
      as [rt enabled]. cbn [snd] in Hfail. subst enabled. cbn [negb fst].
    set (env1 := with_runtime _ (with_enabledFeatures _ _)).
    assert (Hoff : forall m, feature env m = false -> feature env1 m = false).
    { intros m Hm. apply (ConfigFacts.feature_featureClear_mono _ _ _ Hm). }
    rewrite (Hoff _ Hmsp), (Hoff _ Hppm), (Hoff _ Hpwm). reflexivity. }
  cbv zeta in Henv.
  assert (Hoff : forall m, feature env m = false -> feature env' m = false).
  { intros m Hm. rewrite Henv.
    apply (ConfigFacts.feature_featureClear_mono _ _ _ Hm). }
  split; [rewrite Henv; reflexivity |].
  split; [rewrite Henv; apply ConfigFacts.feature_featureClear_same |].
  split; [intros i Hi Hl; apply rxInit_rcData; assumption |].
  intros t st1. unfold rx_pass.
  assert (Hno : feature env' FEATURE_RX_SERIAL = false)
    by (rewrite Henv; apply ConfigFacts.feature_featureClear_same).
  assert (Hmode : isRxDataDriven env' = true).
  { unfold isRxDataDriven. rewrite feature_lor_rx, (Hoff _ Hpwm), (Hoff _ Hppm).
    reflexivity. }
  destruct (push_mode_idle t env' (fst (updateRx env' st1)) Hmode) as [Hidle _].
  - unfold updateRx. state_simpl. rewrite Hno, (Hoff _ Hmsp). reflexivity.
  - rewrite Hidle. reflexivity.
Qed.

Lemma processChannel_collected env scp st tr c read :
  rcReadRawFunc env = Some read ->
  isRxDataDriven env = false ->
  arrays_fit env st ->
  0 <= c < channelCount env ->
  rxSamplesCollected (smoothing (fst (processChannel env scp (st, tr) c)))
  = averaging st.
Proof.
  intros Hread Hmode (Hcount & Hdata & Hsm) Hc.
  destruct (Hsm Hmode) as (Hrows & Hmean & Hall).
  destruct (lookup_lt_is_Some_2 (rcSamples (smoothing st)) (Z.to_nat c)
              ltac:(lia)) as [row Hrow].
  unfold processChannel, averaging. rewrite Hread, Hmode.
  pose proof (calculateNonDataDrivenChannel_spec c (validate env
    (to_uint16 (read (to_uint8 (calculateChannelRemapping (rcmap (rxConfig env))
       REMAPPABLE_CHANNEL_COUNT c))))) (rcSampleIndex st) (smoothing st) row
    ltac:(lia) Hrow) as Hspec.
  cbv zeta in Hspec.
  destruct (calculateNonDataDrivenChannel c _ (rcSampleIndex st) (smoothing st))
    as [v sm].
  state_simpl. destruct Hspec as (_ & _ & Hcol & _). exact Hcol.
Qed.

Lemma fold_processChannel_collected env scp read l :
  rcReadRawFunc env = Some read ->
  isRxDataDriven env = false ->
  forall st tr,
    arrays_fit env st ->
    (forall c, c ∈ l -> 0 <= c < channelCount env) ->
    l <> [] ->
    rxSamplesCollected (smoothing (fst (fold_left (processChannel env scp) l (st, tr))))
    = averaging st.
Proof.
  intros Hread Hmode. induction l as [| c l IH]; intros st tr Hfit Hl Hne;
    [contradiction |].
  cbn [fold_left].
  assert (Hc : 0 <= c < channelCount env) by (apply Hl; left).
  pose proof (processChannel_collected env scp st tr c read Hread Hmode Hfit Hc)
    as Hcol.
  pose proof (processChannel_frame env scp st tr c Hfit Hc) as Hframe.
  cbv zeta in Hframe.
  destruct (processChannel env scp (st, tr) c) as [st1 tr1]. cbn [fst] in *.
  destruct Hframe as (Hfit1 & _ & Havg1 & _).
  destruct l as [| c' l'].
  - cbn. exact Hcol.
  - rewrite IH; [exact Havg1 | exact Hfit1 | | discriminate].
    intros c0 Hc0. apply Hl. right. exact Hc0.
Qed.

Lemma run_tick_fit env k st :
  isRxDataDriven env = false ->
  arrays_fit env st ->
  arrays_fit env (run_tick env k st)
  /\ (0 < channelCount env ->
      rxSamplesCollected (smoothing (run_tick env k st))
      = rxSamplesCollected (smoothing st)
        || (PPM_AND_PWM_SAMPLE_COUNT <=? to_uint8 (rcSampleIndex st + 1))).
Proof.
  intros Hmode Hfit.
  unfold run_tick, calculateRxChannelsAndUpdateFailsafe.
  destruct (with_driver_setup env k) as (Hm & Hcc & Hcfg & Hfit').
  rewrite Hm, Hmode. unfold processNonDataDrivenRx.
  set (st1 := set_rcSampleIndex _ (set_rxUpdateAt _ st)).
  assert (Hfit1 : arrays_fit (with_driver k env) st1) by (apply Hfit'; exact Hfit).
  unfold processRxChannels.
  destruct (if feature (with_driver k env) (Z.lor FEATURE_FAILSAFE FEATURE_RX_PPM)
            then (isPPMDataBeingReceived (with_driver k env),
                  [ResetPPMDataReceivedState])
            else (true, [])) as [scp tr0].
  assert (Hrange : forall c, c ∈ upto (channelCount (with_driver k env)) ->
                     0 <= c < channelCount (with_driver k env))
    by (intros c Hc; apply elem_of_upto; exact Hc).
  pose proof (fold_processChannel_frame (with_driver k env) scp _ st1 tr0 Hfit1
                Hrange) as Hframe.
  cbv zeta in Hframe. destruct Hframe as (Hfit2 & _).
  split.
  - destruct (fold_left _ _ _) as [st2 tr2]. cbn [fst] in *.
    apply Hfit'. exact Hfit2.
  - intros Hpos.
    pose proof (fold_processChannel_collected (with_driver k env) scp (tk_read k)
                  (upto (channelCount (with_driver k env))) eq_refl
                  ltac:(rewrite Hm; exact Hmode) st1 tr0 Hfit1 Hrange) as Hcol.
    destruct (fold_left _ _ _) as [st2 tr2]. cbn [fst] in *.
    rewrite Hcol; [reflexivity |].
    rewrite Hcc. intros Hnil.
    assert (Hin : 0 ∈ upto (channelCount env)) by (apply elem_of_upto; lia).
    rewrite Hnil in Hin. apply elem_of_nil in Hin. exact Hin.
Qed.

Lemma checked_sample_in_window env read chan :
  in_window (midrc (rxConfig env)) ->
  in_window (checked_sample env read chan).
Proof.
  intros Hmid. unfold checked_sample, validate, in_window in *.
  destruct (Z.ltb_spec (raw_sample env read chan) PULSE_MIN); [exact Hmid |].
  destruct (Z.ltb_spec PULSE_MAX (raw_sample env read chan)); [exact Hmid |].
  cbn. lia.
Qed.

Lemma in_window_int16 v : in_window v -> to_int16 v = v.
Proof.
  unfold in_window, PULSE_MIN, PULSE_MAX. intros Hv. apply to_int16_small. lia.
Qed.

(** The mean of a full window of valid pulses is a valid pulse. *)
Lemma mean_in_window row :
  length row = 4%nat ->
  Forall in_window row ->
  in_window (to_int16 (to_uint16 (Z.quot (window_sum row) PPM_AND_PWM_SAMPLE_COUNT))).
Proof.
  intros Hlen Hall.
  do 5 (destruct row as [| ? row]; try discriminate Hlen).
  repeat (apply Forall_cons in Hall as [? Hall]).
  unfold in_window, PULSE_MIN, PULSE_MAX, PPM_AND_PWM_SAMPLE_COUNT in *.
  rewrite window_sum_small by lia.
  rewrite Z.quot_div_nonneg by lia.
  assert (750 <= (z + z0 + z1 + z2) / 4 <= 2250)
    by (split; [apply Z.div_le_lower_bound | apply Z.div_le_upper_bound]; lia).
  rewrite to_uint16_small by lia. rewrite to_int16_small by lia. assumption.
Qed.

Lemma poll_tick_invariant env st k :
  isRxDataDriven env = false ->
  in_window (midrc (rxConfig env)) ->
  arrays_fit env st ->
  windows_valid env st ->
  let st' := run_tick env k st in
  arrays_fit env st'
  /\ windows_valid env st'
  /\ (forall chan, 0 <= chan < channelCount env ->
        exists v, rcData st' !! Z.to_nat chan = Some v /\ in_window v).
Proof.
  intros Hmode Hmid Hfit (Hidx & Hwin) st'.
  destruct (run_tick_fit env k st Hmode Hfit) as [Hfit' Hcol]. fold st' in Hfit', Hcol.
  assert (Hidx' : rcSampleIndex st' = to_uint8 (rcSampleIndex st + 1)).
  { unfold st', run_tick.
    destruct (calculateRx_schedule (tk_time k) (with_driver k env) st)
      as (_ & _ & Hi & _).
    rewrite Hi. destruct (with_driver_setup env k) as (Hm & _).
    rewrite Hm, Hmode. reflexivity. }
  assert (Hchan : forall chan, 0 <= chan < channelCount env ->
            exists row',
              rcSamples (smoothing st') !! Z.to_nat chan = Some row'
              /\ (if rxSamplesCollected (smoothing st')
                  then Forall in_window row'
                  else rcSampleIndex st' < PPM_AND_PWM_SAMPLE_COUNT
                       /\ forall j, 1 <= j <= rcSampleIndex st' ->
                            in_window (zget row' j))
              /\ exists v, rcData st' !! Z.to_nat chan = Some v /\ in_window v).
  { intros chan Hc.
    assert (Hfit0 := Hfit). destruct Hfit0 as (_ & _ & Hsm).
    destruct (Hsm Hmode) as (Hrows & _ & Hall).
    destruct (lookup_lt_is_Some_2 (rcSamples (smoothing st)) (Z.to_nat chan)
                ltac:(lia)) as [row Hrow].
    assert (Hlen : length row = 4%nat)
      by exact (proj1 (Forall_lookup _ _) Hall _ _ Hrow).
    destruct (poll_tick env st k chan row Hmode Hfit Hc Hrow)
      as (_ & _ & _ & Hrow' & Hraw & Hmean).
    fold st' in Hrow', Hraw, Hmean.
    specialize (Hcol ltac:(lia)). specialize (Hwin chan row Hc Hrow).
    pose proof (checked_sample_in_window env (tk_read k) chan Hmid) as Hs.
    rewrite (in_window_int16 _ Hs) in Hrow', Hraw, Hmean.
    set (s := checked_sample env (tk_read k) chan) in *.
    set (idx' := to_uint8 (rcSampleIndex st + 1)) in *.
    set (row' := zset row (idx' mod PPM_AND_PWM_SAMPLE_COUNT) s) in *.
    assert (Hlen' : length row' = 4%nat) by (unfold row'; rewrite length_zset; exact Hlen).
    exists row'. split; [exact Hrow' |].
    rewrite Hcol, Hidx'. fold idx'.
    destruct (rxSamplesCollected (smoothing st)) eqn:Ecol.
    - cbn [orb] in *.
      assert (Hall' : Forall in_window row')
        by (unfold row', zset; apply Forall_insert; assumption).
      split; [exact Hall' |].
      eexists. split; [apply Hmean; reflexivity |].
      apply mean_in_window; assumption.
    - cbn [orb] in *. destruct Hwin as [Hlt Hslots].
      unfold PPM_AND_PWM_SAMPLE_COUNT in *.
      assert (Eidx : idx' = rcSampleIndex st + 1)
        by (unfold idx'; apply to_uint8_small; lia).
      destruct (Z.leb_spec 4 idx') as [Hfull | Hpart].
      + assert (Hthree : rcSampleIndex st = 3) by lia.
        assert (Hall' : Forall in_window row').
        { unfold row'. rewrite Eidx, Hthree. change ((3 + 1) mod 4) with 0.
          pose proof (Hslots 1 ltac:(lia)) as S1.
          pose proof (Hslots 2 ltac:(lia)) as S2.
          pose proof (Hslots 3 ltac:(lia)) as S3.
          do 5 (destruct row as [| ? row]; try discriminate Hlen).
          repeat (apply Forall_cons_2; [assumption |]). apply Forall_nil_2. }
        split; [exact Hall' |].
        eexists. split; [apply Hmean; reflexivity |].
        apply mean_in_window; assumption.
      + split.
        * split; [lia |]. intros j Hj. unfold row'.
          rewrite Z.mod_small by lia.
          destruct (Z.eq_dec j idx') as [-> | Hne].
          -- rewrite zget_zset_eq by lia. exact Hs.
          -- rewrite zget_zset_ne by lia. apply Hslots. lia.
        * eexists. split; [apply Hraw; reflexivity | exact Hs]. }
  split; [exact Hfit' |]. split.
  - split; [rewrite Hidx'; apply to_uint8_range |].
    intros chan row'' Hc Hrow''.
    destruct (Hchan chan Hc) as (row' & Hrow' & Hok & _).
    rewrite Hrow' in Hrow''. injection Hrow'' as <-. exact Hok.
  - intros chan Hc. destruct (Hchan chan Hc) as (_ & _ & _ & Hv). exact Hv.
Qed.

(** X13. POLL mode, from the state [rxInit] leaves, with [midrc] a valid
    pulse: after any number of ticks, whatever the driver delivers, every
    channel in use holds a value in [750, 2250]. *)
Theorem poll_channels_stay_in_window env ticks chan :
  isRxDataDriven env = false ->
  in_window (midrc (rxConfig env)) ->
  arrays_fit env (rxInit_state (rxConfig env)) ->
  0 <= chan < channelCount env ->
  exists v,
    rcData (run_ticks env ticks (rxInit_state (rxConfig env))) !! Z.to_nat chan
    = Some v
    /\ in_window v.
Proof.
  intros Hmode Hmid Hfit Hchan.
  assert (Hrun : forall ticks st,
            arrays_fit env st -> windows_valid env st ->
            (forall c, 0 <= c < channelCount env ->
               exists v, rcData st !! Z.to_nat c = Some v /\ in_window v) ->
            forall c, 0 <= c < channelCount env ->
              exists v, rcData (run_ticks env ticks st) !! Z.to_nat c = Some v
                        /\ in_window v).
  { clear ticks. induction ticks as [| k ticks IH]; intros st Hf Hw Hd c Hc.
    - apply Hd, Hc.
    - unfold run_ticks. cbn [fold_left].
      destruct (poll_tick_invariant env st k Hmode Hmid Hf Hw) as (Hf' & Hw' & Hd').
      apply (IH (run_tick env k st) Hf' Hw' Hd' c Hc). }
  apply Hrun; [exact Hfit | | | exact Hchan].
  - split; [cbn; lia |]. intros c row Hc Hrow. cbn. split; [reflexivity |].
    intros j Hj. lia.
  - intros c Hc. exists (to_int16 (midrc (rxConfig env))).
    destruct Hfit as (_ & Hdata & _). split.
    + cbn in *. apply lookup_replicate. split; [reflexivity |].
      rewrite length_replicate in Hdata. lia.
    + rewrite in_window_int16 by exact Hmid. exact Hmid.
Qed.

(** X14. POLL mode: [rcSampleIndex] counts the ticks modulo 256, and the
    slot [rcSampleIndex % 4] that a tick writes moves on by one modulo 4
    per tick, also when the 8-bit counter wraps. *)
Theorem sample_slot_advances_cyclically env ticks st :
  isRxDataDriven env = false ->
  0 <= rcSampleIndex st < 256 ->
  let st' := run_ticks env ticks st in
  rcSampleIndex st' = (rcSampleIndex st + Z.of_nat (length ticks)) mod 256
  /\ rcSampleIndex st' mod PPM_AND_PWM_SAMPLE_COUNT
     = (rcSampleIndex st + Z.of_nat (length ticks)) mod PPM_AND_PWM_SAMPLE_COUNT.
Proof.
  intros Hmode Hidx st'.
  assert (Hrun : rcSampleIndex st'
                 = (rcSampleIndex st + Z.of_nat (length ticks)) mod 256).
  { unfold st'. clear st'. revert st Hidx.
    induction ticks as [| k ticks IH]; intros st Hidx.
    - cbn. rewrite Z.add_0_r, Z.mod_small by lia. reflexivity.
    - unfold run_ticks. cbn [fold_left length].
      assert (Hstep : rcSampleIndex (run_tick env k st)
                      = to_uint8 (rcSampleIndex st + 1)).
      { unfold run_tick.
        destruct (calculateRx_schedule (tk_time k) (with_driver k env) st)
          as (_ & _ & Hi & _).
        rewrite Hi. destruct (with_driver_setup env k) as (Hm & _).
        rewrite Hm, Hmode. reflexivity. }
      fold (run_ticks env ticks (run_tick env k st)).
      rewrite IH by (rewrite Hstep; apply to_uint8_range).
      rewrite Hstep. unfold to_uint8, to_unsigned. change (2 ^ 8) with 256.
      rewrite Zplus_mod_idemp_l. f_equal. lia. }
  split; [exact Hrun |]. rewrite Hrun. unfold PPM_AND_PWM_SAMPLE_COUNT.
  apply Z.mod_mod_divide. exists 64. reflexivity.
Qed.
(** One tick that delivers [v], seen from the slots written last. *)
Lemma steady_tick env st k chan v n row :
  isRxDataDriven env = false ->
  arrays_fit env st ->
  0 <= chan < channelCount env ->
  in_window v ->
  raw_sample env (tk_read k) chan = v ->
  rcSamples (smoothing st) !! Z.to_nat chan = Some row ->
  (forall j, 0 <= j < n ->
     zget row ((rcSampleIndex st - j) mod PPM_AND_PWM_SAMPLE_COUNT) = v) ->
  let st' := run_tick env k st in
  arrays_fit env st'
  /\ exists row',
       rcSamples (smoothing st') !! Z.to_nat chan = Some row'
       /\ (forall j, 0 <= j < n + 1 ->
             zget row' ((rcSampleIndex st' - j) mod PPM_AND_PWM_SAMPLE_COUNT) = v)
       /\ (3 <= n -> rcData st' !! Z.to_nat chan = Some v).
Proof.
  intros Hmode Hfit Hchan Hv Hraw Hrow Hrecent st'.
  assert (Hlen : length row = 4%nat).
  { destruct Hfit as (_ & _ & Hsm). destruct (Hsm Hmode) as (_ & _ & Hall).
    exact (proj1 (Forall_lookup _ _) Hall _ _ Hrow). }
  destruct (poll_tick env st k chan row Hmode Hfit Hchan Hrow)
    as (Hfit' & Hidx & _ & Hrow' & Hplain & Hmean).
  fold st' in Hfit', Hidx, Hrow', Hplain, Hmean.
  assert (Hs : checked_sample env (tk_read k) chan = v).
  { unfold checked_sample. rewrite Hraw. apply validate_in_window. exact Hv. }
  rewrite Hs, (in_window_int16 v Hv) in Hrow', Hplain, Hmean.
  unfold PPM_AND_PWM_SAMPLE_COUNT in *.
  set (idx' := to_uint8 (rcSampleIndex st + 1)) in *.
  assert (Hnext : idx' mod 4 = (rcSampleIndex st + 1) mod 4).
  { unfold idx', to_uint8, to_unsigned. change (2 ^ 8) with 256.
    apply Z.mod_mod_divide. exists 64. reflexivity. }
  set (row' := zset row (idx' mod 4) v) in *.
  assert (Hnew : forall j, 0 <= j < n + 1 -> zget row' ((idx' - j) mod 4) = v).
  { intros j Hj. unfold row'.
    destruct (Z.eq_dec ((idx' - j) mod 4) (idx' mod 4)) as [-> | Hne].
    - apply zget_zset_eq. rewrite Hlen.
      pose proof (Z.mod_pos_bound idx' 4 ltac:(lia)). lia.
    - rewrite zget_zset_ne;
        [| apply Z.mod_pos_bound; lia | apply Z.mod_pos_bound; lia
         | intros E; apply Hne; symmetry; exact E].
      assert (Hj1 : 1 <= j).
      { destruct (Z.eq_dec j 0) as [-> | ?]; [| lia].
        rewrite Z.sub_0_r in Hne. contradiction. }
      replace ((idx' - j) mod 4) with ((rcSampleIndex st - (j - 1)) mod 4).
      + apply Hrecent. lia.
      + replace (rcSampleIndex st - (j - 1)) with (rcSampleIndex st + 1 - j) by lia.
        rewrite <- (Zminus_mod_idemp_l (rcSampleIndex st + 1)), <- Hnext.
        apply Zminus_mod_idemp_l. }
  split; [exact Hfit' |]. exists row'. rewrite Hidx.
  split; [exact Hrow' |]. split; [exact Hnew |].
  intros Hn.
  assert (Hslot : forall s, 0 <= s < 4 -> zget row' s = v).
  { intros s Hs4.
    pose proof (Hnew ((idx' - s) mod 4)) as Hj.
    replace ((idx' - (idx' - s) mod 4) mod 4) with s in Hj.
    - apply Hj. pose proof (Z.mod_pos_bound (idx' - s) 4 ltac:(lia)). lia.
    - rewrite Zminus_mod_idemp_r. replace (idx' - (idx' - s)) with s by lia.
      symmetry. apply Z.mod_small. exact Hs4. }
  destruct (rxSamplesCollected (smoothing st) || (4 <=? idx')) eqn:Havg.
  - rewrite (Hmean eq_refl). f_equal.
    assert (Hlen' : length row' = 4%nat) by (unfold row'; rewrite length_zset; exact Hlen).
    pose proof (Hslot 0 ltac:(lia)) as S0. pose proof (Hslot 1 ltac:(lia)) as S1.
    pose proof (Hslot 2 ltac:(lia)) as S2. pose proof (Hslot 3 ltac:(lia)) as S3.
    clearbody row'.
    do 5 (destruct row' as [| ? row']; try discriminate Hlen').
    vm_compute in S0, S1, S2, S3. rewrite S0, S1, S2, S3.
    unfold in_window, PULSE_MIN, PULSE_MAX in Hv.
    rewrite window_sum_small by lia.
    replace (v + v + v + v) with (v * 4) by lia.
    rewrite Z.quot_mul by lia.
    rewrite to_uint16_small by lia. apply to_int16_small. lia.
  - exact (Hplain eq_refl).
Qed.

(** X15. POLL mode, from any state: once the driver has delivered the same
    valid pulse [v] on a channel for four ticks or more, the channel holds
    exactly [v]; the smoothing settles within one window and adds no
    offset. *)
Theorem steady_input_is_published env ticks st chan v :
  isRxDataDriven env = false ->
  arrays_fit env st ->
  0 <= chan < channelCount env ->
  in_window v ->
  Forall (fun k => raw_sample env (tk_read k) chan = v) ticks ->
  (4 <= length ticks)%nat ->
  rcData (run_ticks env ticks st) !! Z.to_nat chan = Some v.
Proof.
  intros Hmode Hfit Hchan Hv Hall Hlen.
  assert (Hrun : forall ticks st n row,
            arrays_fit env st ->
            rcSamples (smoothing st) !! Z.to_nat chan = Some row ->
            (forall j, 0 <= j < n ->
               zget row ((rcSampleIndex st - j) mod PPM_AND_PWM_SAMPLE_COUNT) = v) ->
            Forall (fun k => raw_sample env (tk_read k) chan = v) ticks ->
            ticks <> [] ->
            4 <= n + Z.of_nat (length ticks) ->
            rcData (run_ticks env ticks st) !! Z.to_nat chan = Some v).
  { clear ticks st Hfit Hall Hlen.
    induction ticks as [| k ticks IH]; intros st n row Hfit Hrow Hrecent Hall Hne Hn;
      [contradiction |].
    apply Forall_cons in Hall as [Hk Hall].
    destruct (steady_tick env st k chan v n row Hmode Hfit Hchan Hv Hk Hrow Hrecent)
      as (Hfit' & row' & Hrow' & Hrecent' & Hdata).
    unfold run_ticks. cbn [fold_left].
    fold (run_ticks env ticks (run_tick env k st)).
    destruct ticks as [| k' ticks'].
    - cbn in Hn |- *. apply Hdata. lia.
    - apply (IH (run_tick env k st) (n + 1) row' Hfit' Hrow' Hrecent' Hall);
        [discriminate |].
      cbn [length] in Hn |- *. lia. }
  assert (Hfit0 := Hfit). destruct Hfit0 as (_ & _ & Hsm).
  destruct (Hsm Hmode) as (Hrows & _ & _).
  destruct (lookup_lt_is_Some_2 (rcSamples (smoothing st)) (Z.to_nat chan)
              ltac:(lia)) as [row Hrow].
  apply (Hrun ticks st 0 row Hfit Hrow); [intros j Hj; lia | exact Hall | | lia].
  intros ->. cbn in Hlen. lia.
Qed.
End More.

Lemma last_offset_from_some input :
  forall offset c o,
    last_offset_from input offset c = Some o ->
    offset <= o < offset + Z.of_nat (String.length input)
    /\ String.get (Z.to_nat (o - offset)) input = Some c.
Proof.
  induction input as [| a rest IH]; intros offset c o Ho; [discriminate Ho |].
  cbn [last_offset_from] in Ho.
  destruct (Ascii.eqb a zero); [discriminate Ho |].
  destruct (last_offset_from rest (offset + 1) c) as [o' |] eqn:E.
  - injection Ho as <-. destruct (IH _ _ _ E) as [Hr Hg].
    cbn [String.length]. split; [lia |].
    replace (Z.to_nat (o' - offset)) with (S (Z.to_nat (o' - (offset + 1)))) by lia.
    exact Hg.
  - destruct (Ascii.eqb_spec a c) as [-> | _]; [| discriminate Ho].
    injection Ho as <-. cbn [String.length]. split; [lia |].
    rewrite Z.sub_diag. reflexivity.
Qed.

Lemma mentions_last_offset input :
  forall offset c,
    mentions input c = true ->
    exists o, last_offset_from input offset c = Some o.
Proof.
  induction input as [| a rest IH]; intros offset c Hm; [discriminate Hm |].
  cbn [mentions last_offset_from] in *.
  destruct (Ascii.eqb a zero); [discriminate Hm |].
  destruct (last_offset_from rest (offset + 1) c) as [o' |] eqn:E;
    [exists o'; reflexivity |].
  destruct (Ascii.eqb a c); [exists offset; reflexivity |].
  cbn [orb] in Hm. destruct (IH (offset + 1) c Hm) as [o Ho]. congruence.
Qed.

(** X16. For an input of at most 256 characters in which every letter of
    "AERT1234" occurs, [parseRcChannels] makes entry [i] of the remap table
    an offset into the input at which the input holds the letter at
    position [i]; [calculateChannelRemapping] then sends channel [i] to
    that offset, and the first eight entries are pairwise distinct. *)
Theorem channel_order_string_round_trip (input : string) (cfg : rxConfig_t) :
  (8 <= length (rcmap cfg))%nat ->
  (String.length input <= 256)%nat ->
  (forall i c, String.get i rcChannelLetters = Some c -> mentions input c = true) ->
  let rcmap' := rcmap (parseRcChannels input cfg) in
  (forall i c, String.get i rcChannelLetters = Some c ->
     exists o,
       rcmap' !! i = Some o
       /\ 0 <= o < Z.of_nat (String.length input)
       /\ String.get (Z.to_nat o) input = Some c
       /\ calculateChannelRemapping rcmap' 8 (Z.of_nat i) = o)
  /\ (forall i j, (i < 8)%nat -> (j < 8)%nat ->
        rcmap' !! i = rcmap' !! j -> i = j).
Proof.
  intros Hlen Hshort Hall rcmap'.
  destruct (parseRcChannels_from_spec input 0 (rcmap cfg) Hlen) as (_ & _ & Hin).
  assert (Hpoint : forall i c, String.get i rcChannelLetters = Some c ->
            exists o,
              rcmap' !! i = Some o
              /\ 0 <= o < Z.of_nat (String.length input)
              /\ String.get (Z.to_nat o) input = Some c).
  { intros i c Hc.
    destruct (mentions_last_offset input 0 c (Hall i c Hc)) as [o Ho].
    destruct (last_offset_from_some input 0 c o Ho) as [Hr Hg].
    rewrite Z.sub_0_r in Hg. exists o. split; [| split; [lia | exact Hg]].
    unfold rcmap'. cbn [parseRcChannels rcmap]. rewrite (Hin i c Hc), Ho.
    rewrite to_uint8_small by lia. reflexivity. }
  split.
  - intros i c Hc. destruct (Hpoint i c Hc) as (o & Ho & Hr & Hg).
    exists o. repeat split; try assumption; try lia.
    destruct (rcChannelLetters_get_lt i c Hc) as [Hi _].
    unfold calculateChannelRemapping.
    destruct (Z.ltb_spec (Z.of_nat i) 8); [| lia].
    unfold zget. rewrite Nat2Z.id, Ho. reflexivity.
  - intros i j Hi Hj Heq.
    assert (Hget : forall n, (n < 8)%nat ->
              exists c, String.get n rcChannelLetters = Some c).
    { intros n Hn. do 8 (destruct n as [| n]; [eexists; reflexivity |]). lia. }
    destruct (Hget i Hi) as [ci Hci]. destruct (Hget j Hj) as [cj Hcj].
    destruct (Hpoint i ci Hci) as (oi & Hoi & _ & Hgi).
    destruct (Hpoint j cj Hcj) as (oj & Hoj & _ & Hgj).
    rewrite Hoi, Hoj in Heq. injection Heq as <-.
    rewrite Hgi in Hgj. injection Hgj as <-.
    exact (rcChannelLetters_inj i j ci Hci Hcj).
Qed.

(** *** The ADC source in closed form *)

Lemma rssiPercentage_table :
  forallb (fun s => rssiPercentage_of s =? s * 100 / 4095) (upto 4096) = true.
Proof. vm_compute. reflexivity. Qed.

Lemma rssiPercentage_exact s :
  0 <= s <= 4095 -> rssiPercentage_of s = s * 100 / 4095.
Proof.
  intros Hs. pose proof rssiPercentage_table as Ht.
  rewrite forallb_forall in Ht.
  apply Z.eqb_eq, Ht, list_elem_of_In, elem_of_upto. lia.
Qed.

Lemma rescale_1023_table_100_exact :
  forallb (fun p => rescale_1023 p 100 =? p * 1023 / 100) (upto 101) = true.
Proof. vm_compute. reflexivity. Qed.

Lemma rescale_1023_exact_100 p :
  0 <= p <= 100 -> rescale_1023 p 100 = p * 1023 / 100.
Proof.
  intros Hp. pose proof rescale_1023_table_100_exact as Ht.
  rewrite forallb_forall in Ht.
  apply Z.eqb_eq, Ht, list_elem_of_In, elem_of_upto. lia.
Qed.

Lemma sum_percentages_bounds (samples : list Z) :
  Forall (fun s => 0 <= s <= 4095) samples ->
  map (fun s => rssiPercentage_of (to_uint16 s)) samples
  = map (fun s => s * 100 / 4095) samples
  /\ 0 <= sum_Z (map (fun s => s * 100 / 4095) samples)
     <= 100 * Z.of_nat (length samples).
Proof.
  induction 1 as [| s l Hs Hl [IH1 IH2]]; [split; [reflexivity | cbn; lia] |].
  cbn [map length sum_Z fold_right]. unfold sum_Z in IH2.
  rewrite IH1, to_uint16_small, rssiPercentage_exact by lia.
  split; [reflexivity |].
  assert (0 <= s * 100 / 4095 <= 100)
    by (split; [apply Z.div_pos | apply Z.div_le_upper_bound]; lia).
  lia.
Qed.

Section AdcForm.
Context `{RxBuild}.

(** X17. The ADC source on 12-bit readings: every reading [s] converts
    to the percentage [s * 100 / 4095], rounded down, as exact arithmetic
    gives it; and after sixteen accepted updates, whatever the window held
    before, the RSSI is the mean of the sixteen percentages, rounded down,
    times 1023 / 100, rounded down. *)
Theorem adc_rssi_closed_form times samples env st :
  length (adcRssiSamples (adc st)) = 16%nat ->
  length times = 16%nat ->
  length samples = 16%nat ->
  all_accepted times (rssiUpdateAt (adc st)) = true ->
  Forall (fun s => 0 <= s <= 4095) samples ->
  Forall (fun s => rssiPercentage_of (to_uint16 s) = s * 100 / 4095) samples
  /\ rssi (updateRSSIADC_seq times samples env st)
     = sum_Z (map (fun s => s * 100 / 4095) samples) / 16 * 1023 / 100.
Proof.
  intros Hw Ht Hs Hacc Hadc. split.
  - apply Forall_forall. intros s Hin.
    pose proof (proj1 (Forall_forall _ _) Hadc s Hin) as Hrange.
    cbv beta in Hrange.
    rewrite to_uint16_small, rssiPercentage_exact by lia. reflexivity.
  - rewrite (updateRSSIADC_sixteen times samples env st Hw Ht Hs Hacc).
    destruct (sum_percentages_bounds samples Hadc) as [Emap Hsum].
    rewrite Emap, Hs in *. unfold RSSI_ADC_SAMPLE_COUNT.
    set (total := sum_Z _) in *.
    rewrite Z.quot_div_nonneg by lia.
    assert (Hmean : 0 <= total / 16 <= 100)
      by (split; [apply Z.div_pos | apply Z.div_le_upper_bound]; lia).
    rewrite to_int16_small by lia.
    unfold constrain.
    destruct (Z.ltb_spec (total / 16) 0); [lia |].
    destruct (Z.ltb_spec 100 (total / 16)); [lia |].
    apply rescale_1023_exact_100. exact Hmean.
Qed.
End AdcForm.

Section AdcRuns.
Local Existing Instance firmware_build.

(** Sixteen full-scale readings: 100 percent and an RSSI of 1023. *)
Lemma adc_rssi_closed_form_witness :
  rssi (updateRSSIADC_seq (map (fun i => i * DELAY_50_HZ) (upto 16))
          (replicate 16 4095) ppm_env (rxInit_state resetConf_rxConfig))
  = 1023.
Proof.
  destruct (adc_rssi_closed_form (map (fun i => i * DELAY_50_HZ) (upto 16))
              (replicate 16 4095) ppm_env (rxInit_state resetConf_rxConfig))
    as [_ Hform].
  - reflexivity.
  - reflexivity.
  - reflexivity.
  - vm_compute. reflexivity.
  - apply Forall_replicate. lia.
  - rewrite Hform. reflexivity.
Defined.
End AdcRuns.

(** *** Concrete runs *)

(** Closed arithmetic side conditions. *)
Ltac by_computation :=
  vm_compute; repeat split; try (intros Hd; discriminate Hd).

Section MoreRuns.
Local Existing Instance firmware_build.

(** A pass 5 ms before the 32-bit time wraps: the next one is due 20 ms
    later, after the wrap. *)
Lemma pass_due_again_after_20ms_witness :
  shouldProcessRx (to_uint32 (2 ^ 32 - 5000 + 20000))
    (fst (calculateRxChannelsAndUpdateFailsafe (2 ^ 32 - 5000) ppm_env
            (rxInit_state resetConf_rxConfig)))
  = true
  /\ shouldProcessRx (to_uint32 (2 ^ 32 - 5000 + 19999))
       (fst (calculateRxChannelsAndUpdateFailsafe (2 ^ 32 - 5000) ppm_env
               (rxInit_state resetConf_rxConfig)))
     = false.
Proof.
  split.
  - rewrite (pass_due_again_after_20ms (2 ^ 32 - 5000) 20000 ppm_env
               (rxInit_state resetConf_rxConfig)); [reflexivity |].
    split; [lia | reflexivity].
  - rewrite (pass_due_again_after_20ms (2 ^ 32 - 5000) 19999 ppm_env
               (rxInit_state resetConf_rxConfig)); [reflexivity |].
    split; [lia | reflexivity].
Defined.

(** A second ADC reading 5 ms after the first is ignored. *)
Lemma adc_sampled_once_per_20ms_witness :
  updateRSSIADC (to_uint32 (0 + 5000)) (with_adc 4095 ppm_env)
    (updateRSSIADC 0 (with_adc 2048 ppm_env) (rxInit_state resetConf_rxConfig))
  = updateRSSIADC 0 (with_adc 2048 ppm_env) (rxInit_state resetConf_rxConfig).
Proof.
  destruct (adc_sampled_once_per_20ms 0 5000 (with_adc 2048 ppm_env)
              (with_adc 4095 ppm_env) (rxInit_state resetConf_rxConfig))
    as [Hsame _].
  - reflexivity.
  - split; [lia | reflexivity].
  - apply Hsame. reflexivity.
Defined.

Lemma rssi_stays_in_range_witness :
  0 <= rssi (updateRSSI 0 rssi_channel_env (rxInit_state resetConf_rxConfig))
  <= 1023.
Proof.
  apply rssi_stays_in_range. vm_compute. split; intros Hd; discriminate Hd.
Defined.



(** The serial feature with drivers that all fail. *)
Lemma failed_serial_init_holds_midrc_witness :
  rcReadRawFunc (fst (rxInit absent_drivers resetConf_rxConfig (serial_env [])
                        (rxInit_state resetConf_rxConfig)))
  = None.
Proof.
  exact (proj1 (failed_serial_init_holds_midrc absent_drivers resetConf_rxConfig
                  (serial_env []) (rxInit_state resetConf_rxConfig)
                  eq_refl eq_refl eq_refl eq_refl eq_refl)).
Defined.

(** Ticks that deliver 300, 5000, 60000 and 1200 on channel 0. *)
Lemma poll_channels_stay_in_window_witness :
  exists v,
    rcData (run_ticks ppm_env
              [tick_of 0 [300]; tick_of 20000 [5000]; tick_of 40000 [60000];
               tick_of 60000 [1200]; tick_of 80000 [2250]]
              (rxInit_state (rxConfig ppm_env))) !! Z.to_nat 0
    = Some v
    /\ in_window v.
Proof.
  apply poll_channels_stay_in_window.
  - reflexivity.
  - by_computation.
  - apply arrays_fit_rxInit. by_computation.
  - by_computation.
Defined.

(** The tick on which the counter goes from 255 to 0 writes slot 0, the one
    after slot 3. *)
Lemma sample_slot_advances_cyclically_witness :
  rcSampleIndex
    (run_ticks ppm_env [tick_of 0 []]
       (set_rcSampleIndex 255 (rxInit_state resetConf_rxConfig)))
  mod PPM_AND_PWM_SAMPLE_COUNT
  = 0.
Proof.
  destruct (sample_slot_advances_cyclically ppm_env [tick_of 0 []]
              (set_rcSampleIndex 255 (rxInit_state resetConf_rxConfig)))
    as [_ Hslot].
  - reflexivity.
  - by_computation.
  - rewrite Hslot. reflexivity.
Defined.

(** One tick at 1000, then four at 1600. *)
Lemma steady_input_is_published_witness :
  rcData (run_ticks ppm_env
            [tick_of 20000 [1600]; tick_of 40000 [1600]; tick_of 60000 [1600];
             tick_of 80000 [1600]]
            (run_ticks ppm_env
               [tick_of 0 [1000]] (rxInit_state resetConf_rxConfig)))
    !! Z.to_nat 0
  = Some 1600.
Proof.
  apply steady_input_is_published.
  - reflexivity.
  - unfold run_ticks. cbn [fold_left].
    apply run_tick_fit; [reflexivity |]. apply arrays_fit_rxInit. by_computation.
  - by_computation.
  - by_computation.
  - repeat (apply Forall_cons_2; [reflexivity |]). apply Forall_nil_2.
  - cbn. lia.
Defined.

End MoreRuns.

(** The default order "AETR1234" and the letter R, at position 2 of
    "AERT1234". *)
Lemma channel_order_string_round_trip_witness :
  exists o,
    rcmap (parseRcChannels "AETR1234" cleared_rxConfig) !! 2%nat = Some o
    /\ String.get (Z.to_nat o) "AETR1234" = Some "R"%char.
Proof.
  destruct (channel_order_string_round_trip "AETR1234" cleared_rxConfig)
    as [Hpoint _].
  - cbn. lia.
  - cbn. lia.
  - intros i c Hc. unfold rcChannelLetters in Hc.
    do 8 (destruct i as [| i]; [injection Hc as <-; reflexivity |]).
    discriminate Hc.
  - destruct (Hpoint 2%nat "R"%char eq_refl) as (o & Ho & _ & Hg & _).
    exists o. split; assumption.
Defined.

End RxMore.

(** ** More on the timer capture dispatcher *)

Module TimerMore.
Import Timer CIntFacts TimerFacts.

Section MoreDispatch.
Context `{TimerBuild}.
Hypothesis Hok : build_ok.







Lemma findTimerConfig_found tim channel table :
  tim ∈ timers -> channel ∈ channels ->
  Z.of_nat (length table) = MAX_TIMERS * CC_CHANNELS_PER_TIMER ->
  exists c, findTimerConfig tim channel table = Ret c.
Proof.
  intros Htim Hch Hlen.
  destruct (lookupTimerConfigIndex_found Hok tim channel Htim Hch) as [index Hidx].
  pose proof (lookupTimerConfigIndex_in_range Hok _ _ _ Hidx) as Hrange.
  destruct (lookup_lt_is_Some_2 table (Z.to_nat index) ltac:(lia)) as [c Hc].
  exists c. unfold findTimerConfig. rewrite Hidx. cbn [bind]. rewrite Hc.
  reflexivity.
Qed.

(** X19. For a timer of the table and a configuration table of full
    size, whatever it holds, the handler returns with every source it tests
    acknowledged; called again on the acknowledged registers it makes no
    call and changes nothing. *)
Theorem interrupt_serviced_once tim hw table :
  tim ∈ timers ->
  Z.of_nat (length table) = MAX_TIMERS * CC_CHANNELS_PER_TIMER ->
  exists calls,
    timCCxHandler tim hw table = Ret (acknowledged hw, calls)
    /\ pending (acknowledged hw) = false
    /\ timCCxHandler tim (acknowledged hw) table = Ret (acknowledged hw, []).
Proof.
  intros Htim Hlen.
  destruct (findTimerConfig_found tim TIM_Channel_1 table Htim
              ltac:(repeat constructor) Hlen) as [c1 F1].
  destruct (findTimerConfig_found tim TIM_Channel_2 table Htim
              ltac:(repeat constructor) Hlen) as [c2 F2].
  destruct (findTimerConfig_found tim TIM_Channel_3 table Htim
              ltac:(repeat constructor) Hlen) as [c3 F3].
  destruct (findTimerConfig_found tim TIM_Channel_4 table Htim
              ltac:(repeat constructor) Hlen) as [c4 F4].
  eexists. split; [apply (timCCxHandler_entries Hok tim hw table c1 c2 c3 c4 F1 F2 F3 F4) |].
  split; [reflexivity |].
  rewrite (timCCxHandler_entries Hok tim (acknowledged hw) table c1 c2 c3 c4
             F1 F2 F3 F4).
  reflexivity.
Qed.



(** X21. Two valid registrations for different (timer, channel) pairs
    can be made in either order: both orders return the same table. *)
Theorem registrations_commute r1 r2 table :
  valid_registration r1 ->
  valid_registration r2 ->
  (reg_tim r1, reg_channel r1) <> (reg_tim r2, reg_channel r2) ->
  Z.of_nat (length table) = MAX_TIMERS * CC_CHANNELS_PER_TIMER ->
  exists table',
    register_all [r1; r2] table = Ret table'
    /\ register_all [r2; r1] table = Ret table'.
Proof.
  intros Hv1 Hv2 Hne Hlen.
  assert (Hv1' := Hv1). assert (Hv2' := Hv2).
  destruct Hv1' as (Ht1 & Hc1 & _), Hv2' as (Ht2 & Hc2 & _).
  destruct (lookupTimerConfigIndex_found Hok _ _ Ht1 Hc1) as [i1 Hi1].
  destruct (lookupTimerConfigIndex_found Hok _ _ Ht2 Hc2) as [i2 Hi2].
  pose proof (lookupTimerConfigIndex_in_range Hok _ _ _ Hi1) as R1.
  pose proof (lookupTimerConfigIndex_in_range Hok _ _ _ Hi2) as R2.
  assert (Hdiff : Z.to_nat i1 <> Z.to_nat i2).
  { intros E. assert (i1 = i2) by lia. subst i2.
    destruct (lookupTimerConfigIndex_inj Hok _ _ _ _ _ Hi1 Hi2) as [E1 E2].
    apply Hne. congruence. }
  destruct (configure_valid Hok r1 table i1 Hv1 Hi1 Hlen) as (o1 & Ho1 & C1).
  destruct (configure_valid Hok r2 table i2 Hv2 Hi2 Hlen) as (o2 & Ho2 & C2).
  match type of C1 with
  | _ = Ret ?t =>
      destruct (configure_valid Hok r2 t i2 Hv2 Hi2
                  ltac:(rewrite length_insert; exact Hlen)) as (o2' & Ho2' & C21)
  end.
  match type of C2 with
  | _ = Ret ?t =>
      destruct (configure_valid Hok r1 t i1 Hv1 Hi1
                  ltac:(rewrite length_insert; exact Hlen)) as (o1' & Ho1' & C12)
  end.
  rewrite list_lookup_insert_ne in Ho2' by exact Hdiff.
  rewrite list_lookup_insert_ne in Ho1' by (intros E; apply Hdiff; symmetry; exact E).
  assert (o2' = o2) by congruence. assert (o1' = o1) by congruence. subst o1' o2'.
  eexists. split.
  - rewrite (register_all_cons _ _ _ _ C1), (register_all_cons _ _ _ _ C21).
    reflexivity.
  - rewrite (register_all_cons _ _ _ _ C2), (register_all_cons _ _ _ _ C12).
    unfold register_all. cbn [fold_left]. f_equal.
    apply list_insert_insert_ne. exact Hdiff.
Qed.

Lemma valid_hardware_registers e reference edge overflow table :
  valid_hardware e ->
  0 <= reference < 256 ->
  Z.of_nat (length table) = MAX_TIMERS * CC_CHANNELS_PER_TIMER ->
  exists table' src,
    configureTimerCaptureCompareInterrupt e reference edge overflow table
    = Ret (table',
           ITEnable (th_tim e) src
           :: (if overflow =? 0 then [] else [ITEnable (th_tim e) TIM_IT_Update]))
    /\ (th_channel e, src) ∈ channel_sources
    /\ length table' = length table.
Proof.
  intros [Htim Hch] Href Hlen.
  destruct (lookupTimerConfigIndex_found Hok _ _ Htim Hch) as [index Hidx].
  destruct (configure_valid Hok
              {| reg_tim := th_tim e; reg_channel := th_channel e;
                 reg_reference := reference; reg_edge := edge;
                 reg_overflow := overflow |} table index
              ltac:(split; [exact Htim | split; [exact Hch | exact Href]])
              Hidx Hlen) as (old & _ & Hcfg).
  cbn [reg_tim reg_channel reg_reference reg_edge reg_overflow] in Hcfg.
  destruct (channels_distinct Hok) as (D12 & D13 & D14 & D23 & D24 & D34).
  unfold configureTimerCaptureCompareInterrupt. rewrite Hcfg. cbn [bind].
  unfold configureTimerInputCaptureCompareChannel. cbv zeta.
  rewrite (channel_fits Hok _ Hch).
  match type of Hcfg with _ = Ret ?t => exists t end.
  clear Hcfg Hidx. unfold channels in Hch.
  repeat (apply elem_of_cons in Hch as [-> | Hch]);
    [ exists TIM_IT_CC1 | exists TIM_IT_CC2 | exists TIM_IT_CC3
    | exists TIM_IT_CC4 | apply elem_of_nil in Hch; contradiction ];
    rewrite ?Z.eqb_refl;
    repeat match goal with
           | |- context [?a =? ?b] =>
               lazymatch b with
               | 0 => fail
               | _ => destruct (Z.eqb_spec a b) as [? | _]; [congruence |]
               end
           end;
    (split; [reflexivity |]; split; [| apply length_insert]);
    unfold channel_sources; repeat constructor.
Qed.
End MoreDispatch.


(** A target with the channel constants of the peripheral library and at
    most 64 timers. *)
Lemma library_channels_ok (b : TimerBuild) :
  @channels b = [0; 4; 8; 12] ->
  (length (@timers b) <= 64)%nat ->
  @build_ok b.
Proof.
  intros Hch Hlen. unfold build_ok. rewrite Hch. split; [| split].
  - repeat (apply NoDup_cons_2;
            [ intros Hin;
              repeat (apply elem_of_cons in Hin; destruct Hin as [Hin | Hin];
                      [discriminate Hin |]);
              apply elem_of_nil in Hin; exact Hin |]).
    apply NoDup_nil_2.
  - repeat (apply Forall_cons_2; [lia |]). apply Forall_nil_2.
  - unfold MAX_TIMERS, CC_CHANNELS_PER_TIMER. lia.
Qed.

Lemma hardware_in_table_valid b table e :
  hardware_in_table b table = true -> e ∈ table -> @valid_hardware b e.
Proof.
  intros Hall Hin. unfold hardware_in_table in Hall.
  rewrite forallb_forall in Hall. apply list_elem_of_In in Hin.
  specialize (Hall e Hin). apply andb_prop in Hall as [Ht Hc].
  apply existsb_exists in Ht as (t & Ht & Et), Hc as (c & Hc & Ec).
  apply Z.eqb_eq in Et, Ec. subst t c.
  split; apply list_elem_of_In; assumption.
Qed.

(** X22. For each of the five target configurations of timer.c, and each
    entry of its [timerHardware] table: [configureTimerCaptureCompareInterrupt]
    on that entry returns, with a table of the same size, and enables the
    capture-compare interrupt of the entry's channel, followed by the
    update interrupt exactly when an overflow callback is given. The
    searches never leave the tables on the firmware's own entries. *)
Theorem shipped_hardware_registers :
  Forall
    (fun target : TimerBuild * list timerHardware_t =>
       @build_ok (fst target)
       /\ forall e reference edge overflow table,
            e ∈ snd target ->
            0 <= reference < 256 ->
            Z.of_nat (length table)
            = @MAX_TIMERS (fst target) * CC_CHANNELS_PER_TIMER ->
            exists table' src,
              @configureTimerCaptureCompareInterrupt (fst target) e reference
                edge overflow table
              = Ret (table',
                     ITEnable (th_tim e) src
                     :: (if overflow =? 0 then []
                         else [ITEnable (th_tim e) TIM_IT_Update]))
              /\ (th_channel e, src) ∈ @channel_sources (fst target)
              /\ length table' = length table)
    targets.
Proof.
  unfold targets.
  repeat (apply Forall_cons_2;
          [ cbn [fst snd];
            match goal with
            | |- @build_ok ?b /\ _ =>
                assert (Hb : @build_ok b)
                  by (apply library_channels_ok; [reflexivity | cbn; lia]);
                split; [exact Hb |];
                intros e reference edge overflow table Hin Href Hlen;
                apply (valid_hardware_registers Hb); try assumption;
                eapply (hardware_in_table_valid b _ e); [| exact Hin];
                reflexivity
            end |]).
  apply Forall_nil_2.
Qed.

(** X23. The prescaler that [configTimeBase] computes: for a positive
    [mhz] not above the core clock, prescaler + 1 is the quotient of the
    core clock by [mhz] MHz, it fits the 16 bits of the prescaler register,
    and the counter runs at exactly [mhz] MHz when that divides the core
    clock; for [mhz] above the core clock the subtraction wraps, and the
    expression is 2^32 - 1; [mhz = 0] divides by zero. *)
Theorem prescaler_gives_requested_rate (SystemCoreClock mhz : Z) :
  0 <= SystemCoreClock < 2 ^ 32 ->
  0 <= mhz < 256 ->
  (mhz = 0 -> configTimeBase_TIM_Prescaler SystemCoreClock mhz = None)
  /\ (0 < mhz -> mhz * 1000000 <= SystemCoreClock ->
      exists psc,
        configTimeBase_TIM_Prescaler SystemCoreClock mhz = Some psc
        /\ psc + 1 = SystemCoreClock / (mhz * 1000000)
        /\ 0 <= psc < 2 ^ 16
        /\ ((mhz * 1000000 | SystemCoreClock) ->
            SystemCoreClock / (psc + 1) = mhz * 1000000))
  /\ (SystemCoreClock < mhz * 1000000 ->
      configTimeBase_TIM_Prescaler SystemCoreClock mhz = Some (2 ^ 32 - 1)).
Proof.
  intros Hclk Hmhz. unfold configTimeBase_TIM_Prescaler. cbv zeta.
  rewrite (to_uint8_small mhz) by lia.
  assert (Hdiv : to_uint32 (mhz * 1000000) = mhz * 1000000)
    by (apply Z.mod_small; lia).
  assert (Hc : to_uint32 SystemCoreClock = SystemCoreClock)
    by (apply Z.mod_small; lia).
  rewrite Hdiv, Hc. split; [| split].
  - intros ->. reflexivity.
  - intros Hpos Hle.
    destruct (Z.eqb_spec (mhz * 1000000) 0); [lia |].
    assert (Hq : 1 <= SystemCoreClock / (mhz * 1000000) < 2 ^ 32).
    { split.
      - apply Z.div_le_lower_bound; lia.
      - apply Z.div_lt_upper_bound; nia. }
    exists (SystemCoreClock / (mhz * 1000000) - 1).
    split; [f_equal; apply Z.mod_small; lia |]. split; [lia |].
    split.
    { assert (SystemCoreClock / (mhz * 1000000) <= 4295)
        by (apply Z.div_le_upper_bound; lia).
      lia. }
    intros [k Hk].
    replace (SystemCoreClock / (mhz * 1000000) - 1 + 1)
      with (SystemCoreClock / (mhz * 1000000)) by lia.
    rewrite Hk, Z.div_mul by lia.
    assert (0 < k) by nia.
    rewrite Z.mul_comm, Z.div_mul by lia. reflexivity.
  - intros Hlt.
    destruct (Z.eqb_spec (mhz * 1000000) 0); [lia |].
    rewrite Z.div_small by lia. reflexivity.
Qed.


Lemma interrupt_serviced_once_witness :
  let hw :=
    {| it_Update := true; it_CC1 := false; it_CC2 := true; it_CC3 := false;
       it_CC4 := false; ARR := 65535; CCR1 := 1501; CCR2 := 1502; CCR3 := 1503;
       CCR4 := 1504 |} in
  @timCCxHandler naze_build TIM2 (acknowledged hw) (@timerInit naze_build)
  = Ret (acknowledged hw, []).
Proof.
  intros hw.
  destruct (@interrupt_serviced_once naze_build naze_build_ok TIM2 hw
              (@timerInit naze_build)) as (calls & _ & _ & Hagain).
  - repeat constructor.
  - reflexivity.
  - exact Hagain.
Defined.


Lemma registrations_commute_witness :
  let r1 := {| reg_tim := TIM2; reg_channel := 0; reg_reference := 1;
               reg_edge := 111; reg_overflow := 0 |} in
  let r2 := {| reg_tim := TIM2; reg_channel := 4; reg_reference := 2;
               reg_edge := 222; reg_overflow := 0 |} in
  exists table',
    @register_all naze_build [r1; r2] (@timerInit naze_build) = Ret table'
    /\ @register_all naze_build [r2; r1] (@timerInit naze_build) = Ret table'.
Proof.
  intros r1 r2.
  apply (@registrations_commute naze_build naze_build_ok).
  - split; [repeat constructor | split; [repeat constructor | cbn; lia]].
  - split; [repeat constructor | split; [repeat constructor | cbn; lia]].
  - intros E. discriminate E.
  - reflexivity.
Defined.

(** A core clock of 72 MHz and a counter of 1 MHz: the prescaler is 71. *)
Lemma prescaler_gives_requested_rate_witness :
  exists psc,
    configTimeBase_TIM_Prescaler 72000000 1 = Some psc
    /\ psc + 1 = 72000000 / (1 * 1000000).
Proof.
  destruct (prescaler_gives_requested_rate 72000000 1) as (_ & Hrate & _).
  - split; [lia | reflexivity].
  - lia.
  - destruct Hrate as (psc & Hpsc & Hq & _); [lia | lia |].
    exists psc. split; assumption.
Defined.

End TimerMore.

(** ** The validated feature mask in the pipeline *)

Module SetupFacts.
Import CIntFacts.

Section Setup.
Context `{Config.ConfigBuild} `{Rx.RxBuild}.
Hypothesis Hmasks : Config.masks_ok = true.
Hypothesis Hppm : Rx.FEATURE_RX_PPM = Config.FEATURE_RX_PPM.
Hypothesis Hpwm : Rx.FEATURE_RX_PARALLEL_PWM = Config.FEATURE_RX_PARALLEL_PWM.
Hypothesis Hserial : Rx.FEATURE_RX_SERIAL = Config.FEATURE_RX_SERIAL.
Hypothesis Hmsp : Rx.FEATURE_RX_MSP = Config.FEATURE_RX_MSP.

(** X24. A feature mask that [validateAndFixConfig] has fixed, used by
    the pipeline of rx.c: the pipeline is data driven exactly when the MSP
    or the serial receiver was enabled, and [updateRx] takes the frame flag
    from the MSP driver if MSP was enabled, else from the serial driver if
    serial was, else from none. *)
Theorem validated_mask_selects_mode (enabledFeatures : Z) (env : Rx.rx_env)
    (st : Rx.rx_state) :
  let env' :=
    Rx.with_enabledFeatures (Config.validateAndFixConfig enabledFeatures) env in
  Rx.isRxDataDriven env'
  = Config.feature enabledFeatures Config.FEATURE_RX_MSP
    || Config.feature enabledFeatures Config.FEATURE_RX_SERIAL
  /\ Rx.rcDataReceived (fst (Rx.updateRx env' st))
     = if Config.feature enabledFeatures Config.FEATURE_RX_MSP
       then Rx.rxMspFrameComplete env
       else if Config.feature enabledFeatures Config.FEATURE_RX_SERIAL
            then Rx.isSerialRxFrameComplete env
            else false.
Proof.
  intros env'.
  destruct (ConfigFacts.validateAndFixConfig_receivers Hmasks enabledFeatures)
    as (Em & Es & Ep & Ew).
  cbv zeta in Em, Es, Ep, Ew.
  assert (Hfeat : forall m,
            Rx.feature env' m
            = Config.feature (Config.validateAndFixConfig enabledFeatures) m)
    by reflexivity.
  split.
  - unfold Rx.isRxDataDriven.
    change (Rx.feature env' ?m) with
      (Config.feature (Config.validateAndFixConfig enabledFeatures) m).
    rewrite ConfigFacts.feature_lor, Hpwm, Hppm, Ew, Ep.
    destruct (Config.feature enabledFeatures Config.FEATURE_RX_MSP),
      (Config.feature enabledFeatures Config.FEATURE_RX_SERIAL),
      (Config.feature enabledFeatures Config.FEATURE_RX_PPM); reflexivity.
  - unfold Rx.updateRx. cbn [fst Rx.set_rcDataReceived Rx.rcDataReceived].
    rewrite !Hfeat, Hserial, Hmsp, Em, Es.
    destruct (Config.feature enabledFeatures Config.FEATURE_RX_MSP),
      (Config.feature enabledFeatures Config.FEATURE_RX_SERIAL); reflexivity.
Qed.
End Setup.

(** Serial and PPM both enabled: serial wins and the pipeline is data
    driven. *)
Lemma validated_mask_selects_mode_witness :
  @Rx.isRxDataDriven Rx.firmware_build
    (Rx.with_enabledFeatures (@Config.validateAndFixConfig Config.naze_config (8 + 1))
       Rx.ppm_env)
  = true.
Proof.
  exact (proj1 (@validated_mask_selects_mode Config.naze_config Rx.firmware_build
                  eq_refl eq_refl eq_refl eq_refl eq_refl (8 + 1) Rx.ppm_env
                  (@Rx.rxInit_state Rx.firmware_build Rx.resetConf_rxConfig))).
Defined.

End SetupFacts.
